(** * Account storage of Mission Control (mcd-storage): embedding and properties

    The development follows the storage code of [src/src/mcd-debug.c]
    (the part after the debugging helpers, which is [mcd-storage.c]):

    - [GLib]: the library functions the storage code calls (string
      helpers, number formatting and parsing, the key-file escaping of
      [GKeyFile], [g_list_insert_sorted]);
    - [Codec]: [mcd_keyfile_set_variant], [mcd_keyfile_get_variant] and
      the functions built on them;
    - [Storage]: the account cache, the plugin registry and the
      operations of [McdStorage];
    - [TestPlugin]: the account plugin of the tests
      ([src/tests/twisted/dbus-account-plugin.c]);
    - [ChannelHandlers], [McAccount], [AccountCompat]: the reader of the
      channel handler files, the object path of the account proxy and
      the compatibility interface of an account ([src/unnamed]);
    - [Statements]: the notions the properties are stated with;
    - the properties, each with the lemmas it rests on.

    Values of class double are left out of the value universe: their
    text form is produced by floating-point formatting.  Every definition
    is the source's function on the remaining types. *)

From Stdlib Require Import ZArith Ascii String List Lia Bool Sorted Permutation.
From stdpp Require Import base option gmap strings list.

Import ListNotations.

#[local] Open Scope Z_scope.

(** ** Errors *)

(** The (domain, code) pairs of [GError] the storage code raises or tests
    for; [OTHER_ERROR] stands for every other pair. *)
Inductive GErrorCode :=
| TP_ERROR_NOT_IMPLEMENTED
| TP_ERROR_INVALID_ARGUMENT
| TP_ERROR_NOT_AVAILABLE
| DBUS_GERROR_SERVICE_UNKNOWN
| G_KEY_FILE_ERROR_UNKNOWN_ENCODING
| G_KEY_FILE_ERROR_KEY_NOT_FOUND
| G_KEY_FILE_ERROR_INVALID_VALUE
| MCD_ACCOUNT_ERROR_GET_PARAMETER
| OTHER_ERROR (domain : string) (code : Z).

Record GError := g_error_new { error_code : GErrorCode; error_message : string }.

#[global] Instance GErrorCode_eq_dec : EqDecision GErrorCode.
Proof. solve_decision. Defined.

#[global] Instance GError_eq_dec : EqDecision GError.
Proof. solve_decision. Defined.

(** A fallible call: the value, or the [GError] left in [*error]. *)
Definition GResult (A : Type) : Type := sum GError A.

Definition Ok {A} (a : A) : GResult A := inr a.
Definition Err {A} (c : GErrorCode) (m : string) : GResult A := inl (g_error_new c m).

Definition is_ok {A} (r : GResult A) : bool :=
  match r with inr _ => true | inl _ => false end.

Module GLib.

(** *** Characters and strings *)

Definition byte (c : ascii) : Z := Z.of_N (N_of_ascii c).

Definition g_ascii_isspace (c : ascii) : bool :=
  let b := byte c in
  (b =? 32) || (b =? 9) || (b =? 10) || (b =? 13) || (b =? 12) || (b =? 11).

Definition g_ascii_isdigit (c : ascii) : bool :=
  (48 <=? byte c) && (byte c <=? 57).

Fixpoint g_str_has_prefix (s prefix : string) {struct prefix} : bool :=
  match prefix with
  | "" => true
  | String b prefix' =>
      match s with
      | String a s' => Ascii.eqb a b && g_str_has_prefix s' prefix'
      | "" => false
      end
  end.

#[global] Arguments g_str_has_prefix : simpl never.

(** [tp_strdiff]: true when the two nullable strings differ. *)
Definition tp_strdiff (a b : option string) : bool := negb (bool_decide (a = b)).

Definition tp_str_empty (s : option string) : bool :=
  match s with None => true | Some s => bool_decide (s = "") end.

Fixpoint string_take (n : nat) (s : string) : string :=
  match n, s with
  | S n, String c r => String c (string_take n r)
  | _, _ => ""
  end.

Fixpoint string_drop (n : nat) (s : string) : string :=
  match n, s with
  | S n, String _ r => string_drop n r
  | _, _ => s
  end.

(** *** Decimal output of [printf] *)

Definition digit_char (d : Z) : ascii := ascii_of_N (Z.to_N (48 + d)).

(** The decimal digits of [n], most significant first; [fuel] bounds the
    number of digits. *)
Fixpoint utoa (fuel : nat) (n : Z) : string :=
  match fuel with
  | O => ""
  | S f =>
      if n <? 10 then String (digit_char n) ""
      else utoa f (n / 10) +:+ String (digit_char (n mod 10)) ""
  end.

(** ["%u"] and ["%" G_GUINT64_FORMAT]: an unsigned value below 2^64 has at
    most twenty digits. *)
Definition printf_u (n : Z) : string := utoa 20 n.

(** ["%d"] and ["%" G_GINT64_FORMAT]. *)
Definition printf_d (n : Z) : string :=
  if n <? 0 then String "-"%char (utoa 20 (- n)) else utoa 20 n.

(** *** [strtol], [g_ascii_strtoll], [g_ascii_strtoull] in base 10 *)

Definition G_MAXUINT64 : Z := 2 ^ 64 - 1.
Definition G_MAXINT64 : Z := 2 ^ 63 - 1.
Definition G_MININT64 : Z := - 2 ^ 63.
Definition G_MAXUINT32 : Z := 2 ^ 32 - 1.
Definition G_MAXINT : Z := 2 ^ 31 - 1.
Definition G_MININT : Z := - 2 ^ 31.

Fixpoint skip_space (s : string) : string :=
  match s with
  | String c r => if g_ascii_isspace c then skip_space r else s
  | "" => ""
  end.

(** The digit loop: the value read so far and the first character that is
    not a digit.  The accumulator is unbounded; the callers compare it
    with the cutoff, which is what the C loop does digit by digit. *)
Fixpoint parse_digits (s : string) (acc : Z) : Z * string :=
  match s with
  | String c r =>
      if g_ascii_isdigit c then parse_digits r (acc * 10 + (byte c - 48))
      else (acc, s)
  | "" => (acc, "")
  end.

Record strto := {
  st_negative : bool;   (* a leading '-' was read *)
  st_magnitude : Z;     (* the digits read *)
  st_end : string;      (* what [*endptr] points to *)
}.

(** [g_parse_long_long] (and the same steps of [strtol]): white space, an
    optional sign, digits.  When no digit is read, [*endptr] is the start
    of the input and the value is 0. *)
Definition parse_long_long (nptr : string) : strto :=
  let s := skip_space nptr in
  let '(negative, s1) :=
    match s with
    | String c r =>
        if Ascii.eqb c "-" then (true, r)
        else if Ascii.eqb c "+" then (false, r)
        else (false, s)
    | "" => (false, s)
    end in
  let '(v, rest) := parse_digits s1 0 in
  if bool_decide (rest = s1)
  then {| st_negative := false; st_magnitude := 0; st_end := nptr |}
  else {| st_negative := negative; st_magnitude := v; st_end := rest |}.

(** The value, [*endptr] and whether [errno] is [ERANGE]. *)
Definition g_ascii_strtoull (nptr : string) : Z * string * bool :=
  let r := parse_long_long nptr in
  if G_MAXUINT64 <? st_magnitude r then (G_MAXUINT64, st_end r, true)
  else if st_negative r
       then ((- st_magnitude r) mod 2 ^ 64, st_end r, false)
       else (st_magnitude r, st_end r, false).

Definition g_ascii_strtoll (nptr : string) : Z * string * bool :=
  let r := parse_long_long nptr in
  if st_negative r && (2 ^ 63 <? st_magnitude r) then (G_MININT64, st_end r, true)
  else if negb (st_negative r) && (G_MAXINT64 <? st_magnitude r)
       then (G_MAXINT64, st_end r, true)
  else if st_negative r then (- st_magnitude r, st_end r, false)
  else (st_magnitude r, st_end r, false).

(** [strtol] with a 64-bit [long]. *)
Definition strtol (nptr : string) : Z * string * bool := g_ascii_strtoll nptr.

(** *** [g_utf8_validate] *)

Definition UNICODE_VALID (ch : Z) : bool :=
  (ch <? 0x110000) && negb (Z.land ch 0xFFFFF800 =? 0xD800).

(** [VALIDATE_BYTE (0xc0, 0x80)]: the byte is a continuation byte. *)
Definition continuation_byte (c : ascii) : bool := Z.land (byte c) 0xc0 =? 0x80.

(** The accumulation of [VALIDATE_BYTE]: the value shifted by six bits,
    then the low six bits of the byte. *)
Definition push_continuation (val : Z) (c : ascii) : Z :=
  Z.lor (Z.shiftl val 6) (Z.land (byte c) 0x3f).

(** [g_utf8_validate (str, -1, NULL)] on the content of a C string.  A C
    string ends at its first NUL, so a NUL inside the content is not a
    string of the program; the model answers [false] for it. *)
Fixpoint g_utf8_validate (s : string) : bool :=
  match s with
  | "" => true
  | String c r =>
      let b := byte c in
      if b =? 0 then false
      else if b <? 128 then g_utf8_validate r
      else if Z.land b 0xe0 =? 0xc0 then
        if Z.land b 0x1e =? 0 then false
        else
          match r with
          | String c1 r1 => continuation_byte c1 && g_utf8_validate r1
          | _ => false
          end
      else if Z.land b 0xf0 =? 0xe0 then
        match r with
        | String c1 (String c2 r2) =>
            let val := push_continuation (push_continuation (Z.land b 0x0f) c1) c2 in
            continuation_byte c1 && continuation_byte c2
            && (Z.shiftl 1 11 <=? val) && UNICODE_VALID val
            && g_utf8_validate r2
        | _ => false
        end
      else if Z.land b 0xf8 =? 0xf0 then
        match r with
        | String c1 (String c2 (String c3 r3)) =>
            let val :=
              push_continuation
                (push_continuation (push_continuation (Z.land b 0x07) c1) c2) c3 in
            continuation_byte c1 && continuation_byte c2 && continuation_byte c3
            && (Z.shiftl 1 16 <=? val) && UNICODE_VALID val
            && g_utf8_validate r3
        | _ => false
        end
      else false
  end.

(** *** The escaping of [GKeyFile] values *)

(** [g_key_file_parse_string_as_value]: from a string to the text stored
    in the key file.  [parsing_leading_space] is the flag of the C loop,
    [TRUE] on entry. *)
Fixpoint parse_string_as_value_from (list_separator : ascii) (escape_separator : bool)
    (parsing_leading_space : bool) (p : string) : string :=
  match p with
  | "" => ""
  | String c r =>
      let continue := parse_string_as_value_from list_separator escape_separator in
      if Ascii.eqb c " " then
        if parsing_leading_space then "\s" +:+ continue parsing_leading_space r
        else String c (continue parsing_leading_space r)
      else if Ascii.eqb c "009" then
        if parsing_leading_space then "\t" +:+ continue parsing_leading_space r
        else String c (continue parsing_leading_space r)
      else if Ascii.eqb c "010" then "\n" +:+ continue parsing_leading_space r
      else if Ascii.eqb c "013" then "\r" +:+ continue parsing_leading_space r
      else if Ascii.eqb c "\" then "\\" +:+ continue false r
      else if escape_separator && Ascii.eqb c list_separator then
        String "\" (String list_separator (continue true r))
      else String c (continue false r)
  end.

Definition g_key_file_parse_string_as_value (list_separator : ascii) (s : string)
    (escape_separator : bool) : string :=
  parse_string_as_value_from list_separator escape_separator true s.

(** The character an escape sequence stands for. *)
Definition escape_sequence (c : ascii) : option ascii :=
  if Ascii.eqb c "s" then Some " "%char
  else if Ascii.eqb c "n" then Some "010"%char
  else if Ascii.eqb c "t" then Some "009"%char
  else if Ascii.eqb c "r" then Some "013"%char
  else if Ascii.eqb c "\" then Some "\"%char
  else None.

Definition string_snoc (s : string) (c : ascii) : string := s +:+ String c "".

(** [g_key_file_parse_value_as_string]: from the stored text back to a
    string and, when [pieces] is asked for, to the list elements.  [whole]
    is the text written to [string_value] so far, [cur] the text between
    [q0] and [q], [found] the pieces in the order of [g_slist_prepend].

    The C loop goes on after an invalid escape sequence with the error
    set, and both callers return [NULL] when the error is set; the model
    returns the error at once. *)
Fixpoint parse_value_as_string_from (list_separator : ascii) (pieces : bool)
    (p : string) (whole cur : string) (found : list string)
    : GResult (string * list string) :=
  match p with
  | "" =>
      Ok (whole,
          if pieces
          then rev (if bool_decide (cur = "") then found else cur :: found)
          else [])
  | String c r =>
      if Ascii.eqb c "\" then
        match r with
        | "" =>
            Err G_KEY_FILE_ERROR_INVALID_VALUE
              "Key file contains escape character at end of line"
        | String e r' =>
            match escape_sequence e with
            | Some d =>
                parse_value_as_string_from list_separator pieces r'
                  (string_snoc whole d) (string_snoc cur d) found
            | None =>
                if pieces && Ascii.eqb e list_separator then
                  parse_value_as_string_from list_separator pieces r'
                    (string_snoc whole e) (string_snoc cur e) found
                else
                  Err G_KEY_FILE_ERROR_INVALID_VALUE
                    ("Key file contains invalid escape sequence '"
                       +:+ String "\" (String e "'"))
            end
        end
      else if pieces && Ascii.eqb c list_separator then
        parse_value_as_string_from list_separator pieces r
          (string_snoc whole c) "" (cur :: found)
      else
        parse_value_as_string_from list_separator pieces r
          (string_snoc whole c) (string_snoc cur c) found
  end.

Definition g_key_file_parse_value_as_string (list_separator : ascii) (value : string)
    (pieces : bool) : GResult (string * list string) :=
  parse_value_as_string_from list_separator pieces value "" "" [].

(** *** [GKeyFile] *)

(** A key file, as far as the storage code uses it: the raw value of each
    (group, key), and the list separator, [';'] after [g_key_file_new]. *)
Abbreviation GKeyFile := (gmap (string * string) string).

Definition g_key_file_new : GKeyFile := ∅.

Definition list_separator : ascii := ";"%char.

Definition g_key_file_set_value (kf : GKeyFile) (group key value : string) : GKeyFile :=
  <[(group, key) := value]> kf.

Definition g_key_file_get_value (kf : GKeyFile) (group key : string) : GResult string :=
  match kf !! (group, key) with
  | Some v => Ok v
  | None => Err G_KEY_FILE_ERROR_KEY_NOT_FOUND "Key file does not have key"
  end.

Definition g_key_file_remove_key (kf : GKeyFile) (group key : string) : GKeyFile :=
  delete (group, key) kf.

Definition g_key_file_set_string (kf : GKeyFile) (group key s : string) : GKeyFile :=
  g_key_file_set_value kf group key
    (g_key_file_parse_string_as_value list_separator s false).

Definition g_key_file_get_string (kf : GKeyFile) (group key : string) : GResult string :=
  match g_key_file_get_value kf group key with
  | inl e => inl e
  | inr value =>
      if negb (g_utf8_validate value) then
        Err G_KEY_FILE_ERROR_UNKNOWN_ENCODING "Key file contains a value which is not UTF-8"
      else
        match g_key_file_parse_value_as_string list_separator value false with
        | inl e => inl e
        | inr (string_value, _) => Ok string_value
        end
  end.

(** [g_key_file_set_string_list]: every element escaped and followed by
    the separator. *)
Fixpoint string_list_value (l : list string) : string :=
  match l with
  | [] => ""
  | s :: l' =>
      g_key_file_parse_string_as_value list_separator s true
        +:+ String list_separator (string_list_value l')
  end.

Definition g_key_file_set_string_list (kf : GKeyFile) (group key : string)
    (l : list string) : GKeyFile :=
  g_key_file_set_value kf group key (string_list_value l).

Definition g_key_file_get_string_list (kf : GKeyFile) (group key : string)
    : GResult (list string) :=
  match g_key_file_get_value kf group key with
  | inl e => inl e
  | inr value =>
      if negb (g_utf8_validate value) then
        Err G_KEY_FILE_ERROR_UNKNOWN_ENCODING "Key file contains a value which is not UTF-8"
      else
        match g_key_file_parse_value_as_string list_separator value true with
        | inl e => inl e
        | inr (_, values) => Ok values
        end
  end.

Definition g_key_file_set_boolean (kf : GKeyFile) (group key : string) (b : bool)
    : GKeyFile :=
  g_key_file_set_value kf group key (if b then "true" else "false").

(** The length of [value] without its trailing white space. *)
Fixpoint rstrip (s : string) : string :=
  match s with
  | "" => ""
  | String c r =>
      match rstrip r with
      | "" => if g_ascii_isspace c then "" else String c ""
      | r' => String c r'
      end
  end.

Definition g_key_file_parse_value_as_boolean (value : string) : GResult bool :=
  let v := rstrip value in
  if bool_decide (v = "true") || bool_decide (v = "1") then Ok true
  else if bool_decide (v = "false") || bool_decide (v = "0") then Ok false
  else Err G_KEY_FILE_ERROR_INVALID_VALUE "Value cannot be interpreted as a boolean.".

Definition g_key_file_get_boolean (kf : GKeyFile) (group key : string) : GResult bool :=
  match g_key_file_get_value kf group key with
  | inl e => inl e
  | inr value => g_key_file_parse_value_as_boolean value
  end.

Definition string_head (s : string) : option ascii :=
  match s with String c _ => Some c | "" => None end.

(** [g_key_file_parse_value_as_integer]: [strtol], then the checks on
    [*eof_int] and on the range of [gint]. *)
Definition g_key_file_parse_value_as_integer (value : string) : GResult Z :=
  let '(long_value, eof_int, erange) := strtol value in
  if bool_decide (value = "")
     || match string_head eof_int with
        | Some c => negb (g_ascii_isspace c)
        | None => false
        end
  then Err G_KEY_FILE_ERROR_INVALID_VALUE "Value cannot be interpreted as a number."
  else if negb ((G_MININT <=? long_value) && (long_value <=? G_MAXINT)) || erange
  then Err G_KEY_FILE_ERROR_INVALID_VALUE "Integer value out of range"
  else Ok long_value.

Definition g_key_file_get_integer (kf : GKeyFile) (group key : string) : GResult Z :=
  match g_key_file_get_value kf group key with
  | inl e => inl e
  | inr value => g_key_file_parse_value_as_integer value
  end.

Definition g_key_file_get_int64 (kf : GKeyFile) (group key : string) : GResult Z :=
  match g_key_file_get_value kf group key with
  | inl e => inl e
  | inr s =>
      let '(v, end_, _) := g_ascii_strtoll s in
      if bool_decide (s = "") || negb (bool_decide (end_ = ""))
      then Err G_KEY_FILE_ERROR_INVALID_VALUE "Key has a value where int64 was expected"
      else Ok v
  end.

Definition g_key_file_get_uint64 (kf : GKeyFile) (group key : string) : GResult Z :=
  match g_key_file_get_value kf group key with
  | inl e => inl e
  | inr s =>
      let '(v, end_, _) := g_ascii_strtoull s in
      if bool_decide (s = "") || negb (bool_decide (end_ = ""))
      then Err G_KEY_FILE_ERROR_INVALID_VALUE "Key has a value where uint64 was expected"
      else Ok v
  end.

(** *** [GList] *)

(** [g_list_insert_sorted]: the list is walked while [func (data, elem)]
    is positive, and [data] is linked in before the first element that
    compares as not smaller, so before its equals. *)
Fixpoint g_list_insert_sorted {A} (l : list A) (data : A) (func : A → A → Z) : list A :=
  match l with
  | [] => [data]
  | x :: l' =>
      if 0 <? func data x then x :: g_list_insert_sorted l' data func
      else data :: l
  end.

(** *** Loops over a counter *)

(** [for (i = start; i < start + count; i++) if (found (i)) return i;]:
    the first counter of the range for which [found] holds.  The range is
    walked in order, by halves of [count], so that the walk stops at the
    first hit. *)
Fixpoint for_first (found : Z → bool) (count : positive) (start : Z) : option Z :=
  match count with
  | xH => if found start then Some start else None
  | xO half =>
      match for_first found half start with
      | Some i => Some i
      | None => for_first found half (start + Zpos half)
      end
  | xI half =>
      match for_first found half start with
      | Some i => Some i
      | None =>
          match for_first found half (start + Zpos half) with
          | Some i => Some i
          | None =>
              if found (start + Zpos (xO half)) then Some (start + Zpos (xO half))
              else None
          end
      end
  end.

Definition G_MAXUINT : positive := 4294967295.

(** *** Identifiers *)

Definition hex_digit (d : Z) : ascii :=
  if d <? 10 then digit_char d else ascii_of_N (Z.to_N (87 + d)).

(** ["%02x"] of a byte. *)
Definition printf_02x (b : Z) : string :=
  String (hex_digit (b / 16)) (String (hex_digit (b mod 16)) "").

(** [_esc_ident_bad] of telepathy-glib: anything but a letter, or a digit
    that is not the first character. *)
Definition esc_ident_bad (c : ascii) (is_first : bool) : bool :=
  let b := byte c in
  ((b <? 97) || (122 <? b)) && ((b <? 65) || (90 <? b))
  && ((b <? 48) || (57 <? b) || is_first).

Fixpoint escape_as_identifier_from (is_first : bool) (name : string) : string :=
  match name with
  | "" => ""
  | String c r =>
      (if esc_ident_bad c is_first then String "_" (printf_02x (byte c))
       else String c "")
        +:+ escape_as_identifier_from false r
  end.

(** [tp_escape_as_identifier]: the empty name is ["_"], a bad character
    is ["_"] and its two hexadecimal digits, the others are copied. *)
Definition tp_escape_as_identifier (name : string) : string :=
  if bool_decide (name = "") then "_" else escape_as_identifier_from true name.

Fixpoint strchr (s : string) (c : ascii) : bool :=
  match s with
  | "" => false
  | String x r => Ascii.eqb x c || strchr r c
  end.

(** [g_strdelimit]: every character of [delimiters] replaced. *)
Fixpoint g_strdelimit (s delimiters : string) (new_delimiter : ascii) : string :=
  match s with
  | "" => ""
  | String c r =>
      String (if strchr delimiters c then new_delimiter else c)
        (g_strdelimit r delimiters new_delimiter)
  end.

End GLib.

Module Codec.
Import GLib.

(** ** Values *)

(** A [GVariant] in normal form.  The classes the codec has a case for are
    constructors; [GV_other] is a value of any other type (an array other
    than [as] and [ao], a tuple other than [(uss)], a dictionary, ...),
    given by its type string and its serialised bytes. *)
Inductive GVariant :=
| GV_boolean (b : bool)
| GV_byte (n : Z)
| GV_int16 (n : Z)
| GV_uint16 (n : Z)
| GV_int32 (n : Z)
| GV_uint32 (n : Z)
| GV_int64 (n : Z)
| GV_uint64 (n : Z)
| GV_string (s : string)
| GV_object_path (s : string)
| GV_signature (s : string)
| GV_strv (l : list string)
| GV_objv (l : list string)
| GV_uss (u : Z) (s1 s2 : string)
| GV_other (type_string : string) (serialised : string).

#[global] Instance GVariant_eq_dec : EqDecision GVariant.
Proof. solve_decision. Defined.

Inductive GVariantType :=
| G_VARIANT_TYPE_BOOLEAN
| G_VARIANT_TYPE_BYTE
| G_VARIANT_TYPE_INT16
| G_VARIANT_TYPE_UINT16
| G_VARIANT_TYPE_INT32
| G_VARIANT_TYPE_UINT32
| G_VARIANT_TYPE_INT64
| G_VARIANT_TYPE_UINT64
| G_VARIANT_TYPE_STRING
| G_VARIANT_TYPE_OBJECT_PATH
| G_VARIANT_TYPE_SIGNATURE
| G_VARIANT_TYPE_STRING_ARRAY
| G_VARIANT_TYPE_OBJECT_PATH_ARRAY
| G_VARIANT_TYPE_USS
| G_VARIANT_TYPE_OTHER (type_string : string).

#[global] Instance GVariantType_eq_dec : EqDecision GVariantType.
Proof. solve_decision. Defined.

Definition g_variant_get_type (v : GVariant) : GVariantType :=
  match v with
  | GV_boolean _ => G_VARIANT_TYPE_BOOLEAN
  | GV_byte _ => G_VARIANT_TYPE_BYTE
  | GV_int16 _ => G_VARIANT_TYPE_INT16
  | GV_uint16 _ => G_VARIANT_TYPE_UINT16
  | GV_int32 _ => G_VARIANT_TYPE_INT32
  | GV_uint32 _ => G_VARIANT_TYPE_UINT32
  | GV_int64 _ => G_VARIANT_TYPE_INT64
  | GV_uint64 _ => G_VARIANT_TYPE_UINT64
  | GV_string _ => G_VARIANT_TYPE_STRING
  | GV_object_path _ => G_VARIANT_TYPE_OBJECT_PATH
  | GV_signature _ => G_VARIANT_TYPE_SIGNATURE
  | GV_strv _ => G_VARIANT_TYPE_STRING_ARRAY
  | GV_objv _ => G_VARIANT_TYPE_OBJECT_PATH_ARRAY
  | GV_uss _ _ _ => G_VARIANT_TYPE_USS
  | GV_other t _ => G_VARIANT_TYPE_OTHER t
  end.

Definition g_variant_is_of_type (v : GVariant) (t : GVariantType) : bool :=
  bool_decide (g_variant_get_type v = t).

(** [g_variant_equal]: same type and same data. *)
Definition g_variant_equal (a b : GVariant) : bool := bool_decide (a = b).

(** Modelled from the spec: [mcd_nullable_variant_equal] ([mcd-misc.c] is
    not among the sources).  The write path compares the cached value with
    the new one, "typed comparison when both sides are typed", and a null
    value asks for a deletion: two absent values are equal, an absent and
    a present one differ, two present ones are compared with
    [g_variant_equal]. *)
Definition mcd_nullable_variant_equal (a b : option GVariant) : bool :=
  match a, b with
  | None, None => true
  | Some a, Some b => g_variant_equal a b
  | _, _ => false
  end.

(** The syntax of a D-Bus object path, as [g_variant_is_object_path] and
    [tp_dbus_check_valid_object_path] check it. *)
Definition object_path_char (c : ascii) : bool :=
  let b := byte c in
  ((48 <=? b) && (b <=? 57)) || ((65 <=? b) && (b <=? 90))
  || ((97 <=? b) && (b <=? 122)) || (b =? 95).

Fixpoint object_path_elements (s : string) (after_slash : bool) : bool :=
  match s with
  | "" => negb after_slash
  | String c r =>
      if Ascii.eqb c "/" then negb after_slash && object_path_elements r true
      else object_path_char c && object_path_elements r false
  end.

Definition g_variant_is_object_path (s : string) : bool :=
  match s with
  | String c r =>
      Ascii.eqb c "/" && (bool_decide (r = "") || object_path_elements r true)
  | "" => false
  end.

Definition tp_dbus_check_valid_object_path (s : string) : bool :=
  g_variant_is_object_path s.

(** What [g_variant_new_*] requires of its argument: numbers in the range
    of their width, strings in UTF-8, object paths well-formed. *)
Definition g_variant_is_normal_form (v : GVariant) : bool :=
  match v with
  | GV_boolean _ => true
  | GV_byte n => (0 <=? n) && (n <=? 255)
  | GV_int16 n => (- 2 ^ 15 <=? n) && (n <? 2 ^ 15)
  | GV_uint16 n => (0 <=? n) && (n <? 2 ^ 16)
  | GV_int32 n => (G_MININT <=? n) && (n <=? G_MAXINT)
  | GV_uint32 n => (0 <=? n) && (n <=? G_MAXUINT32)
  | GV_int64 n => (G_MININT64 <=? n) && (n <=? G_MAXINT64)
  | GV_uint64 n => (0 <=? n) && (n <=? G_MAXUINT64)
  | GV_string s => g_utf8_validate s
  | GV_object_path s => g_utf8_validate s && g_variant_is_object_path s
  | GV_signature s => g_utf8_validate s
  | GV_strv l => forallb g_utf8_validate l
  | GV_objv l => forallb (λ s, g_utf8_validate s && g_variant_is_object_path s) l
  | GV_uss u s1 s2 =>
      (0 <=? u) && (u <=? G_MAXUINT32) && g_utf8_validate s1 && g_utf8_validate s2
  | GV_other _ _ => true
  end.

(** ** [GValue] *)

Inductive GType :=
| G_TYPE_STRING
| G_TYPE_INT
| G_TYPE_INT64
| G_TYPE_UINT
| G_TYPE_UCHAR
| G_TYPE_UINT64
| G_TYPE_BOOLEAN
| G_TYPE_STRV
| DBUS_TYPE_G_OBJECT_PATH
| DBUS_TYPE_G_SIGNATURE
| TP_ARRAY_TYPE_OBJECT_PATH_LIST
| TP_STRUCT_TYPE_SIMPLE_PRESENCE
| G_TYPE_OTHER (type_string : string).

#[global] Instance GType_eq_dec : EqDecision GType.
Proof. solve_decision. Defined.

(** A [GValue]: its [GType] and its content.  The content is written as
    the [GVariant] that [dbus_g_value_build_g_variant] makes of it. *)
Record GValue := { G_VALUE_TYPE : GType; g_value_content : GVariant }.

#[global] Instance GValue_eq_dec : EqDecision GValue.
Proof. solve_decision. Defined.

Definition dbus_g_value_build_g_variant (value : GValue) : GVariant :=
  g_value_content value.

(** [dbus_g_value_parse_g_variant]: dbus-glib has no 16-bit [GType], the
    16-bit classes land in [G_TYPE_INT] and [G_TYPE_UINT]. *)
Definition dbus_g_value_parse_g_variant (variant : GVariant) : GValue :=
  match variant with
  | GV_boolean _ => {| G_VALUE_TYPE := G_TYPE_BOOLEAN; g_value_content := variant |}
  | GV_byte _ => {| G_VALUE_TYPE := G_TYPE_UCHAR; g_value_content := variant |}
  | GV_int16 n => {| G_VALUE_TYPE := G_TYPE_INT; g_value_content := GV_int32 n |}
  | GV_uint16 n => {| G_VALUE_TYPE := G_TYPE_UINT; g_value_content := GV_uint32 n |}
  | GV_int32 _ => {| G_VALUE_TYPE := G_TYPE_INT; g_value_content := variant |}
  | GV_uint32 _ => {| G_VALUE_TYPE := G_TYPE_UINT; g_value_content := variant |}
  | GV_int64 _ => {| G_VALUE_TYPE := G_TYPE_INT64; g_value_content := variant |}
  | GV_uint64 _ => {| G_VALUE_TYPE := G_TYPE_UINT64; g_value_content := variant |}
  | GV_string _ => {| G_VALUE_TYPE := G_TYPE_STRING; g_value_content := variant |}
  | GV_object_path _ =>
      {| G_VALUE_TYPE := DBUS_TYPE_G_OBJECT_PATH; g_value_content := variant |}
  | GV_signature _ =>
      {| G_VALUE_TYPE := DBUS_TYPE_G_SIGNATURE; g_value_content := variant |}
  | GV_strv _ => {| G_VALUE_TYPE := G_TYPE_STRV; g_value_content := variant |}
  | GV_objv _ =>
      {| G_VALUE_TYPE := TP_ARRAY_TYPE_OBJECT_PATH_LIST; g_value_content := variant |}
  | GV_uss _ _ _ =>
      {| G_VALUE_TYPE := TP_STRUCT_TYPE_SIMPLE_PRESENCE; g_value_content := variant |}
  | GV_other t _ => {| G_VALUE_TYPE := G_TYPE_OTHER t; g_value_content := variant |}
  end.

(** [g_value_init]: the zero of the type. *)
Definition g_value_init (t : GType) : GValue :=
  {| G_VALUE_TYPE := t;
     g_value_content :=
       match t with
       | G_TYPE_STRING => GV_string ""
       | G_TYPE_INT => GV_int32 0
       | G_TYPE_INT64 => GV_int64 0
       | G_TYPE_UINT => GV_uint32 0
       | G_TYPE_UCHAR => GV_byte 0
       | G_TYPE_UINT64 => GV_uint64 0
       | G_TYPE_BOOLEAN => GV_boolean false
       | G_TYPE_STRV => GV_strv []
       | DBUS_TYPE_G_OBJECT_PATH => GV_object_path "/"
       | DBUS_TYPE_G_SIGNATURE => GV_signature ""
       | TP_ARRAY_TYPE_OBJECT_PATH_LIST => GV_objv []
       | TP_STRUCT_TYPE_SIMPLE_PRESENCE => GV_uss 0 "" ""
       | G_TYPE_OTHER t => GV_other t ""
       end |}.

(** ** Escaping: [mcd_keyfile_set_variant] *)

(** The new key file and whether its raw value changed.  The branches
    that log "Unexpected ... type" return [FALSE] with the key file as it
    was. *)
Definition mcd_keyfile_set_variant (keyfile : GKeyFile) (name key : string)
    (value : option GVariant) : GKeyFile * bool :=
  match value with
  | None =>
      let old := g_key_file_get_value keyfile name key in
      (g_key_file_remove_key keyfile name key, is_ok old)
  | Some value =>
      let old := keyfile !! (name, key) in
      let finish (kf : GKeyFile) (buf : option string) : GKeyFile * bool :=
        let kf := match buf with
                  | Some buf => g_key_file_set_string kf name key buf
                  | None => kf
                  end in
        (kf, tp_strdiff old (kf !! (name, key))) in
      match value with
      | GV_string s | GV_object_path s | GV_signature s =>
          finish (g_key_file_set_string keyfile name key s) None
      | GV_uint16 n => finish keyfile (Some (printf_u n))
      | GV_uint32 n => finish keyfile (Some (printf_u n))
      | GV_int16 n => finish keyfile (Some (printf_d n))
      | GV_int32 n => finish keyfile (Some (printf_d n))
      | GV_boolean b => finish (g_key_file_set_boolean keyfile name key b) None
      | GV_byte n => finish keyfile (Some (printf_u n))
      | GV_uint64 n => finish keyfile (Some (printf_u n))
      | GV_int64 n => finish keyfile (Some (printf_d n))
      | GV_strv strings =>
          finish (g_key_file_set_string_list keyfile name key strings) None
      | GV_objv strings =>
          finish (g_key_file_set_string_list keyfile name key strings) None
      | GV_uss type s1 s2 =>
          finish (g_key_file_set_string_list keyfile name key [printf_u type; s1; s2])
            None
      | GV_other _ _ => (keyfile, false)
      end
  end.

(** [mcd_keyfile_escape_variant]: [NULL] when nothing was stored. *)
Definition mcd_keyfile_escape_variant (variant : GVariant) : option string :=
  let keyfile := fst (mcd_keyfile_set_variant g_key_file_new "g" "k" (Some variant)) in
  match g_key_file_get_value keyfile "g" "k" with
  | inr ret => Some ret
  | inl _ => None
  end.

Definition mcd_keyfile_escape_value (value : GValue) : option string :=
  mcd_keyfile_escape_variant (dbus_g_value_build_g_variant value).

Definition mcd_keyfile_set_value (keyfile : GKeyFile) (name key : string)
    (value : option GValue) : GKeyFile * bool :=
  match value with
  | None => mcd_keyfile_set_variant keyfile name key None
  | Some value =>
      mcd_keyfile_set_variant keyfile name key (Some (dbus_g_value_build_g_variant value))
  end.

(** ** Decoding: [mcd_keyfile_get_variant] *)

Definition unknown_type_message (group key type_name : string) : string :=
  "cannot get key " +:+ key +:+ " from group " +:+ group
    +:+ ": unknown type " +:+ type_name.

Definition mcd_keyfile_get_variant (keyfile : GKeyFile) (group key : string)
    (type : GVariantType) : GResult GVariant :=
  match type with
  | G_VARIANT_TYPE_STRING =>
      match g_key_file_get_string keyfile group key with
      | inr v_string => Ok (GV_string v_string)
      | inl e => inl e
      end
  | G_VARIANT_TYPE_INT32 =>
      match g_key_file_get_integer keyfile group key with
      | inr v_int => Ok (GV_int32 v_int)
      | inl e => inl e
      end
  | G_VARIANT_TYPE_INT64 =>
      match g_key_file_get_int64 keyfile group key with
      | inr v_int => Ok (GV_int64 v_int)
      | inl e => inl e
      end
  | G_VARIANT_TYPE_UINT32 =>
      match g_key_file_get_uint64 keyfile group key with
      | inl e => inl e
      | inr v_uint =>
          if G_MAXUINT32 <? v_uint then
            Err MCD_ACCOUNT_ERROR_GET_PARAMETER
              ("Parameter '" +:+ key
                 +:+ "' out of range for an unsigned 32-bit integer: "
                 +:+ printf_u v_uint)
          else Ok (GV_uint32 v_uint)
      end
  | G_VARIANT_TYPE_BYTE =>
      match g_key_file_get_integer keyfile group key with
      | inl e => inl e
      | inr v_int =>
          if (v_int <? 0) || (0xFF <? v_int) then
            Err MCD_ACCOUNT_ERROR_GET_PARAMETER
              ("Parameter '" +:+ key +:+ "' out of range for an unsigned byte: "
                 +:+ printf_d v_int)
          else Ok (GV_byte v_int)
      end
  | G_VARIANT_TYPE_UINT64 =>
      match g_key_file_get_uint64 keyfile group key with
      | inr v_uint => Ok (GV_uint64 v_uint)
      | inl e => inl e
      end
  | G_VARIANT_TYPE_BOOLEAN =>
      match g_key_file_get_boolean keyfile group key with
      | inr v_bool => Ok (GV_boolean v_bool)
      | inl e => inl e
      end
  | G_VARIANT_TYPE_STRING_ARRAY =>
      match g_key_file_get_string_list keyfile group key with
      | inr v => Ok (GV_strv v)
      | inl e => inl e
      end
  | G_VARIANT_TYPE_OBJECT_PATH =>
      match g_key_file_get_string keyfile group key with
      | inl e => inl e
      | inr v_string =>
          if negb (tp_dbus_check_valid_object_path v_string) then
            Err MCD_ACCOUNT_ERROR_GET_PARAMETER ("Invalid object path " +:+ v_string)
          else Ok (GV_object_path v_string)
      end
  | G_VARIANT_TYPE_OBJECT_PATH_ARRAY =>
      match g_key_file_get_string_list keyfile group key with
      | inl e => inl e
      | inr v =>
          match List.find (λ s, negb (g_variant_is_object_path s)) v with
          | Some bad =>
              (* [v = NULL], then [g_variant_new_objv (NULL, -1)] gives [NULL] *)
              Err MCD_ACCOUNT_ERROR_GET_PARAMETER
                ("Invalid object path " +:+ bad +:+ " stored in keyfile")
          | None => Ok (GV_objv v)
          end
      end
  | G_VARIANT_TYPE_USS =>
      match g_key_file_get_string_list keyfile group key with
      | inl e => inl e
      | inr [v0; v1; v2] =>
          let '(u, endptr, errno) := g_ascii_strtoull v0 in
          if errno || negb (bool_decide (endptr = "")) || (G_MAXUINT32 <? u) then
            Err TP_ERROR_NOT_AVAILABLE
              ("Invalid presence type stored in keyfile: " +:+ v0)
          else Ok (GV_uss u v1 v2)
      | inr _ =>
          Err TP_ERROR_NOT_AVAILABLE
            "Invalid simple-presence structure stored in keyfile"
      end
  | G_VARIANT_TYPE_INT16 =>
      Err MCD_ACCOUNT_ERROR_GET_PARAMETER (unknown_type_message group key "n")
  | G_VARIANT_TYPE_UINT16 =>
      Err MCD_ACCOUNT_ERROR_GET_PARAMETER (unknown_type_message group key "q")
  | G_VARIANT_TYPE_SIGNATURE =>
      Err MCD_ACCOUNT_ERROR_GET_PARAMETER (unknown_type_message group key "g")
  | G_VARIANT_TYPE_OTHER t =>
      Err MCD_ACCOUNT_ERROR_GET_PARAMETER (unknown_type_message group key t)
  end.

(** The type name of [g_type_name] in the message of an unknown type. *)
Definition g_type_name (t : GType) : string :=
  match t with
  | DBUS_TYPE_G_SIGNATURE => "DBusGSignature"
  | G_TYPE_OTHER t => t
  | _ => ""
  end.

(** [mcd_keyfile_get_value]: [TRUE] and the value read, or [FALSE], the
    value as it was and the error. *)
Definition mcd_keyfile_get_value (keyfile : GKeyFile) (group key : string)
    (value : GValue) : bool * GValue * option GError :=
  let variant :=
    match G_VALUE_TYPE value with
    | G_TYPE_STRING => mcd_keyfile_get_variant keyfile group key G_VARIANT_TYPE_STRING
    | G_TYPE_INT => mcd_keyfile_get_variant keyfile group key G_VARIANT_TYPE_INT32
    | G_TYPE_INT64 => mcd_keyfile_get_variant keyfile group key G_VARIANT_TYPE_INT64
    | G_TYPE_UINT => mcd_keyfile_get_variant keyfile group key G_VARIANT_TYPE_UINT32
    | G_TYPE_UCHAR => mcd_keyfile_get_variant keyfile group key G_VARIANT_TYPE_BYTE
    | G_TYPE_UINT64 => mcd_keyfile_get_variant keyfile group key G_VARIANT_TYPE_UINT64
    | G_TYPE_BOOLEAN => mcd_keyfile_get_variant keyfile group key G_VARIANT_TYPE_BOOLEAN
    | G_TYPE_STRV =>
        mcd_keyfile_get_variant keyfile group key G_VARIANT_TYPE_STRING_ARRAY
    | DBUS_TYPE_G_OBJECT_PATH =>
        mcd_keyfile_get_variant keyfile group key G_VARIANT_TYPE_OBJECT_PATH
    | TP_ARRAY_TYPE_OBJECT_PATH_LIST =>
        mcd_keyfile_get_variant keyfile group key G_VARIANT_TYPE_OBJECT_PATH_ARRAY
    | TP_STRUCT_TYPE_SIMPLE_PRESENCE =>
        mcd_keyfile_get_variant keyfile group key G_VARIANT_TYPE_USS
    | t =>
        Err MCD_ACCOUNT_ERROR_GET_PARAMETER
          (unknown_type_message group key (g_type_name t))
    end in
  match variant with
  | inl e => (false, value, Some e)
  | inr variant => (true, dbus_g_value_parse_g_variant variant, None)
  end.

(** [mcd_keyfile_unescape_value]; an absent [escaped] fails the
    [g_return_val_if_fail] and leaves no error. *)
Definition mcd_keyfile_unescape_value (escaped : option string) (value : GValue)
    : bool * GValue * option GError :=
  match escaped with
  | None => (false, value, None)
  | Some escaped =>
      mcd_keyfile_get_value (g_key_file_set_value g_key_file_new "g" "k" escaped)
        "g" "k" value
  end.

(** [mcd_storage_coerce_variant_to_value]: the value itself when it has
    the type asked for, else its escaped text read at that type. *)
Definition mcd_storage_coerce_variant_to_value (variant : GVariant) (value : GValue)
    : bool * GValue * option GError :=
  let tmp := dbus_g_value_parse_g_variant variant in
  if bool_decide (G_VALUE_TYPE tmp = G_VALUE_TYPE value) then (true, tmp, None)
  else mcd_keyfile_unescape_value (mcd_keyfile_escape_variant variant) value.

End Codec.

Module Storage.
Import GLib Codec.

(** ** Plugins *)

(** The calls a plugin makes back into the account manager while it
    answers [get]: the functions [plugin_iface_init] installs. *)
Inductive WriteBack :=
| WB_set_value (account key : string) (value : option string)
| WB_set_attribute (account attribute : string) (value : option GVariant)
| WB_set_parameter (account parameter : string) (value : option GVariant).

(** A storage plugin, as the storage code sees it through the
    [mcp_account_storage_*] calls: what each call answers.  [create] is
    given the account names of the cache, which is what a plugin reads
    through the manager to pick a name; it answers with the name it
    returns, if any, and with the error it leaves in [*error], if any:
    nothing in the call keeps a plugin from returning [NULL] and no
    error, or a name and an error. *)
Record McpAccountStorage := {
  mcp_account_storage_name : string;
  mcp_account_storage_priority : Z;
  mcp_account_storage_provider : string;
  mcp_account_storage_list : list string;
  mcp_account_storage_get : string → list WriteBack;
  mcp_account_storage_create :
    gset string → string → string → string → option string * option GError;
  mcp_account_storage_set_attribute : string → string → GVariant → bool;
  mcp_account_storage_set_parameter : string → string → GVariant → bool;
  mcp_account_storage_set : string → string → string → bool;
}.

(** What the storage code does to the outside: the plugin calls with
    their answers, and the messages of GLib.  [G_CRITICAL] is a failed
    [g_return_if_fail]: the message is logged and the function returns. *)
Inductive Event :=
| MCP_list (plugin : string)
| MCP_get (plugin account : string)
| MCP_create (plugin : string) (created : option string)
| MCP_delete (plugin account : string) (key : option string)
| MCP_set_attribute (plugin account attribute : string) (value : GVariant) (done : bool)
| MCP_set_parameter (plugin account parameter : string) (value : GVariant) (done : bool)
| MCP_set (plugin account key escaped : string) (done : bool)
| G_CRITICAL (check : string)
| G_WARNING (message : string).

Definition is_critical (e : Event) : bool :=
  match e with G_CRITICAL _ => true | _ => false end.

(** ** The cache *)

Record McdStorageAccount := {
  attributes : gmap string GVariant;
  parameters : gmap string GVariant;
  escaped_parameters : gmap string string;
  storage : McpAccountStorage;
}.

Definition mcd_storage_account_new (storage : McpAccountStorage) : McdStorageAccount :=
  {| attributes := ∅; parameters := ∅; escaped_parameters := ∅; storage := storage |}.

Record McdStorage := { accounts : gmap string McdStorageAccount }.

Definition mcd_storage_init : McdStorage := {| accounts := ∅ |}.

Definition lookup_account (self : McdStorage) (account : string)
    : option McdStorageAccount :=
  accounts self !! account.

(** The record of [account] replaced in place: the hash tables of a
    record are updated through the pointer the lookup returned. *)
Definition store_account (self : McdStorage) (account : string)
    (sa : McdStorageAccount) : McdStorage :=
  {| accounts := <[account := sa]> (accounts self) |}.

Definition DBUS_MAXIMUM_NAME_LENGTH : nat := 255.

Definition MAX_KEY_LENGTH : nat := (DBUS_MAXIMUM_NAME_LENGTH + 6)%nat.

(** ** The schema of attributes *)

(** The names behind the [MC_ACCOUNTS_KEY_*] macros come from
    [mcd-account-config.h]; the table is written over them. *)
Inductive AccountsKey :=
| MC_ACCOUNTS_KEY_AUTOMATIC_PRESENCE
| MC_ACCOUNTS_KEY_SUPERSEDES
| MC_ACCOUNTS_KEY_URI_SCHEMES
| MC_ACCOUNTS_KEY_ALWAYS_DISPATCH
| MC_ACCOUNTS_KEY_CONNECT_AUTOMATICALLY
| MC_ACCOUNTS_KEY_ENABLED
| MC_ACCOUNTS_KEY_HAS_BEEN_ONLINE
| MC_ACCOUNTS_KEY_AUTO_PRESENCE_MESSAGE
| MC_ACCOUNTS_KEY_AUTO_PRESENCE_STATUS
| MC_ACCOUNTS_KEY_AVATAR_MIME
| MC_ACCOUNTS_KEY_AVATAR_TOKEN
| MC_ACCOUNTS_KEY_DISPLAY_NAME
| MC_ACCOUNTS_KEY_ICON
| MC_ACCOUNTS_KEY_MANAGER
| MC_ACCOUNTS_KEY_NICKNAME
| MC_ACCOUNTS_KEY_NORMALIZED_NAME
| MC_ACCOUNTS_KEY_PROTOCOL
| MC_ACCOUNTS_KEY_SERVICE
| MC_ACCOUNTS_KEY_AUTO_PRESENCE_TYPE.

Section Schema.

Variable key_name : AccountsKey → string.

Definition known_attributes : list (string * string) :=
  [ ("(uss)", key_name MC_ACCOUNTS_KEY_AUTOMATIC_PRESENCE);
    ("ao", key_name MC_ACCOUNTS_KEY_SUPERSEDES);
    ("as", key_name MC_ACCOUNTS_KEY_URI_SCHEMES);
    ("b", key_name MC_ACCOUNTS_KEY_ALWAYS_DISPATCH);
    ("b", key_name MC_ACCOUNTS_KEY_CONNECT_AUTOMATICALLY);
    ("b", key_name MC_ACCOUNTS_KEY_ENABLED);
    ("b", key_name MC_ACCOUNTS_KEY_HAS_BEEN_ONLINE);
    ("s", key_name MC_ACCOUNTS_KEY_AUTO_PRESENCE_MESSAGE);
    ("s", key_name MC_ACCOUNTS_KEY_AUTO_PRESENCE_STATUS);
    ("s", key_name MC_ACCOUNTS_KEY_AVATAR_MIME);
    ("s", key_name MC_ACCOUNTS_KEY_AVATAR_TOKEN);
    ("s", key_name MC_ACCOUNTS_KEY_DISPLAY_NAME);
    ("s", key_name MC_ACCOUNTS_KEY_ICON);
    ("s", key_name MC_ACCOUNTS_KEY_MANAGER);
    ("s", key_name MC_ACCOUNTS_KEY_NICKNAME);
    ("s", key_name MC_ACCOUNTS_KEY_NORMALIZED_NAME);
    ("s", key_name MC_ACCOUNTS_KEY_PROTOCOL);
    ("s", key_name MC_ACCOUNTS_KEY_SERVICE);
    ("u", key_name MC_ACCOUNTS_KEY_AUTO_PRESENCE_TYPE) ].

Definition mcd_storage_get_attribute_type (attribute : string) : option string :=
  fst <$> List.find (λ entry, negb (tp_strdiff (Some attribute) (Some (snd entry))))
            known_attributes.

(** [mcd_storage_init_value_for_attribute]: the [GType] the value is
    initialised to, when the attribute is known. *)
Definition mcd_storage_init_value_for_attribute (attribute : string) : option GValue :=
  match mcd_storage_get_attribute_type attribute with
  | None => None
  | Some s =>
      match s with
      | String "s" _ => Some (g_value_init G_TYPE_STRING)
      | String "b" _ => Some (g_value_init G_TYPE_BOOLEAN)
      | String "u" _ => Some (g_value_init G_TYPE_INT)
      | String "a" (String "o" _) => Some (g_value_init TP_ARRAY_TYPE_OBJECT_PATH_LIST)
      | String "a" (String "s" _) => Some (g_value_init G_TYPE_STRV)
      | String "(" _ =>
          if negb (tp_strdiff (Some s) (Some "(uss)"))
          then Some (g_value_init TP_STRUCT_TYPE_SIMPLE_PRESENCE)
          else None
      | _ => None
      end
  end.

(** ** The write-back functions of the plugin interface *)

Definition mcpa_set_attribute (self : McdStorage) (account attribute : string)
    (value : option GVariant) : McdStorage * list Event :=
  match lookup_account self account with
  | None => (self, [G_CRITICAL "sa != NULL"])
  | Some sa =>
      let attrs :=
        match value with
        | Some value => <[attribute := value]> (attributes sa)
        | None => delete attribute (attributes sa)
        end in
      (store_account self account
         {| attributes := attrs; parameters := parameters sa;
            escaped_parameters := escaped_parameters sa; storage := storage sa |},
       [])
  end.

Definition mcpa_set_parameter (self : McdStorage) (account parameter : string)
    (value : option GVariant) : McdStorage * list Event :=
  match lookup_account self account with
  | None => (self, [G_CRITICAL "sa != NULL"])
  | Some sa =>
      let params := delete parameter (parameters sa) in
      let escaped := delete parameter (escaped_parameters sa) in
      let params :=
        match value with
        | Some value => <[parameter := value]> params
        | None => params
        end in
      (store_account self account
         {| attributes := attributes sa; parameters := params;
            escaped_parameters := escaped; storage := storage sa |},
       [])
  end.

Definition set_value (self : McdStorage) (account key : string)
    (value : option string) : McdStorage * list Event :=
  match lookup_account self account with
  | None => (self, [G_CRITICAL "sa != NULL"])
  | Some sa =>
      if g_str_has_prefix key "param-" then
        let parameter := string_drop 6 key in
        let params := delete parameter (parameters sa) in
        let escaped := delete parameter (escaped_parameters sa) in
        let escaped :=
          match value with
          | Some value => <[parameter := value]> escaped
          | None => escaped
          end in
        (store_account self account
           {| attributes := attributes sa; parameters := params;
              escaped_parameters := escaped; storage := storage sa |},
         [])
      else
        match value with
        | Some value =>
            let '(tmp, warned) :=
              match mcd_storage_init_value_for_attribute key with
              | Some tmp => (tmp, [])
              | None =>
                  (g_value_init G_TYPE_STRING,
                   [G_WARNING ("Not sure what the type of '" +:+ key
                                 +:+ "' is, assuming string")])
              end in
            match mcd_keyfile_unescape_value (Some value) tmp with
            | (true, tmp, _) =>
                (store_account self account
                   {| attributes :=
                        <[key := dbus_g_value_build_g_variant tmp]> (attributes sa);
                      parameters := parameters sa;
                      escaped_parameters := escaped_parameters sa;
                      storage := storage sa |},
                 warned)
            | (false, _, _) =>
                (store_account self account
                   {| attributes := delete key (attributes sa);
                      parameters := parameters sa;
                      escaped_parameters := escaped_parameters sa;
                      storage := storage sa |},
                 warned ++ [G_WARNING ("Could not decode attribute '" +:+ key
                                         +:+ "':'" +:+ value +:+ "' from plugin")])
            end
        | None =>
            (store_account self account
               {| attributes := delete key (attributes sa);
                  parameters := parameters sa;
                  escaped_parameters := escaped_parameters sa;
                  storage := storage sa |},
             [])
        end
  end.

Definition write_back (self : McdStorage) (w : WriteBack) : McdStorage * list Event :=
  match w with
  | WB_set_value account key value => set_value self account key value
  | WB_set_attribute account attribute value =>
      mcpa_set_attribute self account attribute value
  | WB_set_parameter account parameter value =>
      mcpa_set_parameter self account parameter value
  end.

Fixpoint write_backs (self : McdStorage) (ws : list WriteBack)
    : McdStorage * list Event :=
  match ws with
  | [] => (self, [])
  | w :: ws =>
      let '(self, ev) := write_back self w in
      let '(self, evs) := write_backs self ws in
      (self, ev ++ evs)
  end.

(** ** Adding accounts *)

Definition mcd_storage_add_account_from_plugin (self : McdStorage)
    (plugin : McpAccountStorage) (account : option string)
    : McdStorage * list Event :=
  match account with
  | None => (self, [G_CRITICAL "account != NULL"])
  | Some account =>
      if bool_decide (is_Some (accounts self !! account)) then
        (self, [G_CRITICAL "!g_hash_table_contains (self->accounts, account)"])
      else
        let self := store_account self account (mcd_storage_account_new plugin) in
        (* this fills the parameters and attributes tables *)
        let '(self, evs) := write_backs self (mcp_account_storage_get plugin account) in
        (self, MCP_get (mcp_account_storage_name plugin) account :: evs)
  end.

Fixpoint add_accounts_from_plugin (self : McdStorage) (plugin : McpAccountStorage)
    (stored : list string) : McdStorage * list Event :=
  match stored with
  | [] => (self, [])
  | name :: stored =>
      let '(self, ev) := mcd_storage_add_account_from_plugin self plugin (Some name) in
      let '(self, evs) := add_accounts_from_plugin self plugin stored in
      (self, ev ++ evs)
  end.

(** The loop of [mcd_storage_load] over the plugins it is handed, in the
    order it visits them. *)
Fixpoint load_from (self : McdStorage) (visited : list McpAccountStorage)
    : McdStorage * list Event :=
  match visited with
  | [] => (self, [])
  | plugin :: visited =>
      let '(self, ev) :=
        add_accounts_from_plugin self plugin (mcp_account_storage_list plugin) in
      let '(self, evs) := load_from self visited in
      (self, MCP_list (mcp_account_storage_name plugin) :: ev ++ evs)
  end.

(** [mcd_storage_load]: from [g_list_last (stores)] back to the head. *)
Definition mcd_storage_load (self : McdStorage) (stores : list McpAccountStorage)
    : McdStorage * list Event :=
  load_from self (rev stores).

(** ** Creating accounts *)

(** The loop of [mcd_storage_create_account] when no provider is given. *)
Fixpoint create_in_priority_order (self : McdStorage) (store : list McpAccountStorage)
    (manager protocol identification : string)
    : option string * option GError * McdStorage * list Event :=
  match store with
  | [] =>
      (None,
       Some (g_error_new TP_ERROR_INVALID_ARGUMENT
               "None of the storage provider are able to create the account"),
       self, [G_WARNING "code should not be reached"])
  | plugin :: store =>
      match mcp_account_storage_create plugin (dom (accounts self))
              manager protocol identification with
      | (Some account, error) =>
          let '(self, evs) :=
            mcd_storage_add_account_from_plugin self plugin (Some account) in
          (Some account, error, self,
           MCP_create (mcp_account_storage_name plugin) (Some account) :: evs)
      | (None, _) =>
          (* g_clear_error (error) *)
          let '(account, error, self, evs) :=
            create_in_priority_order self store manager protocol identification in
          (account, error, self,
           MCP_create (mcp_account_storage_name plugin) None :: evs)
      end
  end.

Definition mcd_storage_create_account (self : McdStorage)
    (stores : list McpAccountStorage) (provider : option string)
    (manager protocol identification : string)
    : option string * option GError * McdStorage * list Event :=
  if tp_str_empty (Some manager) then
    (None, None, self, [G_CRITICAL "!tp_str_empty (manager)"])
  else if tp_str_empty (Some protocol) then
    (None, None, self, [G_CRITICAL "!tp_str_empty (protocol)"])
  else
    match provider with
    | Some provider =>
        match List.find
                (λ plugin, negb (tp_strdiff (Some (mcp_account_storage_provider plugin))
                                   (Some provider))) stores with
        | Some plugin =>
            let '(account, error) :=
              mcp_account_storage_create plugin (dom (accounts self))
                manager protocol identification in
            let '(self, evs) :=
              mcd_storage_add_account_from_plugin self plugin account in
            (account, error, self,
             MCP_create (mcp_account_storage_name plugin) account :: evs)
        | None =>
            (None,
             Some (g_error_new TP_ERROR_INVALID_ARGUMENT
                     ("Storage provider '" +:+ provider +:+ "' does not exist")),
             self, [])
        end
    | None => create_in_priority_order self stores manager protocol identification
    end.

Definition mcd_storage_delete_account (self : McdStorage) (account : string)
    : McdStorage * list Event :=
  match lookup_account self account with
  | None => (self, [G_CRITICAL "sa != NULL"])
  | Some sa =>
      ({| accounts := delete account (accounts self) |},
       [MCP_delete (mcp_account_storage_name (storage sa)) account None])
  end.

End Schema.

(** ** The plugin registry *)

(** Descending order of priority: the higher priority earlier in the list. *)
Definition account_storage_cmp (a b : McpAccountStorage) : Z :=
  let pa := mcp_account_storage_priority a in
  let pb := mcp_account_storage_priority b in
  if pb <? pa then -1
  else if pa <? pb then 1
  else 0.

Definition add_storage_plugin (stores : list McpAccountStorage)
    (plugin : McpAccountStorage) : list McpAccountStorage :=
  g_list_insert_sorted stores plugin account_storage_cmp.

(** The registry after the plugins were added one by one, the first of
    the list first. *)
Definition add_storage_plugins (stores : list McpAccountStorage)
    (plugins : list McpAccountStorage) : list McpAccountStorage :=
  fold_left add_storage_plugin plugins stores.

(** [sort_and_cache_plugins]: the compiled-in default plugin first, then
    the loaded objects in the order of [mcp_list_objects]. *)
Definition sort_and_cache_plugins (default : McpAccountStorage)
    (objects : list McpAccountStorage) : list McpAccountStorage :=
  add_storage_plugins [] (default :: objects).

(** Modelled from the spec: the built-in default backend
    ([mcd-account-manager-default.c] is not among the sources).  The spec
    says of it that it "can always create/store any account" and that it
    "always succeeds": its [create] returns a name and leaves no error,
    whatever it is asked. *)
Definition default_backend (plugin : McpAccountStorage) : Prop :=
  ∀ names manager protocol identification,
    ∃ account,
      mcp_account_storage_create plugin names manager protocol identification
      = (Some account, None).

(** ** Reading *)

(** [mcd_storage_dup_accounts]: the names are in the order of the hash
    table, which the model takes from [map_to_list]. *)
Definition mcd_storage_dup_accounts (self : McdStorage) : list string :=
  fst <$> filter (λ kv, 0 <? Z.of_nat (size (attributes (snd kv))))
            (map_to_list (accounts self)).

Definition account_does_not_exist (account : string) : GError :=
  g_error_new TP_ERROR_NOT_AVAILABLE ("Account " +:+ account +:+ " does not exist").

(** [mcd_storage_get_attribute]: [TRUE] and the value read, or [FALSE],
    the value as it was and the error.  A failed [g_return_val_if_fail]
    returns [FALSE] and sets no error. *)
Definition mcd_storage_get_attribute (self : McdStorage) (account attribute : string)
    (value : GValue) : bool * GValue * option GError :=
  if g_str_has_prefix attribute "param-" then (false, value, None)
  else
    match lookup_account self account with
    | None => (false, value, Some (account_does_not_exist account))
    | Some sa =>
        match attributes sa !! attribute with
        | None =>
            (false, value,
             Some (g_error_new TP_ERROR_NOT_AVAILABLE
                     ("Setting '" +:+ attribute +:+ "' not stored by account "
                        +:+ account)))
        | Some variant => mcd_storage_coerce_variant_to_value variant value
        end
    end.

Definition mcd_storage_get_parameter (self : McdStorage) (account parameter : string)
    (value : GValue) : bool * GValue * option GError :=
  match lookup_account self account with
  | None => (false, value, Some (account_does_not_exist account))
  | Some sa =>
      match parameters sa !! parameter with
      | Some variant => mcd_storage_coerce_variant_to_value variant value
      | None =>
          (* not held as a variant: the keyfile-escaped version *)
          match escaped_parameters sa !! parameter with
          | None =>
              (false, value,
               Some (g_error_new TP_ERROR_NOT_AVAILABLE
                       ("Parameter '" +:+ parameter +:+ "' not stored by account "
                          +:+ account)))
          | Some escaped => mcd_keyfile_unescape_value (Some escaped) value
          end
      end
  end.

(** ** Writing *)

(** [update_storage]: the calls made on the plugin that owns the
    account. *)
Definition update_storage (self : McdStorage) (account key : string)
    (variant : option GVariant) (escaped : option string) : list Event :=
  let parameter := g_str_has_prefix key "param-" in
  match lookup_account self account with
  | None => [G_CRITICAL "sa != NULL"]
  | Some sa =>
      let plugin := storage sa in
      let pn := mcp_account_storage_name plugin in
      match escaped with
      | None => [MCP_delete pn account (Some key)]
      | Some escaped =>
          let untyped :=
            MCP_set pn account key escaped
              (mcp_account_storage_set plugin account key escaped) in
          match variant with
          | Some variant =>
              if negb parameter then
                let done := mcp_account_storage_set_attribute plugin account key variant in
                MCP_set_attribute pn account key variant done
                  :: (if done then [] else [untyped])
              else
                let done :=
                  mcp_account_storage_set_parameter plugin account
                    (string_drop 6 key) variant in
                MCP_set_parameter pn account (string_drop 6 key) variant done
                  :: (if done then [] else [untyped])
          | None => [untyped]
          end
      end
  end.

Definition mcd_storage_set_attribute (self : McdStorage) (account attribute : string)
    (value : option GValue) : bool * McdStorage * list Event :=
  if g_str_has_prefix attribute "param-" then
    (false, self, [G_CRITICAL "!g_str_has_prefix (attribute, param-)"])
  else
    match lookup_account self account with
    | None => (false, self, [G_CRITICAL "sa != NULL"])
    | Some sa =>
        let new_v := dbus_g_value_build_g_variant <$> value in
        let old_v := attributes sa !! attribute in
        if negb (mcd_nullable_variant_equal old_v new_v) then
          (* first put it in the attributes hash table *)
          let attrs :=
            match new_v with
            | None => delete attribute (attributes sa)
            | Some new_v => <[attribute := new_v]> (attributes sa)
            end in
          let self :=
            store_account self account
              {| attributes := attrs; parameters := parameters sa;
                 escaped_parameters := escaped_parameters sa;
                 storage := storage sa |} in
          (* then escape it for the plugins *)
          let escaped :=
            match value with
            | Some value => mcd_keyfile_escape_value value
            | None => None
            end in
          (true, self, update_storage self account attribute new_v escaped)
        else (false, self, [])
    end.

(** [g_snprintf (key, sizeof (key), "param-%s", parameter)]: at most
    [MAX_KEY_LENGTH - 1] characters are written. *)
Definition param_key (parameter : string) : string :=
  string_take (MAX_KEY_LENGTH - 1) ("param-" +:+ parameter).

Definition mcd_storage_set_parameter (self : McdStorage) (account parameter : string)
    (value : option GValue) : bool * McdStorage * list Event :=
  match lookup_account self account with
  | None => (false, self, [G_CRITICAL "sa != NULL"])
  | Some sa =>
      let new_escaped :=
        match value with
        | Some value => mcd_keyfile_escape_value value
        | None => None
        end in
      let new_v := dbus_g_value_build_g_variant <$> value in
      let old_v := parameters sa !! parameter in
      let old_escaped := escaped_parameters sa !! parameter in
      let updated :=
        match old_v, old_escaped with
        | Some _, _ => negb (mcd_nullable_variant_equal old_v new_v)
        | None, Some _ => tp_strdiff old_escaped new_escaped
        | None, None => bool_decide (is_Some value)
        end in
      if updated then
        let params := delete parameter (parameters sa) in
        let escaped := delete parameter (escaped_parameters sa) in
        let params :=
          match new_v with
          | Some new_v => <[parameter := new_v]> params
          | None => params
          end in
        let self :=
          store_account self account
            {| attributes := attributes sa; parameters := params;
               escaped_parameters := escaped; storage := storage sa |} in
        (true, self, update_storage self account (param_key parameter) new_v new_escaped)
      else (false, self, [])
  end.

(** ** Identifying an account *)

Definition g_error_matches (error : GError) (code : GErrorCode) : bool :=
  bool_decide (error_code error = code).

(** [g_variant_lookup (parameters, "account", "&s", &base)] on an [a{sv}]
    dictionary: the first entry of that key, when its value is a string. *)
Definition g_variant_lookup_string (dictionary : list (string * GVariant))
    (key : string) : option string :=
  match List.find (λ entry, bool_decide (fst entry = key)) dictionary with
  | Some (_, GV_string s) => Some s
  | _ => None
  end.

(** The callback of the [IdentifyAccount] call; [task_data] is the string
    kept in the task for the case the call fails. *)
Definition identify_account_cb (task_data : string) (identification : string)
    (error : option GError) : GResult string :=
  match error with
  | None => Ok identification
  | Some error =>
      if g_error_matches error TP_ERROR_NOT_IMPLEMENTED
         || g_error_matches error DBUS_GERROR_SERVICE_UNKNOWN
      then Ok task_data
      else inl error
  end.

(** [identify_account_async] followed by [identify_account_finish]: what
    the task completes with.  [protocol_new] is the error of
    [tp_protocol_new] when it gives no protocol; [reply] is the answer of
    the connection manager, an identification or an error. *)
Definition identify_account (parameters : list (string * GVariant))
    (protocol_new : option GError) (reply : GResult string) : GResult string :=
  let base :=
    match g_variant_lookup_string parameters "account" with
    | Some base => base
    | None => "account"
    end in
  match protocol_new with
  | Some error => inl error
  | None =>
      match reply with
      | inr identification => identify_account_cb base identification None
      | inl error => identify_account_cb base "" (Some error)
      end
  end.

(** ** The accessors handed to plugins *)

(** [get_value]: the escaped form of what the cache holds for the key. *)
Definition get_value (self : McdStorage) (account key : string) : option string :=
  match lookup_account self account with
  | None => None
  | Some sa =>
      if g_str_has_prefix key "param-" then
        match parameters sa !! string_drop 6 key with
        | Some variant => mcd_keyfile_escape_variant variant
        | None =>
            (* not held as a variant: the keyfile-escaped version *)
            escaped_parameters sa !! string_drop 6 key
        end
      else
        match attributes sa !! key with
        | Some variant => mcd_keyfile_escape_variant variant
        | None => None
        end
  end.

(** [list_keys]: the attributes, then the entries of the [parameters]
    table with the prefix; each table in the order of [map_to_list]. *)
Definition list_keys (self : McdStorage) (account : string) : list string :=
  match lookup_account self account with
  | None => []
  | Some sa =>
      (fst <$> map_to_list (attributes sa))
        ++ ((λ kv, "param-" +:+ fst kv) <$> map_to_list (parameters sa))
  end.

Definition TP_ACCOUNT_OBJECT_PATH_BASE : string := "/org/freedesktop/Telepathy/Account/".

(** [unique_name]: the first counter whose name is not an account of the
    cache and whose object path is not registered on the connection;
    [registered] is [dbus_g_connection_lookup_g_object (...) != NULL]. *)
Definition unique_name_candidate (manager protocol identification : string) (i : Z)
    : string :=
  tp_escape_as_identifier manager +:+ "/" +:+ g_strdelimit protocol "-" "_" +:+ "/"
    +:+ tp_escape_as_identifier identification +:+ printf_u i.

Definition unique_name (self : McdStorage) (registered : string → bool)
    (manager protocol identification : string) : option string :=
  unique_name_candidate manager protocol identification
    <$> for_first
          (λ i,
             let name := unique_name_candidate manager protocol identification i in
             negb (bool_decide (is_Some (accounts self !! name)))
             && negb (registered (TP_ACCOUNT_OBJECT_PATH_BASE +:+ name)))
          G_MAXUINT 0.

(** ** More readers and writers *)

Definition mcd_storage_dup_attributes (self : McdStorage) (account : string)
    : list string :=
  match lookup_account self account with
  | None => []
  | Some sa => fst <$> map_to_list (attributes sa)
  end.

(** [mcd_storage_get_plugin]: [NULL] after the failed check when the
    account has no record. *)
Definition mcd_storage_get_plugin (self : McdStorage) (account : string)
    : option McpAccountStorage :=
  storage <$> lookup_account self account.

Definition g_value_dup_string (value : GValue) : option string :=
  match g_value_content value with GV_string s => Some s | _ => None end.

Definition g_value_get_boolean (value : GValue) : bool :=
  match g_value_content value with GV_boolean b => b | _ => false end.

Definition g_value_get_int (value : GValue) : Z :=
  match g_value_content value with GV_int32 n => n | _ => 0 end.

Definition mcd_storage_dup_string (self : McdStorage) (account attribute : string)
    : option string :=
  if g_str_has_prefix attribute "param-" then None
  else
    match mcd_storage_get_attribute self account attribute (g_value_init G_TYPE_STRING) with
    | (true, tmp, _) => g_value_dup_string tmp
    | (false, _, _) => None
    end.

(** Unset and unparseable values are returned as [FALSE]. *)
Definition mcd_storage_get_boolean (self : McdStorage) (account attribute : string)
    : bool :=
  if g_str_has_prefix attribute "param-" then false
  else
    match mcd_storage_get_attribute self account attribute (g_value_init G_TYPE_BOOLEAN) with
    | (true, tmp, _) => g_value_get_boolean tmp
    | (false, _, _) => false
    end.

(** Unset and non-numeric values are returned as 0. *)
Definition mcd_storage_get_integer (self : McdStorage) (account attribute : string)
    : Z :=
  if g_str_has_prefix attribute "param-" then 0
  else
    match mcd_storage_get_attribute self account attribute (g_value_init G_TYPE_INT) with
    | (true, tmp, _) => g_value_get_int tmp
    | (false, _, _) => 0
    end.

Definition mcd_storage_set_string (self : McdStorage) (account attribute : string)
    (val : option string) : bool * McdStorage * list Event :=
  if g_str_has_prefix attribute "param-" then
    (false, self, [G_CRITICAL "!g_str_has_prefix (attribute, param-)"])
  else
    match val with
    | None => mcd_storage_set_attribute self account attribute None
    | Some val =>
        mcd_storage_set_attribute self account attribute
          (Some {| G_VALUE_TYPE := G_TYPE_STRING; g_value_content := GV_string val |})
    end.

End Storage.

(** * The regression-test plugin

    [tests/twisted/dbus-account-plugin.c]: a storage plugin that keeps
    its accounts in a service on the session bus.  The calls it makes, on
    the account manager, on the bus and on the service, are recorded in
    the order it makes them. *)

Module TestPlugin.
Import GLib Codec.

Definition PARAMETER_FLAG_NONE : Z := 0.
Definition PARAMETER_FLAG_SECRET : Z := 1.

(** [enum { UNCOMMITTED_CREATION, UNCOMMITTED_DELETION } flags]: the
    enumerators are written without a value, so they are 0 and 1. *)
Definition UNCOMMITTED_CREATION : Z := 0.
Definition UNCOMMITTED_DELETION : Z := 1.

Record Account := {
  path : string;
  attributes : gmap string GVariant;
  attribute_flags : gmap string Z;
  uncommitted_attributes : gset string;
  parameters : gmap string GVariant;
  untyped_parameters : gmap string string;
  parameter_flags : gmap string Z;
  uncommitted_parameters : gset string;
  flags : Z;
}.

Record TestDBusAccountPlugin := {
  accounts : gmap string Account;
  active : bool;
}.

(** What the plugin does to the outside. *)
Inductive Call :=
(* g_dbus_connection_emit_signal on the interface of the plugin: the name
   of the signal, then the object path, the strings and the variant of
   its arguments *)
| emit_signal (name : string) (object_path : option string) (strings : list string)
    (variant : option GVariant)
(* mcp_account_manager_set_value, mcp_account_manager_parameter_make_secret *)
| mcp_account_manager_set_value (account key : string) (value : option string)
| mcp_account_manager_parameter_make_secret (account key : string)
(* mcp_account_storage_emit_deleted *)
| mcp_account_storage_emit_deleted (account : string)
(* the methods of the service *)
| DeleteAccount (account_name : string)
| CreateAccount (account_name : string)
| UpdateAttributes (account_name : string) (changed : list (string * GVariant))
    (changed_flags : list (string * Z)) (deleted : list string)
| UpdateParameters (account_name : string) (changed : list (string * GVariant))
    (changed_untyped : list (string * string)) (changed_flags : list (string * Z))
    (deleted : list string)
| g_warning (message : string).

Definition lookup_account (self : TestDBusAccountPlugin) (account_name : string)
    : option Account :=
  accounts self !! account_name.

(** The account replaced in the table: the tables of an account are
    changed through the pointer [lookup_account] returned. *)
Definition store_account (self : TestDBusAccountPlugin) (account_name : string)
    (account : Account) : TestDBusAccountPlugin :=
  {| accounts := <[account_name := account]> (accounts self); active := active self |}.

Definition set_flags (account : Account) (flags : Z) : Account :=
  {| path := path account; attributes := attributes account;
     attribute_flags := attribute_flags account;
     uncommitted_attributes := uncommitted_attributes account;
     parameters := parameters account;
     untyped_parameters := untyped_parameters account;
     parameter_flags := parameter_flags account;
     uncommitted_parameters := uncommitted_parameters account;
     flags := flags |}.

Definition ensure_account (self : TestDBusAccountPlugin) (account_name : string)
    : TestDBusAccountPlugin * Account :=
  let account :=
    match lookup_account self account_name with
    | Some account => account
    | None =>
        {| path := "/org/freedesktop/Telepathy/Account/" +:+ account_name;
           attributes := ∅; attribute_flags := ∅; uncommitted_attributes := ∅;
           parameters := ∅; untyped_parameters := ∅; parameter_flags := ∅;
           uncommitted_parameters := ∅;
           flags := UNCOMMITTED_CREATION |}
    end in
  (* account->flags &= ~UNCOMMITTED_DELETION *)
  let account := set_flags account (Z.land (flags account) (Z.lnot UNCOMMITTED_DELETION)) in
  (store_account self account_name account, account).

(** [g_hash_table_insert] of every entry of a dictionary, in its order. *)
Definition insert_all {V} (entries : list (string * V)) (table : gmap string V)
    : gmap string V :=
  fold_left (λ table entry, <[fst entry := snd entry]> table) entries table.

(** What the service gives for an account: [(a{sv}a{su}a{sv}a{ss}a{su})]. *)
Record AccountData := {
  data_attributes : list (string * GVariant);
  data_attribute_flags : list (string * Z);
  data_parameters : list (string * GVariant);
  data_untyped_parameters : list (string * string);
  data_param_flags : list (string * Z);
}.

Definition test_dbus_account_plugin_add_account (self : TestDBusAccountPlugin)
    (account_name : string) (data : AccountData) : TestDBusAccountPlugin :=
  let '(self, account) := ensure_account self account_name in
  store_account self account_name
    {| path := path account;
       attributes := insert_all (data_attributes data) (attributes account);
       attribute_flags := insert_all (data_attribute_flags data) (attribute_flags account);
       uncommitted_attributes := uncommitted_attributes account;
       parameters := insert_all (data_parameters data) (parameters account);
       untyped_parameters :=
         insert_all (data_untyped_parameters data) (untyped_parameters account);
       parameter_flags := insert_all (data_param_flags data) (parameter_flags account);
       uncommitted_parameters := uncommitted_parameters account;
       flags := flags account |}.

(** The loop of [test_dbus_account_plugin_list] over the accounts of the
    reply; [ret] is the list built with [g_list_prepend]. *)
Fixpoint add_accounts (self : TestDBusAccountPlugin)
    (reply : list (string * AccountData)) (ret : list string)
    : TestDBusAccountPlugin * list string :=
  match reply with
  | [] => (self, ret)
  | (account_name, data) :: reply =>
      add_accounts (test_dbus_account_plugin_add_account self account_name data)
        reply (account_name :: ret)
  end.

(** [test_dbus_account_plugin_list]; [reply] is the answer of
    [GetAccounts], absent when the service has no owner or is unknown. *)
Definition test_dbus_account_plugin_list (self : TestDBusAccountPlugin)
    (reply : option (list (string * AccountData)))
    : list string * TestDBusAccountPlugin * list Call :=
  match reply with
  | None =>
      (* this regression test isn't using the fake accounts service *)
      ([], self, [emit_signal "Listing" None [] None])
  | Some reply =>
      let self := {| accounts := accounts self; active := true |} in
      let '(self, ret) := add_accounts self reply [] in
      (ret, self, [emit_signal "Listing" None [] None])
  end.

(** [test_dbus_account_plugin_create]; [name] is the answer of
    [mcp_account_manager_get_unique_name]. *)
Definition test_dbus_account_plugin_create (self : TestDBusAccountPlugin)
    (name : string) : option string * TestDBusAccountPlugin * list Call :=
  if negb (active self) then (None, self, [])
  else
    let '(self, account) := ensure_account self name in
    (Some name, self, [emit_signal "DeferringCreate" (Some (path account)) [] None]).

Definition test_dbus_account_plugin_delete (self : TestDBusAccountPlugin)
    (account_name : string) (key : option string)
    : bool * TestDBusAccountPlugin * list Call :=
  match lookup_account self account_name with
  | None => (false, self, [])
  | Some account =>
      if negb (active self) then (false, self, [])
      else
        match key with
        | None =>
            (true,
             store_account self account_name
               {| path := path account;
                  attributes := ∅; attribute_flags := ∅; uncommitted_attributes := ∅;
                  parameters := ∅; untyped_parameters := ∅; parameter_flags := ∅;
                  uncommitted_parameters := ∅;
                  (* flags |= UNCOMMITTED_DELETION, then
                     flags &= ~UNCOMMITTED_CREATION *)
                  flags :=
                    Z.land (Z.lor (flags account) UNCOMMITTED_DELETION)
                      (Z.lnot UNCOMMITTED_CREATION) |},
             [emit_signal "DeferringDelete" (Some (path account)) [] None])
        | Some key =>
            if g_str_has_prefix key "param-" then
              let parameter := string_drop 6 key in
              (true,
               store_account self account_name
                 {| path := path account;
                    attributes := attributes account;
                    attribute_flags := attribute_flags account;
                    uncommitted_attributes := uncommitted_attributes account;
                    parameters := delete parameter (parameters account);
                    untyped_parameters := delete parameter (untyped_parameters account);
                    parameter_flags := delete parameter (parameter_flags account);
                    uncommitted_parameters :=
                      {[parameter]} ∪ uncommitted_parameters account;
                    flags := flags account |},
               [emit_signal "DeferringDeleteParameter" (Some (path account))
                  [parameter] None])
            else
              (true,
               store_account self account_name
                 {| path := path account;
                    attributes := delete key (attributes account);
                    attribute_flags := delete key (attribute_flags account);
                    uncommitted_attributes := {[key]} ∪ uncommitted_attributes account;
                    parameters := parameters account;
                    untyped_parameters := untyped_parameters account;
                    parameter_flags := parameter_flags account;
                    uncommitted_parameters := uncommitted_parameters account;
                    flags := flags account |},
               [emit_signal "DeferringDeleteAttribute" (Some (path account))
                  [key] None])
        end
  end.

(** [account->flags & UNCOMMITTED_DELETION], and the like. *)
Definition has_flag (flags flag : Z) : bool := negb (Z.land flags flag =? 0).

(** [GPOINTER_TO_UINT (g_hash_table_lookup (table, k))]: 0 for a key
    that is not in the table. *)
Definition lookup_flags (table : gmap string Z) (k : string) : Z :=
  default 0 (table !! k).

Definition make_secret_if_flagged (account : Account) (account_name k key : string)
    : list Call :=
  if has_flag (lookup_flags (parameter_flags account) k) PARAMETER_FLAG_SECRET
  then [mcp_account_manager_parameter_make_secret account_name key]
  else [].

(** [test_dbus_account_plugin_get]: whether it answers, and the calls it
    makes on the account manager.  The tables are walked in the order of
    [map_to_list]. *)
Definition test_dbus_account_plugin_get (self : TestDBusAccountPlugin)
    (account_name : string) (key : option string) : bool * list Call :=
  match lookup_account self account_name with
  | None => (false, [])
  | Some account =>
      if negb (active self) || has_flag (flags account) UNCOMMITTED_DELETION
      then (false, [])
      else
        match key with
        | None =>
            (* get everything *)
            (true,
             emit_signal "GetAllKeys" (Some (path account)) [] None
               :: ((λ kv,
                      mcp_account_manager_set_value account_name (fst kv)
                        (mcd_keyfile_escape_variant (snd kv)))
                     <$> map_to_list (attributes account))
               ++ concat
                    ((λ kv,
                        let param_foo := "param-" +:+ fst kv in
                        mcp_account_manager_set_value account_name param_foo
                          (Some (snd kv))
                          :: make_secret_if_flagged account account_name (fst kv)
                               param_foo)
                       <$> map_to_list (untyped_parameters account))
               ++ concat
                    ((λ kv,
                        let param_foo := "param-" +:+ fst kv in
                        mcp_account_manager_set_value account_name param_foo
                          (mcd_keyfile_escape_variant (snd kv))
                          :: make_secret_if_flagged account account_name (fst kv)
                               param_foo)
                       <$> map_to_list (parameters account)))
        | Some key =>
            (* get one parameter *)
            if g_str_has_prefix key "param-" then
              let parameter := string_drop 6 key in
              let signal :=
                emit_signal "GetParameter" (Some (path account)) [parameter] None in
              let secret := make_secret_if_flagged account account_name parameter key in
              match parameters account !! parameter,
                    untyped_parameters account !! parameter with
              | Some v, _ =>
                  (true,
                   signal :: secret
                     ++ [mcp_account_manager_set_value account_name key
                           (mcd_keyfile_escape_variant v)])
              | None, Some s =>
                  (true,
                   signal :: secret
                     ++ [mcp_account_manager_set_value account_name key (Some s)])
              | None, None => (false, signal :: secret)
              end
            else
              let signal :=
                emit_signal "GetAttribute" (Some (path account)) [key] None in
              match attributes account !! key with
              | Some v =>
                  (true,
                   [signal;
                    mcp_account_manager_set_value account_name key
                      (mcd_keyfile_escape_variant v)])
              | None => (false, [signal])
              end
        end
  end.

Section Manager.

(** The account manager the plugin is handed: the names of its known
    attributes, and its answer to
    [mcp_account_manager_parameter_is_secret]. *)
Variable key_name : Storage.AccountsKey → string.
Variable mcp_account_manager_parameter_is_secret : string → string → bool.

Definition test_dbus_account_plugin_set (self : TestDBusAccountPlugin)
    (account_name key value : string) : bool * TestDBusAccountPlugin * list Call :=
  match lookup_account self account_name with
  | None => (false, self, [])
  | Some account =>
      if negb (active self) || has_flag (flags account) UNCOMMITTED_DELETION
      then (false, self, [])
      else if g_str_has_prefix key "param-" then
        let parameter := string_drop 6 key in
        let flags' :=
          if mcp_account_manager_parameter_is_secret account_name key
          then Z.lor PARAMETER_FLAG_NONE PARAMETER_FLAG_SECRET
          else PARAMETER_FLAG_NONE in
        (true,
         store_account self account_name
           {| path := path account;
              attributes := attributes account;
              attribute_flags := attribute_flags account;
              uncommitted_attributes := uncommitted_attributes account;
              parameters := delete parameter (parameters account);
              untyped_parameters := <[parameter := value]> (untyped_parameters account);
              parameter_flags := <[parameter := flags']> (parameter_flags account);
              uncommitted_parameters := {[parameter]} ∪ uncommitted_parameters account;
              flags := flags account |},
         [emit_signal "DeferringSetParameterUntyped" (Some (path account))
            [key; value] None])
      else
        match Storage.mcd_storage_init_value_for_attribute key_name key with
        | None =>
            (false, self, [g_warning ("Cannot store unknown attribute " +:+ key)])
        | Some gvalue =>
            match mcd_keyfile_unescape_value (Some value) gvalue with
            | (false, _, error) =>
                (false, self,
                 [g_warning ("MC gave me a attribute it couldn't unescape: " +:+ key
                               +:+ ": "
                               +:+ match error with
                                   | Some e => error_message e
                                   | None => ""
                                   end)])
            | (true, gvalue, _) =>
                let variant := dbus_g_value_build_g_variant gvalue in
                (true,
                 store_account self account_name
                   {| path := path account;
                      attributes := <[key := variant]> (attributes account);
                      attribute_flags := delete key (attribute_flags account);
                      uncommitted_attributes := {[key]} ∪ uncommitted_attributes account;
                      parameters := parameters account;
                      untyped_parameters := untyped_parameters account;
                      parameter_flags := parameter_flags account;
                      uncommitted_parameters := uncommitted_parameters account;
                      flags := flags account |},
                 [emit_signal "DeferringSetAttribute" (Some (path account)) [key]
                    (Some variant)])
            end
        end
  end.

End Manager.

(** The entries [test_dbus_account_plugin_commit_one] builds for the
    uncommitted attributes: the changed ones with their flags, and the
    deleted ones. *)
Definition commit_attributes (account : Account) (account_name : string) : Call :=
  let uncommitted := elements (uncommitted_attributes account) in
  UpdateAttributes account_name
    (omap (λ k, (λ v, (k, v)) <$> attributes account !! k) uncommitted)
    (omap (λ k, (λ _, (k, lookup_flags (attribute_flags account) k))
                  <$> attributes account !! k) uncommitted)
    (filter (λ k, attributes account !! k = None) uncommitted).

Definition commit_parameters (account : Account) (account_name : string) : Call :=
  let uncommitted := elements (uncommitted_parameters account) in
  UpdateParameters account_name
    (omap (λ k, (λ v, (k, v)) <$> parameters account !! k) uncommitted)
    (omap (λ k, match parameters account !! k with
                | Some _ => None
                | None => (λ s, (k, s)) <$> untyped_parameters account !! k
                end) uncommitted)
    (omap (λ k, match parameters account !! k, untyped_parameters account !! k with
                | None, None => None
                | _, _ => Some (k, lookup_flags (parameter_flags account) k)
                end) uncommitted)
    (filter (λ k, parameters account !! k = None
                  ∧ untyped_parameters account !! k = None) uncommitted).

Definition test_dbus_account_plugin_commit_one (self : TestDBusAccountPlugin)
    (account_name : string) : bool * list Call :=
  match lookup_account self account_name with
  | None => (false, [])
  | Some account =>
      if negb (active self) then (false, [])
      else
        let signal := emit_signal "CommittingOne" (Some (path account)) [] None in
        if has_flag (flags account) UNCOMMITTED_DELETION then
          (* this doesn't mean we succeeded: it means we tried *)
          (true, [signal; DeleteAccount account_name])
        else
          (true,
           signal
             :: (if has_flag (flags account) UNCOMMITTED_CREATION
                 then [CreateAccount account_name] else [])
             ++ (if bool_decide (size (uncommitted_attributes account) ≠ 0%nat)
                 then [commit_attributes account account_name] else [])
             ++ (if bool_decide (size (uncommitted_parameters account) ≠ 0%nat)
                 then [commit_parameters account account_name] else []))
  end.

Definition test_dbus_account_plugin_commit (self : TestDBusAccountPlugin)
    : bool * list Call :=
  if negb (active self) then (false, [])
  else
    (true,
     emit_signal "CommittingAll" None [] None
       :: concat
            ((λ kv,
                let '(done, calls) := test_dbus_account_plugin_commit_one self (fst kv) in
                calls
                  ++ (if done then []
                      else [g_warning ("declined to commit account " +:+ fst kv)]))
               <$> map_to_list (accounts self))).

Definition test_dbus_account_plugin_owns (self : TestDBusAccountPlugin)
    (account_name : string) : bool :=
  match lookup_account self account_name with
  | None => false
  | Some account =>
      negb (negb (active self) || has_flag (flags account) UNCOMMITTED_DELETION)
  end.

(** The callbacks of the calls on the service; [done] is whether the
    call returned a reply. *)
Definition delete_account_cb (self : TestDBusAccountPlugin) (account_name : string)
    (done : bool) : TestDBusAccountPlugin * list Call :=
  if done
  then ({| accounts := delete account_name (accounts self); active := active self |}, [])
  else (self, [g_warning ("Unable to delete account " +:+ account_name)]).

Definition create_account_cb (self : TestDBusAccountPlugin) (account_name : string)
    (done : bool) : TestDBusAccountPlugin * list Call :=
  if done then
    match lookup_account self account_name with
    | Some account =>
        (store_account self account_name
           (set_flags account (Z.land (flags account) (Z.lnot UNCOMMITTED_CREATION))),
         [])
    | None => (self, [])
    end
  else (self, [g_warning ("Unable to create account " +:+ account_name)]).

(** The calls on the account manager that write into its cache, as the
    write-backs the storage code runs. *)
Definition pushes (calls : list Call) : list Storage.WriteBack :=
  omap (λ call,
          match call with
          | mcp_account_manager_set_value account key value =>
              Some (Storage.WB_set_value account key value)
          | _ => None
          end) calls.

Definition is_CreateAccount (call : Call) : bool :=
  match call with CreateAccount _ => true | _ => false end.

(** A plugin with one account, as the service would give it: an
    attribute, a typed parameter and two untyped ones, one of which has
    a typed value as well. *)
Definition example_plugin : TestDBusAccountPlugin :=
  test_dbus_account_plugin_add_account {| accounts := ∅; active := true |} "acct"
    {| data_attributes := [("DisplayName", GV_string "Fred")];
       data_attribute_flags := [];
       data_parameters := [("port", GV_uint32 5222)];
       data_untyped_parameters := [("port", "5223"); ("server", "example.com")];
       data_param_flags := [("password", PARAMETER_FLAG_SECRET)] |}.

End TestPlugin.

(** * The channel handlers

    [mcd-chan-handler.c]: the table of channel handlers read from the
    [.chandler] files.  The strings and the handlers are blocks of a heap,
    so that two handlers that hold the same string hold the same block. *)

Module ChannelHandlers.
Import GLib.

Definition FILE_SEPARATOR : ascii := ","%char.
Definition CH_FILE_SUFFIX : string := ".chandler".
Definition CH_FILE_CH_GROUP : string := "ChannelHandler".

(** A block of the heap is named by its number. *)
Abbreviation pointer := N.

Record McdChannelHandler := {
  bus_name : pointer;
  obj_path : pointer;
  capabilities : Z;
}.

(** The blocks that are allocated, and the number of the next one. *)
Record Heap := {
  next_block : pointer;
  strings : gmap pointer string;
  handlers : gmap pointer McdChannelHandler;
}.

Definition heap_init : Heap := {| next_block := 0%N; strings := ∅; handlers := ∅ |}.

(** How a call ends: with a result, in [g_error], which aborts, or in
    [g_free] of a block that is not allocated, after which the program
    has no defined behaviour. *)
Inductive Outcome (A : Type) :=
| Done (result : A)
| Abort (message : string)
| FreedTwice (block : pointer).

#[global] Arguments Done {A} result.
#[global] Arguments Abort {A} message.
#[global] Arguments FreedTwice {A} block.

Definition bind {A B} (m : Outcome A) (f : A → Outcome B) : Outcome B :=
  match m with
  | Done a => f a
  | Abort message => Abort message
  | FreedTwice block => FreedTwice block
  end.

Definition g_strdup (heap : Heap) (s : string) : pointer * Heap :=
  (next_block heap,
   {| next_block := N.succ (next_block heap);
      strings := <[next_block heap := s]> (strings heap);
      handlers := handlers heap |}).

(** [g_new (McdChannelHandler, 1)] and the assignments of its fields. *)
Definition new_handler (heap : Heap) (handler : McdChannelHandler) : pointer * Heap :=
  (next_block heap,
   {| next_block := N.succ (next_block heap);
      strings := strings heap;
      handlers := <[next_block heap := handler]> (handlers heap) |}).

Definition g_free (heap : Heap) (block : pointer) : Outcome Heap :=
  if bool_decide (is_Some (strings heap !! block)) then
    Done {| next_block := next_block heap;
            strings := delete block (strings heap);
            handlers := handlers heap |}
  else if bool_decide (is_Some (handlers heap !! block)) then
    Done {| next_block := next_block heap;
            strings := strings heap;
            handlers := delete block (handlers heap) |}
  else FreedTwice block.

Definition _mcd_channel_handler_free (heap : Heap) (handler : pointer) : Outcome Heap :=
  match handlers heap !! handler with
  | None => FreedTwice handler
  | Some h =>
      bind (g_free heap (bus_name h)) (λ heap,
      bind (g_free heap (obj_path h)) (λ heap,
      g_free heap handler))
  end.

(** [g_hash_table_insert] on the table made by [g_hash_table_new_full]
    with [_mcd_channel_handler_free] for its values: the value the key
    had is destroyed.  The keys are copies made for the table: the copy
    that is not kept is freed, and no other pointer to it exists. *)
Definition g_hash_table_insert (heap : Heap) (table : gmap string pointer)
    (key : string) (value : pointer) : Outcome (Heap * gmap string pointer) :=
  match table !! key with
  | None => Done (heap, <[key := value]> table)
  | Some old =>
      bind (_mcd_channel_handler_free heap old) (λ heap,
      Done (heap, <[key := value]> table))
  end.

Fixpoint _mcd_channel_handler_packer (heap : Heap) (table : gmap string pointer)
    (string_list : list string) (bus_name : pointer) (capabilities : Z)
    (object_path : pointer) : Outcome (Heap * gmap string pointer) :=
  match string_list with
  | [] => Done (heap, table)
  | s :: string_list =>
      let '(handler, heap) :=
        new_handler heap
          {| bus_name := bus_name; obj_path := object_path;
             capabilities := capabilities |} in
      bind (g_hash_table_insert heap table s handler) (λ '(heap, table),
      _mcd_channel_handler_packer heap table string_list bus_name capabilities
        object_path)
  end.

Fixpoint g_str_has_suffix (s suffix : string) : bool :=
  if bool_decide (s = suffix) then true
  else match s with
       | "" => false
       | String _ r => g_str_has_suffix r suffix
       end.

(** [g_key_file_get_string_list] of a key file whose list separator was
    set. *)
Definition g_key_file_get_string_list_separated (list_separator : ascii)
    (kf : GKeyFile) (group key : string) : GResult (list string) :=
  match g_key_file_get_value kf group key with
  | inl e => inl e
  | inr value =>
      if negb (g_utf8_validate value) then
        Err G_KEY_FILE_ERROR_UNKNOWN_ENCODING "Key file contains a value which is not UTF-8"
      else
        match g_key_file_parse_value_as_string list_separator value true with
        | inl e => inl e
        | inr (_, values) => Ok values
        end
  end.

(** The warnings of the reader, the heap and the table. *)
Record Handlers := {
  heap : Heap;
  table : gmap string pointer;
  warnings : list string;
}.

(** The body of the loop of [_mcd_channel_handlers_read_conf_files] for
    a file of the directory; [file] is what [g_key_file_load_from_file]
    gives, absent when it fails.  The strings [g_key_file_get_string]
    returns are new blocks; the list of channel types is freed once the
    handlers are packed, and no handler points to it. *)
Definition read_conf_file (state : Handlers) (filename : string)
    (file : option GKeyFile) (suffix group : string) : Outcome Handlers :=
  (* Skip the file if it doesn't contain the required file suffix *)
  if negb (g_str_has_suffix filename suffix) then Done state
  else
    match file with
    | None => Abort filename
    | Some file =>
        match g_key_file_get_string file group "BusName" with
        | inl e => Abort (filename +:+ ": " +:+ error_message e)
        | inr bus_name =>
            let '(bus_name, heap) := g_strdup (heap state) bus_name in
            match g_key_file_get_string file group "ObjectPath" with
            | inl e => Abort (filename +:+ ": " +:+ error_message e)
            | inr object_path =>
                let '(object_path, heap) := g_strdup heap object_path in
                let '(capabilities, warned) :=
                  match g_key_file_get_integer file group "TypeSpecificCapabilities" with
                  | inr capabilities => (capabilities, [])
                  | inl e =>
                      (0,
                       if negb (bool_decide
                                  (error_code e = G_KEY_FILE_ERROR_KEY_NOT_FOUND))
                       then ["Error parsing " +:+ filename +:+ ": " +:+ error_message e]
                       else [])
                  end in
                match g_key_file_get_string_list_separated FILE_SEPARATOR file group
                        "ChannelType" with
                | inl e => Abort (filename +:+ ": " +:+ error_message e)
                | inr string_list =>
                    bind (_mcd_channel_handler_packer heap (table state) string_list
                            bus_name capabilities object_path) (λ '(heap, table),
                    Done {| heap := heap; table := table;
                            warnings := warnings state ++ warned |})
                end
            end
        end
    end.

Fixpoint read_conf_files (state : Handlers) (dir : list (string * option GKeyFile))
    (suffix group : string) : Outcome Handlers :=
  match dir with
  | [] => Done state
  | (filename, file) :: dir =>
      bind (read_conf_file state filename file suffix group) (λ state,
      read_conf_files state dir suffix group)
  end.

(** [mcd_get_channel_handlers]; [dir] is the content of the directory of
    the handler files, absent when [g_dir_open] fails. *)
Definition mcd_get_channel_handlers (dir : option (list (string * option GKeyFile)))
    : Outcome Handlers :=
  match dir with
  | None => Abort "Error opening directory"
  | Some dir =>
      read_conf_files {| heap := heap_init; table := ∅; warnings := [] |} dir
        CH_FILE_SUFFIX CH_FILE_CH_GROUP
  end.

(** Two handler files, for the same two channel types. *)
Definition example_text_handler : GKeyFile :=
  {[("ChannelHandler", "BusName") := "org.example.Text";
    ("ChannelHandler", "ObjectPath") := "/org/example/Text";
    ("ChannelHandler", "ChannelType") := "text,media"]}.

Definition example_media_handler : GKeyFile :=
  {[("ChannelHandler", "BusName") := "org.example.Media";
    ("ChannelHandler", "ObjectPath") := "/org/example/Media";
    ("ChannelHandler", "TypeSpecificCapabilities") := "3";
    ("ChannelHandler", "ChannelType") := "text,media"]}.

End ChannelHandlers.

(** * The account proxy of the client library

    [mc-account.c]: how the proxy of an account splits the object path of
    the account. *)

Module McAccount.
Import GLib.

(** The longest prefix of [s] whose characters are kept, and what
    follows it. *)
Fixpoint scan_while (keep : ascii → bool) (s : string) : string * string :=
  match s with
  | String c r =>
      if keep c then
        let '(run, rest) := scan_while keep r in (String c run, rest)
      else ("", s)
  | "" => ("", "")
  end.

(** The characters of a format that are matched one by one. *)
Fixpoint match_literal (literal input : string) : option string :=
  match literal with
  | "" => Some input
  | String c literal =>
      match input with
      | String d input => if Ascii.eqb c d then match_literal literal input else None
      | "" => None
      end
  end.

(** [isspace] in the C locale: the space and the characters from ['\t']
    to ['\r']. *)
Definition isspace (c : ascii) : bool :=
  let b := byte c in
  (b =? 32) || ((9 <=? b) && (b <=? 13)).

Record McAccount := {
  manager_name : string;
  protocol_name : string;
  name : string;
}.

(** How [parse_object_path] ends: with the fields of the account set,
    with [FALSE], or with [sscanf] writing past the end of one of the
    arrays [manager[64]], [protocol[64]] and [name[256]], which no
    conversion of the format bounds. *)
Inductive Parsed :=
| parsed (account : McAccount)
| not_parsed
| overflow (array : string).

Section Base.

(** The macro of [dbus-api.h] the format starts with: the prefix of the
    object paths of accounts.  It is matched as it is written; it has no
    white space and no conversion. *)
Variable MC_ACCOUNT_DBUS_OBJECT_BASE : string.

(** [sscanf (object_path, MC_ACCOUNT_DBUS_OBJECT_BASE "%[^/]/%[^/]/%s",
    manager, protocol, name)], then the assignments. *)
Definition parse_object_path (object_path : string) : Parsed :=
  let not_slash c := negb (Ascii.eqb c "/") in
  match match_literal MC_ACCOUNT_DBUS_OBJECT_BASE object_path with
  | None => not_parsed
  | Some input =>
      let '(manager, input) := scan_while not_slash input in
      if bool_decide (manager = "") then not_parsed
      else if (64 <=? String.length manager)%nat then overflow "manager"
      else
        match input with
        | String "/" input =>
            let '(protocol, input) := scan_while not_slash input in
            if bool_decide (protocol = "") then not_parsed
            else if (64 <=? String.length protocol)%nat then overflow "protocol"
            else
              match input with
              | String "/" input =>
                  (* %s: white space is skipped first *)
                  let '(scanned, _) :=
                    scan_while (λ c, negb (isspace c)) (scan_while isspace input).2 in
                  if bool_decide (scanned = "") then not_parsed
                  else if (256 <=? String.length scanned)%nat then overflow "name"
                  else
                    parsed
                      {| manager_name := manager;
                         protocol_name := protocol;
                         name :=
                           string_drop (String.length MC_ACCOUNT_DBUS_OBJECT_BASE)
                             object_path |}
              | _ => not_parsed
              end
        | _ => not_parsed
        end
  end.

End Base.

End McAccount.

(** * The compatibility interface of an account

    [mcd-account-compat.c]: the properties kept in the key file of the
    accounts, and the requests for channels with their serial numbers. *)

Module AccountCompat.
Import GLib.

(** ** The properties *)

(** What the functions use of an [McdAccount]: the key file of the
    accounts, which [mcd_account_get_keyfile] returns, and the unique
    name of the account. *)
Record McdAccount := {
  keyfile : GKeyFile;
  unique_name : string;
}.

(** The calls of [mcd_account_manager_write_conf], with the key file
    written. *)
Inductive Written := mcd_account_manager_write_conf (keyfile : GKeyFile).

(** [value] holds a string, or [NULL]. *)
Definition set_profile (account : McdAccount) (name : string) (value : option string)
    : McdAccount * list Written :=
  let keyfile' :=
    match value with
    | Some (String c r) =>
        g_key_file_set_string (keyfile account) (unique_name account) name (String c r)
    | _ => g_key_file_remove_key (keyfile account) (unique_name account) name
    end in
  ({| keyfile := keyfile'; unique_name := unique_name account |},
   [mcd_account_manager_write_conf keyfile']).

(** The string the [G_TYPE_STRING] value is given: [NULL] when the key
    file has no string for the property. *)
Definition get_profile (account : McdAccount) (name : string) : option string :=
  match g_key_file_get_string (keyfile account) (unique_name account) name with
  | inr string => Some string
  | inl _ => None
  end.

(** [value] holds a [NULL]-terminated array of strings, or [NULL]. *)
Definition set_secondary_vcard_fields (account : McdAccount) (name : string)
    (value : option (list string)) : McdAccount * list Written :=
  let keyfile' :=
    match value with
    | Some fields =>
        g_key_file_set_string_list (keyfile account) (unique_name account) name fields
    | None => g_key_file_remove_key (keyfile account) (unique_name account) name
    end in
  ({| keyfile := keyfile'; unique_name := unique_name account |},
   [mcd_account_manager_write_conf keyfile']).

Definition get_secondary_vcard_fields (account : McdAccount) (name : string)
    : option (list string) :=
  match g_key_file_get_string_list (keyfile account) (unique_name account) name with
  | inr fields => Some fields
  | inl _ => None
  end.

(** ** The requests *)

Record mcd_channel_request := {
  channel_type : string;
  channel_handle : Z;
  channel_handle_string : option string;
  channel_handle_type : Z;
  requestor_serial : Z;
  requestor_client_id : string;
}.

(** What is sent to the caller of a method. *)
Inductive Reply :=
| dbus_g_method_return_error (error : GError)
| return_from_request_channel (serial : Z)
| return_from_request_channel_with_string_handle (serial : Z).

(** [last_operation_id++] on a [guint]. *)
Definition next_operation_id (last_operation_id : Z) : Z :=
  (last_operation_id + 1) mod 2 ^ 32.

(** The value [last_operation_id] starts with. *)
Definition first_operation_id : Z := 1.

Section Requests.

(** [mcd_account_request_channel_nmc4], of another file: the error it
    sets, if any. *)
Variable mcd_account_request_channel_nmc4 : mcd_channel_request → option GError.

(** The methods take the counter and return it with the replies sent. *)
Definition account_request_channel (last_operation_id : Z) (type : string)
    (handle handle_type : Z) (sender : string) : Z * list Reply :=
  let req :=
    {| channel_type := type;
       channel_handle := handle;
       channel_handle_string := None;
       channel_handle_type := handle_type;
       requestor_serial := last_operation_id;
       requestor_client_id := sender |} in
  (next_operation_id last_operation_id,
   match mcd_account_request_channel_nmc4 req with
   | Some error => [dbus_g_method_return_error error]
   | None => []
   end ++ [return_from_request_channel (requestor_serial req)]).

Definition account_request_channel_with_string_handle (last_operation_id : Z)
    (type handle : string) (handle_type : Z) (sender : string) : Z * list Reply :=
  let req :=
    {| channel_type := type;
       channel_handle := 0;
       channel_handle_string := Some handle;
       channel_handle_type := handle_type;
       requestor_serial := last_operation_id;
       requestor_client_id := sender |} in
  (next_operation_id last_operation_id,
   match mcd_account_request_channel_nmc4 req with
   | Some error => [dbus_g_method_return_error error]
   | None => []
   end ++ [return_from_request_channel_with_string_handle (requestor_serial req)]).

Definition account_cancel_channel_request (last_operation_id : Z)
    (in_operation_id : Z) : Z * list Reply :=
  (last_operation_id,
   [dbus_g_method_return_error
      (g_error_new TP_ERROR_NOT_IMPLEMENTED
         "account_cancel_channel_request is currently just a stub")]).

(** The methods [account_compat_iface_init] implements, as they are
    called on the bus. *)
Inductive Method :=
| request_channel (type : string) (handle handle_type : Z) (sender : string)
| request_channel_with_string_handle (type handle : string) (handle_type : Z)
    (sender : string)
| cancel_channel_request (in_operation_id : Z).

Definition call (last_operation_id : Z) (method : Method) : Z * list Reply :=
  match method with
  | request_channel type handle handle_type sender =>
      account_request_channel last_operation_id type handle handle_type sender
  | request_channel_with_string_handle type handle handle_type sender =>
      account_request_channel_with_string_handle last_operation_id type handle
        handle_type sender
  | cancel_channel_request in_operation_id =>
      account_cancel_channel_request last_operation_id in_operation_id
  end.

(** The calls of a run of the process, one after the other: the counter
    at the end, and the replies to each call. *)
Fixpoint calls (last_operation_id : Z) (methods : list Method)
    : Z * list (list Reply) :=
  match methods with
  | [] => (last_operation_id, [])
  | method :: methods =>
      let '(last_operation_id, replies) := call last_operation_id method in
      let '(last_operation_id, others) := calls last_operation_id methods in
      (last_operation_id, replies :: others)
  end.

End Requests.

End AccountCompat.

(** * Statements

    The notions the properties below are stated with, and the sample
    plugins they are tried on. *)

Module Statements.
Import GLib Codec Storage.

(** [x] is met before [y] when the list is walked from its head. *)
Definition appears_before {A} (x y : A) (l : list A) : Prop :=
  ∃ l1 l2 l3, l = l1 ++ x :: l2 ++ y :: l3.

(** Descending order of priority. *)
Definition by_descending_priority (p q : McpAccountStorage) : Prop :=
  mcp_account_storage_priority q <= mcp_account_storage_priority p.

(** The reading of C5 as the spec states it: two plugins of equal priority
    are in the registry in the order of their registration. *)
Definition ties_keep_registration_order (plugins : list McpAccountStorage) : Prop :=
  ∀ p q, appears_before p q plugins →
    mcp_account_storage_priority p = mcp_account_storage_priority q →
    appears_before p q (add_storage_plugins [] plugins).

(** A plugin that lists no account, cannot create one and implements
    only the untyped [set]. *)
Definition plugin (name : string) (priority : Z) : McpAccountStorage :=
  {| mcp_account_storage_name := name;
     mcp_account_storage_priority := priority;
     mcp_account_storage_provider := "";
     mcp_account_storage_list := [];
     mcp_account_storage_get := λ _, [];
     mcp_account_storage_create :=
       λ _ _ _ _, (None, Some (g_error_new TP_ERROR_NOT_IMPLEMENTED ""));
     mcp_account_storage_set_attribute := λ _ _ _, false;
     mcp_account_storage_set_parameter := λ _ _ _, false;
     mcp_account_storage_set := λ _ _ _, true |}.

(** The invariant of a record: no parameter is held both as a typed value
    and as an escaped string. *)
Definition parameters_disjoint (sa : McdStorageAccount) : Prop :=
  ∀ parameter,
    parameters sa !! parameter = None ∨ escaped_parameters sa !! parameter = None.

Definition cache_disjoint (self : McdStorage) : Prop :=
  ∀ account sa, lookup_account self account = Some sa → parameters_disjoint sa.

(** The operations that change the cache. *)
Inductive Operation :=
| Op_set_attribute (account attribute : string) (value : option GValue)
| Op_set_parameter (account parameter : string) (value : option GValue)
| Op_write_back (w : WriteBack)
| Op_add_account_from_plugin (plugin : McpAccountStorage) (account : option string)
| Op_load (stores : list McpAccountStorage)
| Op_create_account (stores : list McpAccountStorage) (provider : option string)
    (manager protocol identification : string)
| Op_delete_account (account : string).

Definition run (key_name : AccountsKey → string) (self : McdStorage)
    (op : Operation) : McdStorage :=
  match op with
  | Op_set_attribute account attribute value =>
      (mcd_storage_set_attribute self account attribute value).1.2
  | Op_set_parameter account parameter value =>
      (mcd_storage_set_parameter self account parameter value).1.2
  | Op_write_back w => (write_back key_name self w).1
  | Op_add_account_from_plugin plugin account =>
      (mcd_storage_add_account_from_plugin key_name self plugin account).1
  | Op_load stores => (mcd_storage_load key_name self stores).1
  | Op_create_account stores provider manager protocol identification =>
      (mcd_storage_create_account key_name self stores provider
         manager protocol identification).1.2
  | Op_delete_account account => (mcd_storage_delete_account self account).1
  end.

(** The caches the operations can produce from the empty one. *)
Inductive reachable (key_name : AccountsKey → string) : McdStorage → Prop :=
| reachable_init : reachable key_name mcd_storage_init
| reachable_run self op :
    reachable key_name self → reachable key_name (run key_name self op).

(** The parameter is in neither table of the account. *)
Definition parameter_absent (self : McdStorage) (account parameter : string) : Prop :=
  ∃ sa, lookup_account self account = Some sa
        ∧ parameters sa !! parameter = None
        ∧ escaped_parameters sa !! parameter = None.

(** What the cache holds for a key of an account. *)
Definition cached_attribute (self : McdStorage) (account attribute : string)
    : option GVariant :=
  lookup_account self account ≫= λ sa, attributes sa !! attribute.

Definition cached_parameter (self : McdStorage) (account parameter : string)
    : option GVariant :=
  lookup_account self account ≫= λ sa, parameters sa !! parameter.

Definition cached_escaped_parameter (self : McdStorage) (account parameter : string)
    : option string :=
  lookup_account self account ≫= λ sa, escaped_parameters sa !! parameter.

(** Whether a value handed to [mcd_storage_set_parameter] differs from
    the cached one: typed against typed when the cache holds a typed
    value, escaped string against escaped string when it holds only an
    escaped one, and any value differs from none. *)
Definition parameter_differs (self : McdStorage) (account parameter : string)
    (value : option GValue) : bool :=
  match cached_parameter self account parameter,
        cached_escaped_parameter self account parameter with
  | Some old_v, _ =>
      negb (mcd_nullable_variant_equal (Some old_v)
              (dbus_g_value_build_g_variant <$> value))
  | None, Some old_escaped =>
      tp_strdiff (Some old_escaped) (value ≫= mcd_keyfile_escape_value)
  | None, None => bool_decide (is_Some value)
  end.

(** The record of the account after a parameter was rewritten. *)
Definition parameter_written (sa : McdStorageAccount) (parameter : string)
    (new_v : option GVariant) : McdStorageAccount :=
  {| attributes := attributes sa;
     parameters :=
       match new_v with
       | Some new_v => <[parameter:=new_v]> (delete parameter (parameters sa))
       | None => delete parameter (parameters sa)
       end;
     escaped_parameters := delete parameter (escaped_parameters sa);
     storage := storage sa |}.

(** The reading of C4 as the spec states it: a violation is fatal when
    nothing is done after it was raised. *)
Definition violation_is_fatal (events : list Event) : Prop :=
  ∀ before e after,
    events = before ++ e :: after → is_critical e = true → after = [].

(** Every account of the first cache is in the second one, with the same
    owning plugin. *)
Definition owners_kept (self self' : McdStorage) : Prop :=
  ∀ account sa,
    lookup_account self account = Some sa →
    ∃ sa', lookup_account self' account = Some sa' ∧ storage sa' = storage sa.

(** A plugin that lists [stored] and pushes [pushed] for each account. *)
Definition listing_plugin (name : string) (priority : Z) (stored : list string)
    (pushed : string → list WriteBack) : McpAccountStorage :=
  {| mcp_account_storage_name := name;
     mcp_account_storage_priority := priority;
     mcp_account_storage_provider := "";
     mcp_account_storage_list := stored;
     mcp_account_storage_get := pushed;
     mcp_account_storage_create :=
       λ _ _ _ _, (None, Some (g_error_new TP_ERROR_NOT_IMPLEMENTED ""));
     mcp_account_storage_set_attribute := λ _ _ _, false;
     mcp_account_storage_set_parameter := λ _ _ _, false;
     mcp_account_storage_set := λ _ _ _, true |}.

(** A naming of the attribute keys, for the places where a property is
    tried on concrete data. *)
Definition example_key_name (k : AccountsKey) : string :=
  match k with
  | MC_ACCOUNTS_KEY_AUTOMATIC_PRESENCE => "AutomaticPresence"
  | MC_ACCOUNTS_KEY_SUPERSEDES => "Supersedes"
  | MC_ACCOUNTS_KEY_URI_SCHEMES => "URISchemes"
  | MC_ACCOUNTS_KEY_ALWAYS_DISPATCH => "AlwaysDispatch"
  | MC_ACCOUNTS_KEY_CONNECT_AUTOMATICALLY => "ConnectAutomatically"
  | MC_ACCOUNTS_KEY_ENABLED => "Enabled"
  | MC_ACCOUNTS_KEY_HAS_BEEN_ONLINE => "HasBeenOnline"
  | MC_ACCOUNTS_KEY_AUTO_PRESENCE_MESSAGE => "AutomaticPresenceMessage"
  | MC_ACCOUNTS_KEY_AUTO_PRESENCE_STATUS => "AutomaticPresenceStatus"
  | MC_ACCOUNTS_KEY_AVATAR_MIME => "AvatarMime"
  | MC_ACCOUNTS_KEY_AVATAR_TOKEN => "avatar_token"
  | MC_ACCOUNTS_KEY_DISPLAY_NAME => "DisplayName"
  | MC_ACCOUNTS_KEY_ICON => "Icon"
  | MC_ACCOUNTS_KEY_MANAGER => "manager"
  | MC_ACCOUNTS_KEY_NICKNAME => "Nickname"
  | MC_ACCOUNTS_KEY_NORMALIZED_NAME => "NormalizedName"
  | MC_ACCOUNTS_KEY_PROTOCOL => "protocol"
  | MC_ACCOUNTS_KEY_SERVICE => "Service"
  | MC_ACCOUNTS_KEY_AUTO_PRESENCE_TYPE => "AutomaticPresenceType"
  end.

(** A plugin that implements the typed calls: every [set_attribute],
    [set_parameter] and [set] is accepted. *)
Definition typed_plugin (name : string) (priority : Z) : McpAccountStorage :=
  {| mcp_account_storage_name := name;
     mcp_account_storage_priority := priority;
     mcp_account_storage_provider := "";
     mcp_account_storage_list := [];
     mcp_account_storage_get := λ _, [];
     mcp_account_storage_create :=
       λ _ _ _ _, (None, Some (g_error_new TP_ERROR_NOT_IMPLEMENTED ""));
     mcp_account_storage_set_attribute := λ _ _ _, true;
     mcp_account_storage_set_parameter := λ _ _ _, true;
     mcp_account_storage_set := λ _ _ _, true |}.

(** The calls C7 describes for a write that changes the cache: delete
    for no value; else the typed call, followed by the untyped one exactly
    when the typed call answers [false]. *)
Definition preferred_dispatch (plugin : McpAccountStorage) (account key : string)
    (parameter : bool) (value : option GVariant) (escaped : string) : list Event :=
  let pn := mcp_account_storage_name plugin in
  match value with
  | None => [MCP_delete pn account (Some key)]
  | Some v =>
      let untyped :=
        MCP_set pn account key escaped
          (mcp_account_storage_set plugin account key escaped) in
      if parameter then
        let done :=
          mcp_account_storage_set_parameter plugin account (string_drop 6 key) v in
        MCP_set_parameter pn account (string_drop 6 key) v done
          :: (if done then [] else [untyped])
      else
        let done := mcp_account_storage_set_attribute plugin account key v in
        MCP_set_attribute pn account key v done :: (if done then [] else [untyped])
  end.

(** The values C2 is about: the value is of a type
    [mcd_keyfile_get_variant] has a case for, and it is in normal form
    (numbers within their width, strings in UTF-8, object paths
    well-formed). *)
Definition schema_value (v : GVariant) : bool :=
  match v with
  | GV_int16 _ | GV_uint16 _ | GV_signature _ | GV_other _ _ => false
  | _ => g_variant_is_normal_form v
  end.

Fixpoint all_digits (s : string) : bool :=
  match s with
  | "" => true
  | String c r => g_ascii_isdigit c && all_digits r
  end.

(** A cache with one account, owned by a plugin that implements the typed
    calls: an attribute, a typed parameter and an escaped parameter. *)
Definition example_owner : McpAccountStorage := typed_plugin "owner" 0.

Definition example_account : McdStorageAccount :=
  {| attributes := {["DisplayName" := GV_string "Fred"]};
     parameters := {["account" := GV_string "fred@example.com"]};
     escaped_parameters := {["port" := "5222"]};
     storage := example_owner |}.

Definition example_storage : McdStorage :=
  store_account mcd_storage_init "acct" example_account.

(** A backend that creates every account it is asked for. *)
Definition example_default : McpAccountStorage :=
  {| mcp_account_storage_name := "default";
     mcp_account_storage_priority := 0;
     mcp_account_storage_provider := "";
     mcp_account_storage_list := [];
     mcp_account_storage_get := λ _, [];
     mcp_account_storage_create :=
       λ _ manager protocol identification,
         (Some (manager +:+ "/" +:+ protocol +:+ "/" +:+ identification +:+ "0"),
          None);
     mcp_account_storage_set_attribute := λ _ _ _, false;
     mcp_account_storage_set_parameter := λ _ _ _, false;
     mcp_account_storage_set := λ _ _ _, true |}.

(** What a reader owes its caller: with [TRUE], a value of the [GType]
    the caller initialised and no error; with [FALSE], the caller's
    value as it was. *)
Definition reader_keeps_type (value : GValue) (result : bool * GValue * option GError)
    : Prop :=
  match result with
  | (true, value', error) => G_VALUE_TYPE value' = G_VALUE_TYPE value ∧ error = None
  | (false, value', _) => value' = value
  end.

(** A [GValue] as dbus-glib makes it: its [GType] is the one of its
    content. *)
Definition g_value_holds (value : GValue) : Prop :=
  dbus_g_value_parse_g_variant (g_value_content value) = value.

(** The key a write is about: the account, whether the key is a
    parameter, and the name of the attribute or of the parameter. *)
Definition written_key (op : Operation) : option (string * bool * string) :=
  match op with
  | Op_set_attribute account attribute _ => Some (account, false, attribute)
  | Op_set_parameter account parameter _ => Some (account, true, parameter)
  | Op_write_back (WB_set_value account key _) =>
      if g_str_has_prefix key "param-" then Some (account, true, string_drop 6 key)
      else Some (account, false, key)
  | Op_write_back (WB_set_attribute account attribute _) =>
      Some (account, false, attribute)
  | Op_write_back (WB_set_parameter account parameter _) =>
      Some (account, true, parameter)
  | _ => None
  end.

(** All the cache holds under a key: the typed value and, for a
    parameter, the escaped text. *)
Definition cached_value (self : McdStorage) (key : string * bool * string)
    : option GVariant * option string :=
  let '(account, parameter, name) := key in
  if parameter
  then (cached_parameter self account name, cached_escaped_parameter self account name)
  else (cached_attribute self account name, None).

(** The account a write-back of a plugin names. *)
Definition write_back_account (w : WriteBack) : string :=
  match w with
  | WB_set_value account _ _ => account
  | WB_set_attribute account _ _ => account
  | WB_set_parameter account _ _ => account
  end.

(** The characters of an element of an object path. *)
Fixpoint path_chars (s : string) : bool :=
  match s with
  | "" => true
  | String c r => object_path_char c && path_chars r
  end.

(** The characters of a protocol name: the ones of an element of an
    object path, and ['-']. *)
Fixpoint protocol_chars (s : string) : bool :=
  match s with
  | "" => true
  | String c r => (object_path_char c || Ascii.eqb c "-") && protocol_chars r
  end.

(** The requests for a channel among the methods called: the calls that
    take a serial number. *)
Fixpoint requests (methods : list AccountCompat.Method) : nat :=
  match methods with
  | [] => 0
  | AccountCompat.cancel_channel_request _ :: methods => requests methods
  | _ :: methods => S (requests methods)
  end.

(** The request a method hands to [mcd_account_request_channel_nmc4]
    when it is given the serial number [serial]. *)
Definition request_of (method : AccountCompat.Method) (serial : Z)
    : option AccountCompat.mcd_channel_request :=
  match method with
  | AccountCompat.request_channel type handle handle_type sender =>
      Some
        {| AccountCompat.channel_type := type;
           AccountCompat.channel_handle := handle;
           AccountCompat.channel_handle_string := None;
           AccountCompat.channel_handle_type := handle_type;
           AccountCompat.requestor_serial := serial;
           AccountCompat.requestor_client_id := sender |}
  | AccountCompat.request_channel_with_string_handle type handle handle_type sender =>
      Some
        {| AccountCompat.channel_type := type;
           AccountCompat.channel_handle := 0;
           AccountCompat.channel_handle_string := Some handle;
           AccountCompat.channel_handle_type := handle_type;
           AccountCompat.requestor_serial := serial;
           AccountCompat.requestor_client_id := sender |}
  | AccountCompat.cancel_channel_request _ => None
  end.

(** The reply that returns the serial number of a request. *)
Definition return_from (method : AccountCompat.Method) (serial : Z)
    : AccountCompat.Reply :=
  match method with
  | AccountCompat.request_channel_with_string_handle _ _ _ _ =>
      AccountCompat.return_from_request_channel_with_string_handle serial
  | _ => AccountCompat.return_from_request_channel serial
  end.

(** A plugin that returns no name from [create] and leaves no error, as
    [test_dbus_account_plugin_create] does while the plugin is not
    active. *)
Definition silent_plugin (name provider : string) : McpAccountStorage :=
  {| mcp_account_storage_name := name;
     mcp_account_storage_priority := 0;
     mcp_account_storage_provider := provider;
     mcp_account_storage_list := [];
     mcp_account_storage_get := λ _, [];
     mcp_account_storage_create := λ _ _ _ _, (None, None);
     mcp_account_storage_set_attribute := λ _ _ _, false;
     mcp_account_storage_set_parameter := λ _ _ _, false;
     mcp_account_storage_set := λ _ _ _, true |}.



End Statements.

(** * Properties *)

Import GLib Codec Storage Statements.

(** ** The plugin registry *)

Section Registry.

Implicit Types (p q : McpAccountStorage) (stores plugins : list McpAccountStorage).

Lemma appears_before_cons {A} (x y z : A) l :
  appears_before x y l → appears_before x y (z :: l).
Proof.
  intros (l1 & l2 & l3 & ->). by exists (z :: l1), l2, l3.
Qed.

Lemma appears_before_head {A} (x y : A) l : In y l → appears_before x y (x :: l).
Proof.
  intros Hin. apply in_split in Hin as (l2 & l3 & ->). by exists [], l2, l3.
Qed.

Lemma appears_before_uncons {A} (x y z : A) l :
  appears_before x y (z :: l) → (z = x ∧ In y l) ∨ appears_before x y l.
Proof.
  intros (l1 & l2 & l3 & Heq). destruct l1 as [|a l1]; simplify_eq/=.
  - left. split; [done|]. apply in_or_app. right. by left.
  - right. by exists l1, l2, l3.
Qed.

Lemma add_storage_plugin_In stores p q :
  In q (add_storage_plugin stores p) ↔ q = p ∨ In q stores.
Proof.
  unfold add_storage_plugin. induction stores as [|x l IH]; simpl.
  - intuition (subst; auto).
  - destruct (0 <? account_storage_cmp p x); simpl; intuition (subst; auto).
Qed.

Lemma add_storage_plugin_Permutation stores p :
  Permutation (add_storage_plugin stores p) (p :: stores).
Proof.
  unfold add_storage_plugin. induction stores as [|x l IH]; simpl; [done|].
  destruct (0 <? account_storage_cmp p x); [|done].
  rewrite IH. apply perm_swap.
Qed.

Lemma account_storage_cmp_positive p x :
  (0 <? account_storage_cmp p x) = true ↔
  mcp_account_storage_priority p < mcp_account_storage_priority x.
Proof.
  unfold account_storage_cmp.
  destruct (Z.ltb_spec (mcp_account_storage_priority x) (mcp_account_storage_priority p)).
  { simpl. split; [done|lia]. }
  destruct (Z.ltb_spec (mcp_account_storage_priority p) (mcp_account_storage_priority x));
    simpl; (split; [done|lia]) || (split; [lia|done]).
Qed.

Lemma add_storage_plugin_HdRel stores p x :
  HdRel by_descending_priority x stores →
  by_descending_priority x p →
  HdRel by_descending_priority x (add_storage_plugin stores p).
Proof.
  unfold add_storage_plugin. intros Hhd Hxp.
  destruct stores as [|y l]; simpl; [by constructor|].
  destruct (0 <? account_storage_cmp p y); constructor; [|done].
  by inversion Hhd.
Qed.

Lemma add_storage_plugin_Sorted stores p :
  Sorted by_descending_priority stores →
  Sorted by_descending_priority (add_storage_plugin stores p).
Proof.
  unfold add_storage_plugin. induction 1 as [|x l Hs IH Hhd]; simpl.
  - by repeat constructor.
  - destruct (0 <? account_storage_cmp p x) eqn:Hcmp.
    + apply account_storage_cmp_positive in Hcmp.
      constructor; [done|].
      apply add_storage_plugin_HdRel; [done|]. unfold by_descending_priority. lia.
    + constructor; [by constructor|]. constructor.
      unfold by_descending_priority.
      destruct (Z.lt_ge_cases (mcp_account_storage_priority p)
                  (mcp_account_storage_priority x)) as [Hlt|Hge]; [|done].
      apply account_storage_cmp_positive in Hlt. congruence.
Qed.

(** The plugins already in the registry keep their relative order. *)
Lemma add_storage_plugin_keeps_order stores p x y :
  appears_before x y stores → appears_before x y (add_storage_plugin stores p).
Proof.
  unfold add_storage_plugin. induction stores as [|z l IH]; simpl; intros Hb.
  - destruct Hb as (l1 & l2 & l3 & Heq). by destruct l1.
  - destruct (0 <? account_storage_cmp p z); [|by apply appears_before_cons].
    apply appears_before_uncons in Hb as [[-> Hin]|Hb].
    + apply appears_before_head, add_storage_plugin_In. by right.
    + by apply appears_before_cons, IH.
Qed.

(** The new plugin is linked in before every plugin of its priority. *)
Lemma add_storage_plugin_before_equal stores p x :
  In x stores →
  mcp_account_storage_priority x = mcp_account_storage_priority p →
  appears_before p x (add_storage_plugin stores p).
Proof.
  unfold add_storage_plugin. induction stores as [|z l IH]; simpl; [done|].
  intros Hin Hprio. destruct (0 <? account_storage_cmp p z) eqn:Hcmp.
  - apply account_storage_cmp_positive in Hcmp.
    destruct Hin as [->|Hin]; [lia|]. by apply appears_before_cons, IH.
  - by apply appears_before_head.
Qed.

Lemma add_storage_plugins_keeps_order plugins stores x y :
  appears_before x y stores → appears_before x y (add_storage_plugins stores plugins).
Proof.
  unfold add_storage_plugins. revert stores.
  induction plugins as [|p l IH]; simpl; intros stores Hb; [done|].
  by apply IH, add_storage_plugin_keeps_order.
Qed.

Lemma add_storage_plugins_later_first plugins stores x q :
  In x stores → In q plugins →
  mcp_account_storage_priority x = mcp_account_storage_priority q →
  appears_before q x (add_storage_plugins stores plugins).
Proof.
  unfold add_storage_plugins. revert stores.
  induction plugins as [|p l IH]; simpl; intros stores Hx Hq Hprio; [done|].
  destruct Hq as [->|Hq].
  - apply (add_storage_plugins_keeps_order l).
    by apply add_storage_plugin_before_equal.
  - apply IH; [|done..]. apply add_storage_plugin_In. by right.
Qed.

Lemma add_storage_plugins_Sorted plugins stores :
  Sorted by_descending_priority stores →
  Sorted by_descending_priority (add_storage_plugins stores plugins).
Proof.
  unfold add_storage_plugins. revert stores.
  induction plugins as [|p l IH]; simpl; intros stores Hs; [done|].
  by apply IH, add_storage_plugin_Sorted.
Qed.

Lemma add_storage_plugins_Permutation plugins stores :
  Permutation (add_storage_plugins stores plugins) (plugins ++ stores).
Proof.
  unfold add_storage_plugins. revert stores.
  induction plugins as [|p l IH]; simpl; intros stores; [done|].
  rewrite IH, add_storage_plugin_Permutation. by rewrite Permutation_middle.
Qed.

Lemma add_storage_plugins_reverses_ties plugins stores p q :
  appears_before p q plugins →
  mcp_account_storage_priority p = mcp_account_storage_priority q →
  appears_before q p (add_storage_plugins stores plugins).
Proof.
  revert stores. induction plugins as [|a l IH]; intros stores Hb Hprio.
  - destruct Hb as (l1 & l2 & l3 & Heq). by destruct l1.
  - apply appears_before_uncons in Hb as [[-> Hin]|Hb].
    + change (appears_before q p
                (add_storage_plugins (add_storage_plugin stores p) l)).
      apply add_storage_plugins_later_first; [|done..].
      apply add_storage_plugin_In. by left.
    + by apply (IH (add_storage_plugin stores a)).
Qed.

End Registry.

(** ** Registering plugins (C5) *)

Section RegistryOrder.

(** C5, as stated, fails: with the default backend registered first and
    another plugin of the same priority registered second, the registry
    holds the second plugin first. *)
Lemma C5_registration_order_counterexample :
  add_storage_plugins [] [plugin "default" 0; plugin "second" 0]
    = [plugin "second" 0; plugin "default" 0]
  ∧ ¬ ties_keep_registration_order [plugin "default" 0; plugin "second" 0].
Proof.
  split; [reflexivity|].
  intros Hkeep.
  destruct (Hkeep (plugin "default" 0) (plugin "second" 0)) as (l1 & l2 & l3 & Heq).
  - by exists [], [], [].
  - reflexivity.
  - change (add_storage_plugins [] [plugin "default" 0; plugin "second" 0])
      with [plugin "second" 0; plugin "default" 0] in Heq.
    destruct l1 as [|a [|b l1]]; simplify_eq/=.
    + destruct l2; simplify_eq/=.
    + destruct l1; simplify_eq/=.
Qed.

(** C5, amended: after all registrations the registry is in descending
    order of priority and holds exactly the registered plugins; two
    plugins of equal priority are in it in the reverse of their
    registration order, the later-registered one first. *)
Theorem C5_registry_sorted_ties_reversed (plugins : list McpAccountStorage) :
  Sorted by_descending_priority (add_storage_plugins [] plugins)
  ∧ Permutation (add_storage_plugins [] plugins) plugins
  ∧ ∀ p q, appears_before p q plugins →
      mcp_account_storage_priority p = mcp_account_storage_priority q →
      appears_before q p (add_storage_plugins [] plugins).
Proof.
  split; [|split].
  - apply add_storage_plugins_Sorted. constructor.
  - rewrite add_storage_plugins_Permutation. by rewrite app_nil_r.
  - intros p q. apply add_storage_plugins_reverses_ties.
Qed.

Lemma C5_registry_sorted_ties_reversed_witness :
  appears_before (plugin "b" 5) (plugin "a" 5)
    (add_storage_plugins [] [plugin "a" 5; plugin "high" 100; plugin "b" 5]).
Proof.
  apply (C5_registry_sorted_ties_reversed
           [plugin "a" 5; plugin "high" 100; plugin "b" 5]).
  - by exists [], [plugin "high" 100], [].
  - reflexivity.
Defined.

End RegistryOrder.

(** ** Listing the accounts (C10) *)

Section Listing.

Variable key_name : AccountsKey → string.

Lemma dup_accounts_elem (self : McdStorage) (name : string) :
  name ∈ mcd_storage_dup_accounts self ↔
  ∃ sa, lookup_account self name = Some sa ∧ attributes sa ≠ ∅.
Proof.
  unfold mcd_storage_dup_accounts, lookup_account.
  rewrite list_elem_of_fmap. split.
  - intros ([k sa] & -> & Hin). apply list_elem_of_filter in Hin as [Hsize Hin].
    apply elem_of_map_to_list in Hin. exists sa. split; [done|].
    simpl in Hsize. intros Hempty. by rewrite Hempty, map_size_empty in Hsize.
  - intros (sa & Hsa & Hne). exists (name, sa). split; [done|].
    apply list_elem_of_filter. split; [|by apply elem_of_map_to_list].
    simpl. apply Is_true_true_2, Z.ltb_lt.
    assert (size (attributes sa) ≠ 0%nat) by (by rewrite map_size_empty_iff).
    lia.
Qed.

Lemma dup_accounts_NoDup (self : McdStorage) : NoDup (mcd_storage_dup_accounts self).
Proof.
  unfold mcd_storage_dup_accounts.
  eapply sublist_NoDup; [apply (NoDup_fst_map_to_list (accounts self))|].
  apply fmap_sublist, sublist_filter.
Qed.

(** What [mcd_storage_add_account_from_plugin] leaves when the plugin
    pushes nothing for the account. *)
Lemma add_account_from_plugin_fresh (self : McdStorage) plugin name :
  lookup_account self name = None →
  mcp_account_storage_get plugin name = [] →
  fst (mcd_storage_add_account_from_plugin key_name self plugin (Some name))
    = store_account self name (mcd_storage_account_new plugin).
Proof.
  unfold lookup_account, mcd_storage_add_account_from_plugin. intros Hnone Hget.
  rewrite Hnone, Hget. by rewrite bool_decide_eq_false_2 by (by intros []).
Qed.

(** C10: [mcd_storage_dup_accounts] returns, once each, exactly the names
    of the cached accounts whose attribute table is not empty.  An account
    that was just created is left out, and so is one that holds only
    parameters, although a parameter written to it is stored and read
    back. *)
Theorem C10_dup_accounts_only_accounts_with_attributes (self : McdStorage) :
  NoDup (mcd_storage_dup_accounts self)
  ∧ (∀ name, name ∈ mcd_storage_dup_accounts self ↔
       ∃ sa, lookup_account self name = Some sa ∧ attributes sa ≠ ∅)
  ∧ (∀ plugin name parameter value,
       lookup_account self name = None →
       mcp_account_storage_get plugin name = [] →
       let created :=
         fst (mcd_storage_add_account_from_plugin key_name self plugin (Some name)) in
       let '(changed, written, _) :=
         mcd_storage_set_parameter created name parameter (Some value) in
       let read := dbus_g_value_parse_g_variant (dbus_g_value_build_g_variant value) in
       is_Some (lookup_account created name)
       ∧ (name ∉ mcd_storage_dup_accounts created)
       ∧ changed = true
       ∧ (name ∉ mcd_storage_dup_accounts written)
       ∧ mcd_storage_get_parameter written name parameter
           (g_value_init (G_VALUE_TYPE read)) = (true, read, None)).
Proof.
  split; [apply dup_accounts_NoDup|]. split; [apply dup_accounts_elem|].
  intros plugin name parameter value Hnone Hget created.
  subst created. rewrite add_account_from_plugin_fresh by done.
  unfold mcd_storage_set_parameter, lookup_account, store_account. simpl.
  rewrite lookup_insert_eq. simpl. rewrite !lookup_empty. simpl.
  split; [by eexists|]. split; [|split; [done|split]].
  - rewrite dup_accounts_elem. unfold lookup_account. simpl.
    intros (sa & Hsa & Hne). rewrite lookup_insert_eq in Hsa. by simplify_eq.
  - rewrite dup_accounts_elem. unfold lookup_account. simpl.
    intros (sa & Hsa & Hne). rewrite lookup_insert_eq in Hsa. by simplify_eq.
  - unfold mcd_storage_get_parameter, lookup_account. simpl.
    rewrite lookup_insert_eq. simpl. rewrite lookup_insert_eq.
    unfold mcd_storage_coerce_variant_to_value. simpl.
    by rewrite bool_decide_eq_true_2.
Qed.

End Listing.

(** ** Identifying an account (C9) *)

Section Identify.

Lemma g_variant_lookup_string_first (pre post : list (string * GVariant)) key s :
  (∀ entry, entry ∈ pre → entry.1 ≠ key) →
  g_variant_lookup_string (pre ++ (key, GV_string s) :: post) key = Some s.
Proof.
  unfold g_variant_lookup_string. intros Hpre.
  induction pre as [|[k v] pre IH]; simpl.
  - by rewrite bool_decide_eq_true_2.
  - rewrite bool_decide_eq_false_2.
    + apply IH. intros entry Hin. apply Hpre. by right.
    + apply (Hpre (k, v)). by left.
Qed.

Lemma g_variant_lookup_string_absent (dictionary : list (string * GVariant)) key :
  (∀ entry, entry ∈ dictionary → entry.1 ≠ key) →
  g_variant_lookup_string dictionary key = None.
Proof.
  unfold g_variant_lookup_string. intros Hno.
  induction dictionary as [|[k v] l IH]; simpl; [done|].
  rewrite bool_decide_eq_false_2.
  - apply IH. intros entry Hin. apply Hno. by right.
  - apply (Hno (k, v)). by left.
Qed.

(** C9: [identify_account] completes with the identification the
    connection manager returns; when the call fails with "not implemented"
    or with "service unknown" it completes with the string kept for that
    case, which is the string value of the ["account"] parameter, or the
    word ["account"] when the parameters have no such entry; every other
    error, and the error of a protocol that cannot be made, is the result
    of the task. *)
Theorem C9_identify_account_degrades_to_account_parameter
    (parameters : list (string * GVariant)) :
  let base := default "account" (g_variant_lookup_string parameters "account") in
  (∀ identification,
      identify_account parameters None (Ok identification) = Ok identification)
  ∧ (∀ error,
      error_code error = TP_ERROR_NOT_IMPLEMENTED
      ∨ error_code error = DBUS_GERROR_SERVICE_UNKNOWN →
      identify_account parameters None (inl error) = Ok base)
  ∧ (∀ error,
      error_code error ≠ TP_ERROR_NOT_IMPLEMENTED →
      error_code error ≠ DBUS_GERROR_SERVICE_UNKNOWN →
      identify_account parameters None (inl error) = inl error)
  ∧ (∀ error reply, identify_account parameters (Some error) reply = inl error)
  ∧ (∀ pre post s,
      parameters = pre ++ ("account", GV_string s) :: post →
      (∀ entry, entry ∈ pre → entry.1 ≠ "account") →
      base = s)
  ∧ ((∀ entry, entry ∈ parameters → entry.1 ≠ "account") → base = "account").
Proof.
  intros base. unfold identify_account, identify_account_cb, g_error_matches.
  repeat split.
  - intros error [Hcode|Hcode]; rewrite Hcode; simpl; subst base;
      by destruct (g_variant_lookup_string parameters "account").
  - intros error Hne1 Hne2. by rewrite !bool_decide_eq_false_2.
  - intros pre post s -> Hpre. subst base.
    by rewrite g_variant_lookup_string_first.
  - intros Hno. subst base. by rewrite g_variant_lookup_string_absent.
Qed.

End Identify.

(** ** The two tables of parameters (C8) *)

Section Disjoint.

Variable key_name : AccountsKey → string.

Lemma cache_disjoint_init : cache_disjoint mcd_storage_init.
Proof. intros account sa. unfold lookup_account. simpl. by rewrite lookup_empty. Qed.

Lemma cache_disjoint_store self account sa :
  cache_disjoint self → parameters_disjoint sa →
  cache_disjoint (store_account self account sa).
Proof.
  intros Hself Hsa account' sa'. unfold lookup_account, store_account. simpl.
  rewrite lookup_insert. case_decide; [by intros [= <-]|]. apply Hself.
Qed.

Lemma parameters_disjoint_new plugin : parameters_disjoint (mcd_storage_account_new plugin).
Proof. intros parameter. left. apply lookup_empty. Qed.

(** A parameter rewritten as a typed value: the escaped table loses it. *)
Lemma parameters_disjoint_typed sa parameter (value : option GVariant) attrs :
  parameters_disjoint sa →
  parameters_disjoint
    {| attributes := attrs;
       parameters :=
         match value with
         | Some value => <[parameter := value]> (delete parameter (parameters sa))
         | None => delete parameter (parameters sa)
         end;
       escaped_parameters := delete parameter (escaped_parameters sa);
       storage := storage sa |}.
Proof.
  intros Hsa k. simpl. destruct (decide (k = parameter)) as [->|Hne].
  - right. apply lookup_delete_eq.
  - destruct value; rewrite ?lookup_insert_ne, !lookup_delete_ne by done; apply Hsa.
Qed.

(** A parameter rewritten as an escaped string: the typed table loses it. *)
Lemma parameters_disjoint_escaped sa parameter (value : option string) attrs :
  parameters_disjoint sa →
  parameters_disjoint
    {| attributes := attrs;
       parameters := delete parameter (parameters sa);
       escaped_parameters :=
         match value with
         | Some value => <[parameter := value]> (delete parameter (escaped_parameters sa))
         | None => delete parameter (escaped_parameters sa)
         end;
       storage := storage sa |}.
Proof.
  intros Hsa k. simpl. destruct (decide (k = parameter)) as [->|Hne].
  - left. apply lookup_delete_eq.
  - destruct value; rewrite ?lookup_insert_ne, !lookup_delete_ne by done; apply Hsa.
Qed.

Lemma parameters_disjoint_attributes sa attrs :
  parameters_disjoint sa →
  parameters_disjoint
    {| attributes := attrs; parameters := parameters sa;
       escaped_parameters := escaped_parameters sa; storage := storage sa |}.
Proof. intros Hsa k. apply Hsa. Qed.

Lemma set_attribute_disjoint self account attribute value :
  cache_disjoint self →
  cache_disjoint (mcd_storage_set_attribute self account attribute value).1.2.
Proof.
  intros Hself. unfold mcd_storage_set_attribute.
  destruct (g_str_has_prefix attribute "param-"); [done|].
  destruct (lookup_account self account) as [sa|] eqn:Hsa; [|done].
  destruct (negb _); [|done]. simpl.
  apply cache_disjoint_store; [done|].
  by apply parameters_disjoint_attributes, (Hself account).
Qed.

Lemma set_parameter_disjoint self account parameter value :
  cache_disjoint self →
  cache_disjoint (mcd_storage_set_parameter self account parameter value).1.2.
Proof.
  intros Hself. unfold mcd_storage_set_parameter.
  destruct (lookup_account self account) as [sa|] eqn:Hsa; [|done].
  match goal with |- context [if ?b then _ else _] => destruct b end; [|done].
  simpl. apply cache_disjoint_store; [done|].
  by apply (parameters_disjoint_typed sa parameter (_ <$> value)), (Hself account).
Qed.

Lemma write_back_disjoint self w :
  cache_disjoint self → cache_disjoint (write_back key_name self w).1.
Proof.
  intros Hself. destruct w as [account key value|account attribute value
                              |account parameter value]; simpl.
  - unfold set_value.
    destruct (lookup_account self account) as [sa|] eqn:Hsa; [|done].
    pose proof (Hself account sa Hsa) as Hdisj.
    destruct (g_str_has_prefix key "param-").
    + simpl. apply cache_disjoint_store; [done|].
      by apply (parameters_disjoint_escaped sa (string_drop 6 key) value).
    + destruct value as [value|]; simpl.
      * destruct (mcd_storage_init_value_for_attribute key_name key) as [tmp|];
          cbv beta iota zeta;
          match goal with
          | |- context [mcd_keyfile_get_value ?kf ?g ?k ?v] =>
              destruct (mcd_keyfile_get_value kf g k v) as [[[] tmp'] err]
          end; simpl;
          (apply cache_disjoint_store; [done|]);
          by apply parameters_disjoint_attributes.
      * apply cache_disjoint_store; [done|]. by apply parameters_disjoint_attributes.
  - unfold mcpa_set_attribute.
    destruct (lookup_account self account) as [sa|] eqn:Hsa; [|done]. simpl.
    apply cache_disjoint_store; [done|].
    by apply parameters_disjoint_attributes, (Hself account).
  - unfold mcpa_set_parameter.
    destruct (lookup_account self account) as [sa|] eqn:Hsa; [|done]. simpl.
    apply cache_disjoint_store; [done|].
    by apply (parameters_disjoint_typed sa parameter value), (Hself account).
Qed.

Lemma write_backs_disjoint ws self :
  cache_disjoint self → cache_disjoint (write_backs key_name self ws).1.
Proof.
  revert self. induction ws as [|w ws IH]; intros self Hself; simpl; [done|].
  pose proof (write_back_disjoint self w Hself) as Hw.
  destruct (write_back key_name self w) as [self1 ev].
  specialize (IH self1 Hw).
  by destruct (write_backs key_name self1 ws) as [self2 evs].
Qed.

Lemma add_account_from_plugin_disjoint self plugin account :
  cache_disjoint self →
  cache_disjoint (mcd_storage_add_account_from_plugin key_name self plugin account).1.
Proof.
  intros Hself. unfold mcd_storage_add_account_from_plugin.
  destruct account as [account|]; [|done].
  case_bool_decide; [done|].
  pose proof (write_backs_disjoint (mcp_account_storage_get plugin account)
                (store_account self account (mcd_storage_account_new plugin))) as Hw.
  destruct (write_backs _ _ _) as [self1 evs]. simpl in *.
  apply Hw, cache_disjoint_store; [done|]. apply parameters_disjoint_new.
Qed.

Lemma add_accounts_from_plugin_disjoint stored self plugin :
  cache_disjoint self →
  cache_disjoint (add_accounts_from_plugin key_name self plugin stored).1.
Proof.
  revert self. induction stored as [|name stored IH]; intros self Hself;
    cbn -[mcd_storage_add_account_from_plugin]; [done|].
  pose proof (add_account_from_plugin_disjoint self plugin (Some name) Hself) as Ha.
  destruct (mcd_storage_add_account_from_plugin _ _ _ _) as [self1 ev].
  specialize (IH self1 Ha).
  by destruct (add_accounts_from_plugin key_name self1 plugin stored) as [self2 evs].
Qed.

Lemma load_from_disjoint visited self :
  cache_disjoint self → cache_disjoint (load_from key_name self visited).1.
Proof.
  revert self. induction visited as [|plugin visited IH]; intros self Hself; simpl; [done|].
  pose proof (add_accounts_from_plugin_disjoint
                (mcp_account_storage_list plugin) self plugin Hself) as Ha.
  destruct (add_accounts_from_plugin _ _ _ _) as [self1 ev].
  specialize (IH self1 Ha).
  by destruct (load_from key_name self1 visited) as [self2 evs].
Qed.

Lemma create_in_priority_order_disjoint store self manager protocol identification :
  cache_disjoint self →
  cache_disjoint
    (create_in_priority_order key_name self store manager protocol identification).1.2.
Proof.
  intros Hself. induction store as [|plugin store IH];
    cbn -[mcd_storage_add_account_from_plugin]; [done|].
  destruct (mcp_account_storage_create _ _ _ _ _) as [[account|] e].
  - pose proof (add_account_from_plugin_disjoint self plugin (Some account) Hself) as Ha.
    by destruct (mcd_storage_add_account_from_plugin _ _ _ _) as [self1 evs].
  - by destruct (create_in_priority_order _ _ _ _ _ _) as [[[a e'] self1] evs].
Qed.

Lemma create_account_disjoint self stores provider manager protocol identification :
  cache_disjoint self →
  cache_disjoint
    (mcd_storage_create_account key_name self stores provider
       manager protocol identification).1.2.
Proof.
  intros Hself. unfold mcd_storage_create_account.
  destruct (tp_str_empty (Some manager)); [done|].
  destruct (tp_str_empty (Some protocol)); [done|].
  destruct provider as [provider|];
    [|by apply create_in_priority_order_disjoint].
  destruct (List.find _ stores) as [plugin|]; [|done].
  destruct (mcp_account_storage_create _ _ _ _ _) as [a e].
  pose proof (add_account_from_plugin_disjoint self plugin a Hself) as Ha.
  by destruct (mcd_storage_add_account_from_plugin key_name self plugin a).
Qed.

Lemma delete_account_disjoint self account :
  cache_disjoint self → cache_disjoint (mcd_storage_delete_account self account).1.
Proof.
  intros Hself. unfold mcd_storage_delete_account.
  destruct (lookup_account self account) as [sa|]; [|done]. simpl.
  intros account' sa'. unfold lookup_account. simpl.
  rewrite lookup_delete. case_decide; [done|]. apply Hself.
Qed.

Lemma run_disjoint self op :
  cache_disjoint self → cache_disjoint (run key_name self op).
Proof.
  intros Hself. destruct op; simpl.
  - by apply set_attribute_disjoint.
  - by apply set_parameter_disjoint.
  - by apply write_back_disjoint.
  - by apply add_account_from_plugin_disjoint.
  - by apply load_from_disjoint.
  - by apply create_account_disjoint.
  - by apply delete_account_disjoint.
Qed.

Lemma param_prefix parameter : g_str_has_prefix ("param-" +:+ parameter) "param-" = true.
Proof. reflexivity. Qed.

Lemma string_drop_param parameter : string_drop 6 ("param-" +:+ parameter) = parameter.
Proof. reflexivity. Qed.

(** Erasing through [mcd_storage_set_parameter]. *)
Lemma set_parameter_erases self account parameter sa :
  lookup_account self account = Some sa →
  parameter_absent (mcd_storage_set_parameter self account parameter None).1.2
    account parameter.
Proof.
  intros Hsa. unfold mcd_storage_set_parameter. rewrite Hsa. simpl.
  destruct (parameters sa !! parameter) as [old_v|] eqn:Hv; simpl.
  - eexists. unfold lookup_account, store_account. simpl.
    rewrite lookup_insert_eq. split; [done|]. simpl. by rewrite !lookup_delete_eq.
  - destruct (escaped_parameters sa !! parameter) as [old_e|] eqn:He; simpl.
    + eexists. unfold lookup_account, store_account. simpl.
      rewrite lookup_insert_eq. split; [done|]. simpl. by rewrite !lookup_delete_eq.
    + by exists sa.
Qed.

(** C8: in every cache the storage code can produce, no parameter of any
    account is held both as a typed value and as an escaped string; and
    erasing a parameter of an account, through [mcd_storage_set_parameter],
    [mcpa_set_parameter] or [set_value] with no value, leaves it in neither
    table, so that reading it fails with "not stored". *)
Theorem C8_parameter_tables_disjoint :
  (∀ self, reachable key_name self → cache_disjoint self)
  ∧ (∀ self account parameter sa,
      lookup_account self account = Some sa →
      let erased1 := (mcd_storage_set_parameter self account parameter None).1.2 in
      let erased2 := (mcpa_set_parameter self account parameter None).1 in
      let erased3 := (set_value key_name self account ("param-" +:+ parameter) None).1 in
      ∀ erased, erased = erased1 ∨ erased = erased2 ∨ erased = erased3 →
        parameter_absent erased account parameter
        ∧ ∀ value,
            mcd_storage_get_parameter erased account parameter value
              = (false, value,
                 Some (g_error_new TP_ERROR_NOT_AVAILABLE
                         ("Parameter '" +:+ parameter +:+ "' not stored by account "
                            +:+ account)))).
Proof.
  split.
  - induction 1 as [|self op Hreach IH]; [apply cache_disjoint_init|].
    by apply run_disjoint.
  - intros self account parameter sa Hsa erased1 erased2 erased3 erased Herased.
    assert (parameter_absent erased account parameter) as Habsent.
    { destruct Herased as [->|[->| ->]]; subst erased1 erased2 erased3.
      - by eapply set_parameter_erases.
      - unfold mcpa_set_parameter. rewrite Hsa. simpl.
        eexists. unfold lookup_account, store_account. simpl.
        rewrite lookup_insert_eq. split; [done|]. simpl. by rewrite !lookup_delete_eq.
      - unfold set_value. rewrite Hsa, param_prefix, string_drop_param. simpl.
        eexists. unfold lookup_account, store_account. simpl.
        rewrite lookup_insert_eq. split; [done|]. simpl. by rewrite !lookup_delete_eq. }
    split; [done|]. intros value.
    destruct Habsent as (sa' & Hsa' & Hv & He).
    unfold mcd_storage_get_parameter. by rewrite Hsa', Hv, He.
Qed.

End Disjoint.

(** ** Writing the same value twice (C1) *)

Section Idempotence.

Lemma mcd_nullable_variant_equal_refl v : mcd_nullable_variant_equal v v = true.
Proof.
  destruct v as [v|]; [|done]. unfold mcd_nullable_variant_equal, g_variant_equal.
  by rewrite bool_decide_eq_true_2.
Qed.

Lemma set_attribute_twice self account attribute value :
  is_Some (lookup_account self account) →
  g_str_has_prefix attribute "param-" = false →
  let '(changed1, self1, _) := mcd_storage_set_attribute self account attribute value in
  let '(changed2, self2, events2) :=
    mcd_storage_set_attribute self1 account attribute value in
  changed1 = negb (mcd_nullable_variant_equal (cached_attribute self account attribute)
                     (dbus_g_value_build_g_variant <$> value))
  ∧ changed2 = false ∧ self2 = self1 ∧ events2 = [].
Proof.
  intros [sa Hsa] Hprefix. unfold mcd_storage_set_attribute, cached_attribute.
  rewrite Hprefix, Hsa. simpl.
  destruct (mcd_nullable_variant_equal _ _) eqn:Heq; simpl.
  - rewrite ?Hprefix, ?Hsa, ?Heq. by simpl.
  - rewrite ?Hprefix. unfold lookup_account, store_account. simpl.
    rewrite lookup_insert_eq. simpl.
    assert (match dbus_g_value_build_g_variant <$> value with
            | Some new_v => <[attribute:=new_v]> (attributes sa)
            | None => delete attribute (attributes sa)
            end !! attribute = dbus_g_value_build_g_variant <$> value) as ->.
    { destruct value; simpl; [apply lookup_insert_eq|apply lookup_delete_eq]. }
    by rewrite mcd_nullable_variant_equal_refl.
Qed.

Lemma set_parameter_unfold self account parameter value sa :
  lookup_account self account = Some sa →
  mcd_storage_set_parameter self account parameter value
  = if parameter_differs self account parameter value
    then
      let self1 :=
        store_account self account
          (parameter_written sa parameter (dbus_g_value_build_g_variant <$> value)) in
      (true, self1,
       update_storage self1 account (param_key parameter)
         (dbus_g_value_build_g_variant <$> value)
         (value ≫= mcd_keyfile_escape_value))
    else (false, self, []).
Proof.
  intros Hsa.
  unfold mcd_storage_set_parameter, parameter_differs, cached_parameter,
    cached_escaped_parameter, parameter_written.
  rewrite Hsa. cbn [mbind option_bind].
  assert ((match value with
           | Some value0 => mcd_keyfile_escape_value value0
           | None => None
           end) = value ≫= mcd_keyfile_escape_value) as -> by (by destruct value).
  destruct (parameters sa !! parameter) as [old_v|];
    [|destruct (escaped_parameters sa !! parameter) as [old_e|]]; done.
Qed.

Lemma parameter_differs_written self account parameter value sa :
  parameter_differs
    (store_account self account
       (parameter_written sa parameter (dbus_g_value_build_g_variant <$> value)))
    account parameter value = false.
Proof.
  unfold parameter_differs, cached_parameter, cached_escaped_parameter,
    lookup_account, store_account, parameter_written.
  simpl. rewrite lookup_insert_eq. simpl. rewrite lookup_delete_eq.
  destruct value as [value|]; simpl.
  - rewrite lookup_insert_eq. cbv beta iota.
    unfold g_variant_equal. by rewrite bool_decide_eq_true_2.
  - by rewrite lookup_delete_eq.
Qed.

Lemma set_parameter_twice self account parameter value :
  is_Some (lookup_account self account) →
  let '(changed1, self1, _) := mcd_storage_set_parameter self account parameter value in
  let '(changed2, self2, events2) :=
    mcd_storage_set_parameter self1 account parameter value in
  changed1 = parameter_differs self account parameter value
  ∧ changed2 = false ∧ self2 = self1 ∧ events2 = [].
Proof.
  intros [sa Hsa]. rewrite (set_parameter_unfold _ _ _ _ sa Hsa).
  destruct (parameter_differs self account parameter value) eqn:Hdiff.
  - cbv beta iota zeta.
    erewrite set_parameter_unfold
      by (unfold lookup_account, store_account; simpl; apply lookup_insert_eq).
    by rewrite parameter_differs_written.
  - by rewrite (set_parameter_unfold _ _ _ _ sa Hsa), Hdiff.
Qed.

(** C1: on an account of the cache, [mcd_storage_set_attribute] (for an
    attribute name) and [mcd_storage_set_parameter], each called twice in
    succession with the same value, return "changed" the first time
    exactly when the value differs from the cached one, "unchanged" the
    second time, and the second call leaves the cache as the first one
    left it and calls no plugin.  For attributes the comparison is typed
    against typed; for parameters it is typed against typed when the cache
    holds a typed value and escaped string against escaped string when it
    holds an escaped one. *)
Theorem C1_set_twice_changed_then_unchanged (self : McdStorage)
    (account key : string) (value : option GValue) :
  is_Some (lookup_account self account) →
  (g_str_has_prefix key "param-" = false →
   let '(changed1, self1, _) := mcd_storage_set_attribute self account key value in
   let '(changed2, self2, events2) := mcd_storage_set_attribute self1 account key value in
   changed1 = negb (mcd_nullable_variant_equal (cached_attribute self account key)
                      (dbus_g_value_build_g_variant <$> value))
   ∧ changed2 = false ∧ self2 = self1 ∧ events2 = [])
  ∧ (let '(changed1, self1, _) := mcd_storage_set_parameter self account key value in
     let '(changed2, self2, events2) := mcd_storage_set_parameter self1 account key value in
     changed1 = parameter_differs self account key value
     ∧ changed2 = false ∧ self2 = self1 ∧ events2 = []).
Proof.
  intros Hsa. split.
  - intros Hprefix. by apply set_attribute_twice.
  - by apply set_parameter_twice.
Qed.

End Idempotence.

(** ** An account name reported twice (C4) *)

Section Ownership.

Variable key_name : AccountsKey → string.

Lemma owners_kept_refl self : owners_kept self self.
Proof. intros account sa Hsa. by exists sa. Qed.

Lemma owners_kept_trans self1 self2 self3 :
  owners_kept self1 self2 → owners_kept self2 self3 → owners_kept self1 self3.
Proof.
  intros H12 H23 account sa Hsa.
  destruct (H12 account sa Hsa) as (sa2 & Hsa2 & Ho2).
  destruct (H23 account sa2 Hsa2) as (sa3 & Hsa3 & Ho3).
  exists sa3. split; [done|]. congruence.
Qed.

(** The record of an account rewritten by its owner's data. *)
Lemma owners_kept_store self account sa sa' :
  lookup_account self account = Some sa →
  storage sa' = storage sa →
  owners_kept self (store_account self account sa').
Proof.
  intros Hsa Hown account0 sa0 Hsa0. unfold lookup_account, store_account. simpl.
  rewrite lookup_insert. case_decide as Heq.
  - subst account0. exists sa'. split; [done|]. congruence.
  - by exists sa0.
Qed.

(** A record added under a name the cache does not have. *)
Lemma owners_kept_store_fresh self account sa' :
  lookup_account self account = None →
  owners_kept self (store_account self account sa').
Proof.
  intros Hnone account0 sa0 Hsa0. unfold lookup_account, store_account. simpl.
  rewrite lookup_insert. case_decide as Heq; [congruence|]. by exists sa0.
Qed.

Lemma write_back_owners_kept self w : owners_kept self (write_back key_name self w).1.
Proof.
  destruct w as [account key value|account attribute value
                |account parameter value]; simpl.
  - unfold set_value.
    destruct (lookup_account self account) as [sa|] eqn:Hsa;
      [|apply owners_kept_refl].
    destruct (g_str_has_prefix key "param-"); [by eapply owners_kept_store|].
    destruct value as [value|]; [|by eapply owners_kept_store].
    destruct (mcd_storage_init_value_for_attribute key_name key) as [tmp|];
      cbv beta iota zeta;
      match goal with
      | |- context [mcd_keyfile_unescape_value ?e ?v] =>
          destruct (mcd_keyfile_unescape_value e v) as [[[] tmp'] err]
      end; by eapply owners_kept_store.
  - unfold mcpa_set_attribute.
    destruct (lookup_account self account) as [sa|] eqn:Hsa;
      [by eapply owners_kept_store|apply owners_kept_refl].
  - unfold mcpa_set_parameter.
    destruct (lookup_account self account) as [sa|] eqn:Hsa;
      [by eapply owners_kept_store|apply owners_kept_refl].
Qed.

Lemma write_backs_owners_kept ws self :
  owners_kept self (write_backs key_name self ws).1.
Proof.
  revert self. induction ws as [|w ws IH]; intros self; simpl;
    [apply owners_kept_refl|].
  pose proof (write_back_owners_kept self w) as Hw.
  destruct (write_back key_name self w) as [self1 ev].
  specialize (IH self1).
  destruct (write_backs key_name self1 ws) as [self2 evs].
  by eapply owners_kept_trans.
Qed.

(** The step C4 is about: the name is already in the cache. *)
Lemma add_account_from_plugin_present self plugin account sa :
  lookup_account self account = Some sa →
  mcd_storage_add_account_from_plugin key_name self plugin (Some account)
  = (self, [G_CRITICAL "!g_hash_table_contains (self->accounts, account)"]).
Proof.
  unfold lookup_account, mcd_storage_add_account_from_plugin. intros Hsa.
  by rewrite bool_decide_eq_true_2 by (by rewrite Hsa).
Qed.

Lemma add_account_from_plugin_owners_kept self plugin account :
  owners_kept self
    (mcd_storage_add_account_from_plugin key_name self plugin account).1.
Proof.
  unfold mcd_storage_add_account_from_plugin.
  destruct account as [account|]; [|apply owners_kept_refl].
  case_bool_decide as Hin; [apply owners_kept_refl|].
  pose proof (write_backs_owners_kept (mcp_account_storage_get plugin account)
                (store_account self account (mcd_storage_account_new plugin))) as Hw.
  destruct (write_backs _ _ _) as [self1 evs]. simpl in *.
  eapply owners_kept_trans; [|done].
  apply owners_kept_store_fresh. unfold lookup_account.
  destruct (accounts self !! account) eqn:Hl; [|done]. destruct Hin. by eexists.
Qed.

Lemma add_accounts_from_plugin_owners_kept stored self plugin :
  owners_kept self (add_accounts_from_plugin key_name self plugin stored).1.
Proof.
  revert self. induction stored as [|name stored IH]; intros self;
    cbn -[mcd_storage_add_account_from_plugin]; [apply owners_kept_refl|].
  pose proof (add_account_from_plugin_owners_kept self plugin (Some name)) as Ha.
  destruct (mcd_storage_add_account_from_plugin _ _ _ _) as [self1 ev].
  specialize (IH self1).
  destruct (add_accounts_from_plugin key_name self1 plugin stored) as [self2 evs].
  by eapply owners_kept_trans.
Qed.

Lemma load_from_owners_kept visited self :
  owners_kept self (load_from key_name self visited).1.
Proof.
  revert self. induction visited as [|plugin visited IH]; intros self; simpl;
    [apply owners_kept_refl|].
  pose proof (add_accounts_from_plugin_owners_kept
                (mcp_account_storage_list plugin) self plugin) as Ha.
  destruct (add_accounts_from_plugin _ _ _ _) as [self1 ev].
  specialize (IH self1).
  destruct (load_from key_name self1 visited) as [self2 evs].
  by eapply owners_kept_trans.
Qed.

Lemma create_in_priority_order_owners_kept store self manager protocol identification :
  owners_kept self
    (create_in_priority_order key_name self store manager protocol identification).1.2.
Proof.
  induction store as [|plugin store IH];
    cbn -[mcd_storage_add_account_from_plugin]; [apply owners_kept_refl|].
  destruct (mcp_account_storage_create _ _ _ _ _) as [[account|] e].
  - pose proof (add_account_from_plugin_owners_kept self plugin (Some account)) as Ha.
    by destruct (mcd_storage_add_account_from_plugin _ _ _ _) as [self1 evs].
  - by destruct (create_in_priority_order _ _ _ _ _ _) as [[[a e'] self1] evs].
Qed.

Lemma create_account_owners_kept self stores provider manager protocol identification :
  owners_kept self
    (mcd_storage_create_account key_name self stores provider
       manager protocol identification).1.2.
Proof.
  unfold mcd_storage_create_account.
  destruct (tp_str_empty (Some manager)); [apply owners_kept_refl|].
  destruct (tp_str_empty (Some protocol)); [apply owners_kept_refl|].
  destruct provider as [provider|];
    [|by apply create_in_priority_order_owners_kept].
  destruct (List.find _ stores) as [plugin|]; [|apply owners_kept_refl].
  destruct (mcp_account_storage_create _ _ _ _ _) as [a e].
  pose proof (add_account_from_plugin_owners_kept self plugin a) as Ha.
  by destruct (mcd_storage_add_account_from_plugin key_name self plugin a).
Qed.

Lemma set_attribute_owners_kept self account attribute value :
  owners_kept self (mcd_storage_set_attribute self account attribute value).1.2.
Proof.
  unfold mcd_storage_set_attribute.
  destruct (g_str_has_prefix attribute "param-"); [apply owners_kept_refl|].
  destruct (lookup_account self account) as [sa|] eqn:Hsa; [|apply owners_kept_refl].
  destruct (negb _); [|apply owners_kept_refl]. by eapply owners_kept_store.
Qed.

Lemma set_parameter_owners_kept self account parameter value :
  owners_kept self (mcd_storage_set_parameter self account parameter value).1.2.
Proof.
  unfold mcd_storage_set_parameter.
  destruct (lookup_account self account) as [sa|] eqn:Hsa; [|apply owners_kept_refl].
  match goal with |- context [if ?b then _ else _] => destruct b end;
    [|apply owners_kept_refl].
  by eapply owners_kept_store.
Qed.

(** The loop over the names of a plugin steps over a name that is cached. *)
Lemma add_accounts_from_plugin_skips self plugin name stored sa :
  lookup_account self name = Some sa →
  add_accounts_from_plugin key_name self plugin (name :: stored)
  = ((add_accounts_from_plugin key_name self plugin stored).1,
     G_CRITICAL "!g_hash_table_contains (self->accounts, account)"
       :: (add_accounts_from_plugin key_name self plugin stored).2).
Proof.
  intros Hsa. cbn -[mcd_storage_add_account_from_plugin].
  rewrite (add_account_from_plugin_present _ _ _ _ Hsa).
  by destruct (add_accounts_from_plugin key_name self plugin stored).
Qed.

End Ownership.

Section DuplicateName.

Variable key_name : AccountsKey → string.

(** C4, as stated, fails: a plugin of priority 0 lists ["x"], a plugin of
    priority 100 lists ["x"] and ["y"].  Loading reports the second ["x"]
    as a critical message and goes on: the plugin is asked for ["y"],
    which is added to the cache.  The violation is not fatal. *)
Lemma C4_duplicate_name_counterexample :
  let low := listing_plugin "low" 0 ["x"] (λ _, []) in
  let high := listing_plugin "high" 100 ["x"; "y"] (λ _, []) in
  let stores := sort_and_cache_plugins low [high] in
  let loaded := mcd_storage_load example_key_name mcd_storage_init stores in
  loaded.2
  = [ MCP_list "low"; MCP_get "low" "x"; MCP_list "high";
      G_CRITICAL "!g_hash_table_contains (self->accounts, account)";
      MCP_get "high" "y" ]
  ∧ (mcp_account_storage_name ∘ storage <$> lookup_account loaded.1 "x") = Some "low"
  ∧ (mcp_account_storage_name ∘ storage <$> lookup_account loaded.1 "y") = Some "high"
  ∧ ¬ violation_is_fatal loaded.2.
Proof.
  intros low high stores loaded.
  assert (loaded.2
          = [ MCP_list "low"; MCP_get "low" "x"; MCP_list "high";
              G_CRITICAL "!g_hash_table_contains (self->accounts, account)";
              MCP_get "high" "y" ]) as Hevents by (by vm_compute).
  split; [done|]. split; [by vm_compute|]. split; [by vm_compute|].
  rewrite Hevents. intros Hfatal.
  by specialize (Hfatal [MCP_list "low"; MCP_get "low" "x"; MCP_list "high"]
                   (G_CRITICAL "!g_hash_table_contains (self->accounts, account)")
                   [MCP_get "high" "y"] eq_refl eq_refl).
Qed.

(** C4, amended: when a plugin reports an account name that is already in
    the cache, [mcd_storage_add_account_from_plugin] logs a critical
    message and returns: the cache is as it was, so the record and its
    owning plugin are untouched, and the plugin is not asked for the
    account.  The message is not fatal: the names the plugin lists after
    it are handled as if the name had not been listed.  No operation
    gives a cached record another owning plugin; a record leaves the
    cache only when its account is deleted. *)
Theorem C4_duplicate_name_refused_cache_untouched (self : McdStorage)
    (plugin : McpAccountStorage) (account : string) (sa : McdStorageAccount) :
  lookup_account self account = Some sa →
  mcd_storage_add_account_from_plugin key_name self plugin (Some account)
    = (self, [G_CRITICAL "!g_hash_table_contains (self->accounts, account)"])
  ∧ (∀ stored,
      add_accounts_from_plugin key_name self plugin (account :: stored)
      = ((add_accounts_from_plugin key_name self plugin stored).1,
         G_CRITICAL "!g_hash_table_contains (self->accounts, account)"
           :: (add_accounts_from_plugin key_name self plugin stored).2))
  ∧ (∀ op,
      match lookup_account (run key_name self op) account with
      | Some sa' => storage sa' = storage sa
      | None => op = Op_delete_account account
      end).
Proof.
  intros Hsa. split; [by eapply add_account_from_plugin_present|].
  split; [intros stored; by eapply add_accounts_from_plugin_skips|].
  intros op.
  assert (owners_kept self (run key_name self op) →
          match lookup_account (run key_name self op) account with
          | Some sa' => storage sa' = storage sa
          | None => op = Op_delete_account account
          end) as Hkept.
  { intros Hk. destruct (Hk account sa Hsa) as (sa' & -> & Hown). done. }
  destruct op as [a k v|a k v|w|p a|stores|stores provider m pr i|a]; simpl in *.
  - apply Hkept, set_attribute_owners_kept.
  - apply Hkept, set_parameter_owners_kept.
  - apply Hkept, write_back_owners_kept.
  - apply Hkept, add_account_from_plugin_owners_kept.
  - apply Hkept, load_from_owners_kept.
  - apply Hkept, create_account_owners_kept.
  - unfold mcd_storage_delete_account.
    destruct (lookup_account self a) as [sa0|] eqn:Hsa0; simpl.
    + unfold lookup_account in *. simpl. rewrite lookup_delete.
      case_decide as Heq; [by subst|]. by rewrite Hsa.
    + by rewrite Hsa.
Qed.

End DuplicateName.

(** ** Creating an account without a provider (C6) *)

Section Create.

Variable key_name : AccountsKey → string.

(** The first plugin of a list that can create the account. *)
Lemma first_creator (store : list McpAccountStorage) (creates : McpAccountStorage → bool) :
  (∃ p, In p store ∧ creates p = true) →
  ∃ refused creator rest,
    store = refused ++ creator :: rest
    ∧ Forall (λ p, creates p = false) refused
    ∧ creates creator = true.
Proof.
  induction store as [|x store IH]; intros (p & Hin & Hp); [done|].
  destruct (creates x) eqn:Hx.
  - by exists [], x, store.
  - destruct IH as (refused & creator & rest & -> & Hrefused & Hcreator).
    { destruct Hin as [->|Hin]; [congruence|]. by exists p. }
    exists (x :: refused), creator, rest. split; [done|]. split; [|done].
    by constructor.
Qed.

Lemma create_in_priority_order_first refused creator rest self
    manager protocol identification name error :
  Forall (λ p, (mcp_account_storage_create p (dom (accounts self))
                  manager protocol identification).1 = None) refused →
  mcp_account_storage_create creator (dom (accounts self))
    manager protocol identification = (Some name, error) →
  create_in_priority_order key_name self (refused ++ creator :: rest)
    manager protocol identification
  = (Some name, error,
     (mcd_storage_add_account_from_plugin key_name self creator (Some name)).1,
     ((λ p, MCP_create (mcp_account_storage_name p) None) <$> refused)
       ++ MCP_create (mcp_account_storage_name creator) (Some name)
       :: (mcd_storage_add_account_from_plugin key_name self creator (Some name)).2).
Proof.
  intros Hrefused Hcreator.
  induction Hrefused as [|p refused Hp Hrefused IH];
    cbn -[mcd_storage_add_account_from_plugin].
  - rewrite Hcreator.
    by destruct (mcd_storage_add_account_from_plugin _ _ _ _).
  - destruct (mcp_account_storage_create p _ _ _ _) as [[a|] e]; [done|].
    by rewrite IH.
Qed.

Lemma Sorted_app_priority refused creator rest :
  Sorted by_descending_priority (refused ++ creator :: rest) →
  Forall (λ p, mcp_account_storage_priority creator <= mcp_account_storage_priority p)
    refused.
Proof.
  intros Hsorted. apply Sorted_StronglySorted in Hsorted.
  - induction refused as [|x refused IH]; [done|].
    simpl in Hsorted. inversion Hsorted as [|? ? Hs Hall]; subst.
    constructor; [|by apply IH].
    rewrite Forall_forall in Hall. apply (Hall creator).
    apply list_elem_of_In, in_or_app. right. by left.
  - intros x y z. unfold by_descending_priority. lia.
Qed.

(** In a registry in descending order, what follows a plugin has at most
    its priority. *)
Lemma Sorted_app_rest refused creator rest :
  Sorted by_descending_priority (refused ++ creator :: rest) →
  Forall (λ p, mcp_account_storage_priority p <= mcp_account_storage_priority creator)
    rest.
Proof.
  intros Hsorted. apply Sorted_StronglySorted in Hsorted.
  - induction refused as [|x refused IH].
    + simpl in Hsorted. by inversion Hsorted.
    + simpl in Hsorted. inversion Hsorted. by apply IH.
  - intros x y z. unfold by_descending_priority. lia.
Qed.

(** The plugins asked are the head of the registry: a registered plugin
    of a higher priority than one that was asked was asked before it. *)
Lemma higher_priority_asked_before asked rest p q :
  Sorted by_descending_priority (asked ++ rest) →
  In p (asked ++ rest) →
  In q asked →
  mcp_account_storage_priority q < mcp_account_storage_priority p →
  appears_before p q asked.
Proof.
  intros Hsorted Hp Hq Hlt. apply Sorted_StronglySorted in Hsorted;
    [|intros x y z; unfold by_descending_priority; lia].
  induction asked as [|x asked IH]; [done|].
  simpl in Hsorted. inversion Hsorted as [|? ? Hs Hall]; subst.
  rewrite Forall_forall in Hall. unfold by_descending_priority in Hall.
  destruct Hq as [->|Hq].
  - destruct Hp as [->|Hp]; [lia|].
    apply list_elem_of_In, Hall in Hp. lia.
  - destruct Hp as [->|Hp]; [by apply appears_before_head|].
    by apply appears_before_cons, IH.
Qed.

(** C6: the registry [sort_and_cache_plugins] builds holds the default
    backend and every loaded plugin, in descending order of priority.
    [mcd_storage_create_account] without a provider walks it from its
    head: the plugins that return no name are asked one after the other
    and their errors dropped; the first plugin that returns a name ends
    the walk, the account is added to the cache under that plugin and its
    name returned, with what that plugin left as error.  Every registered
    plugin of a higher priority than the creator was asked and returned
    no name, and of two registered plugins of different priorities the
    one with the lower priority is never asked before the other.  With
    the default backend registered, a plugin that returns a name exists. *)
Theorem C6_create_account_first_able_plugin (default : McpAccountStorage)
    (objects : list McpAccountStorage) (self : McdStorage)
    (manager protocol identification : string) :
  default_backend default →
  manager ≠ "" → protocol ≠ "" →
  let stores := sort_and_cache_plugins default objects in
  let names := dom (accounts self) in
  Permutation stores (default :: objects)
  ∧ Sorted by_descending_priority stores
  ∧ ∃ refused creator rest name error,
      stores = refused ++ creator :: rest
      ∧ Forall (λ p, (mcp_account_storage_create p names
                        manager protocol identification).1 = None
                     ∧ mcp_account_storage_priority creator
                       <= mcp_account_storage_priority p) refused
      ∧ mcp_account_storage_create creator names manager protocol identification
        = (Some name, error)
      ∧ (∀ p, In p (default :: objects) →
              mcp_account_storage_priority creator < mcp_account_storage_priority p →
              In p refused)
      ∧ (∀ p q, In p (default :: objects) →
                In q (refused ++ [creator]) →
                mcp_account_storage_priority q < mcp_account_storage_priority p →
                appears_before p q (refused ++ [creator]))
      ∧ mcd_storage_create_account key_name self stores None
          manager protocol identification
        = (Some name, error,
           (mcd_storage_add_account_from_plugin key_name self creator (Some name)).1,
           ((λ p, MCP_create (mcp_account_storage_name p) None) <$> refused)
             ++ MCP_create (mcp_account_storage_name creator) (Some name)
             :: (mcd_storage_add_account_from_plugin key_name self creator
                   (Some name)).2).
Proof.
  intros Hdefault Hmanager Hprotocol stores names.
  assert (Sorted by_descending_priority stores) as Hsorted.
  { apply add_storage_plugins_Sorted. constructor. }
  assert (Permutation stores (default :: objects)) as Hperm.
  { unfold stores, sort_and_cache_plugins.
    rewrite (add_storage_plugins_Permutation (default :: objects) []).
    by rewrite app_nil_r. }
  split; [done|]. split; [done|].
  destruct (first_creator stores
              (λ p, bool_decide
                      ((mcp_account_storage_create p names
                          manager protocol identification).1 ≠ None)))
    as (refused & creator & rest & Hstores & Hrefused & Hcreator).
  { exists default. split; [eapply Permutation_in; [symmetry; exact Hperm|by left]|].
    destruct (Hdefault names manager protocol identification) as [account ->].
    by apply bool_decide_eq_true_2. }
  apply bool_decide_eq_true_1 in Hcreator.
  destruct (mcp_account_storage_create creator names manager protocol identification)
    as [[name|] error] eqn:Hname; [|done].
  exists refused, creator, rest, name, error.
  assert (Forall (λ p, (mcp_account_storage_create p names
                          manager protocol identification).1 = None) refused)
    as Hnone.
  { rewrite Forall_forall in *. intros p Hp. specialize (Hrefused p Hp).
    apply bool_decide_eq_false_1 in Hrefused.
    by destruct (mcp_account_storage_create p names manager protocol identification).1;
      [destruct Hrefused|]. }
  split; [done|]. split.
  { rewrite Hstores in Hsorted. apply Sorted_app_priority in Hsorted.
    rewrite Forall_forall in *. intros p Hp. split; [by apply Hnone|by apply Hsorted]. }
  split; [done|]. split.
  { intros p Hp Hlt. eapply Permutation_in in Hp; [|symmetry; exact Hperm].
    rewrite Hstores in Hp, Hsorted. apply in_app_or in Hp as [Hp|[->|Hp]];
      [done|lia|].
    apply Sorted_app_rest in Hsorted. rewrite Forall_forall in Hsorted.
    apply list_elem_of_In, Hsorted in Hp. lia. }
  split.
  { intros p q Hp Hq Hlt. eapply Permutation_in in Hp; [|symmetry; exact Hperm].
    rewrite Hstores in Hp, Hsorted.
    change (creator :: rest) with ([creator] ++ rest) in Hp, Hsorted.
    rewrite app_assoc in Hp, Hsorted.
    by apply (higher_priority_asked_before _ rest). }
  unfold mcd_storage_create_account, tp_str_empty.
  rewrite !bool_decide_eq_false_2 by done.
  rewrite Hstores. by apply create_in_priority_order_first.
Qed.

End Create.

(** ** The calls made on the owning plugin (C7) *)

Section Dispatch.

Lemma param_key_prefix parameter :
  g_str_has_prefix (param_key parameter) "param-" = true.
Proof. reflexivity. Qed.

(** A write of an attribute that changes the cache, when the value has an
    escaped form or there is no value: the calls are the preferred ones. *)
Lemma set_attribute_dispatch self account attribute value sa :
  lookup_account self account = Some sa →
  g_str_has_prefix attribute "param-" = false →
  mcd_nullable_variant_equal (cached_attribute self account attribute)
    (dbus_g_value_build_g_variant <$> value) = false →
  (∀ v, value = Some v → is_Some (mcd_keyfile_escape_value v)) →
  (mcd_storage_set_attribute self account attribute value).2
  = preferred_dispatch (storage sa) account attribute false
      (dbus_g_value_build_g_variant <$> value)
      (default "" (value ≫= mcd_keyfile_escape_value)).
Proof.
  intros Hsa Hprefix Hdiff Hescapable.
  unfold cached_attribute in Hdiff. rewrite Hsa in Hdiff. simpl in Hdiff.
  unfold mcd_storage_set_attribute.
  rewrite Hprefix, Hsa, Hdiff. simpl.
  unfold update_storage, lookup_account, store_account. simpl.
  rewrite lookup_insert_eq, Hprefix. simpl.
  destruct value as [v|]; simpl; [|done].
  destruct (Hescapable v eq_refl) as [escaped ->]. simpl.
  by destruct (mcp_account_storage_set_attribute _ _ _ _).
Qed.

Lemma set_parameter_dispatch self account parameter value sa :
  lookup_account self account = Some sa →
  parameter_differs self account parameter value = true →
  (∀ v, value = Some v → is_Some (mcd_keyfile_escape_value v)) →
  (mcd_storage_set_parameter self account parameter value).2
  = preferred_dispatch (storage sa) account (param_key parameter) true
      (dbus_g_value_build_g_variant <$> value)
      (default "" (value ≫= mcd_keyfile_escape_value)).
Proof.
  intros Hsa Hdiff Hescapable.
  rewrite (set_parameter_unfold _ _ _ _ sa Hsa), Hdiff. cbv beta iota zeta.
  unfold update_storage, lookup_account, store_account. cbn [snd accounts].
  rewrite lookup_insert_eq, param_key_prefix. cbn [storage parameter_written].
  destruct value as [v|]; simpl; [|done].
  destruct (Hescapable v eq_refl) as [escaped ->]. simpl.
  by destruct (mcp_account_storage_set_parameter _ _ _ _).
Qed.

(** C7 fails on a value that has no escaped form.  A parameter whose value
    is a byte array is cached as a typed value, and the owning plugin,
    which implements the typed call, is told to delete the key: the test
    of [update_storage] for a deletion is that the escaped string is
    absent, and [mcd_keyfile_set_variant] has no escaped string for an
    array that is neither [as] nor [ao]. *)
Theorem C7_value_without_escaped_form_is_deleted :
  let owner := typed_plugin "owner" 0 in
  let self := store_account mcd_storage_init "acct" (mcd_storage_account_new owner) in
  let bytes := GV_other "ay" "abc" in
  let value := {| G_VALUE_TYPE := G_TYPE_OTHER "ay"; g_value_content := bytes |} in
  let '(changed, written, events) :=
    mcd_storage_set_parameter self "acct" "p" (Some value) in
  changed = true
  ∧ cached_parameter written "acct" "p" = Some bytes
  ∧ events = [MCP_delete "owner" "acct" (Some "param-p")]
  ∧ events ≠ preferred_dispatch owner "acct" "param-p" true (Some bytes) "".
Proof. by vm_compute. Qed.

End Dispatch.

(** ** Numbers written and read back *)

Section Decimal.

Lemma append_nil_l (t : string) : "" +:+ t = t.
Proof. reflexivity. Qed.

Lemma append_cons (c : ascii) (s t : string) : String c s +:+ t = String c (s +:+ t).
Proof. reflexivity. Qed.

Lemma append_nil_r (s : string) : s +:+ "" = s.
Proof. induction s as [|c s IH]; [done|]. by rewrite append_cons, IH. Qed.

Lemma append_assoc (a b c : string) : (a +:+ b) +:+ c = a +:+ (b +:+ c).
Proof. induction a as [|x a IH]; [done|]. by rewrite !append_cons, IH. Qed.

Lemma string_snoc_append (s : string) (c : ascii) (t : string) :
  string_snoc s c +:+ t = s +:+ String c t.
Proof. unfold string_snoc. by rewrite append_assoc. Qed.

Lemma byte_digit_char d : 0 <= d <= 9 → byte (digit_char d) = 48 + d.
Proof.
  intros Hd.
  assert (d = 0 ∨ d = 1 ∨ d = 2 ∨ d = 3 ∨ d = 4 ∨ d = 5 ∨ d = 6 ∨ d = 7
          ∨ d = 8 ∨ d = 9) as Hcases by lia.
  repeat (destruct Hcases as [->|Hcases]; [reflexivity|]). by subst.
Qed.

Lemma isdigit_digit_char d : 0 <= d <= 9 → g_ascii_isdigit (digit_char d) = true.
Proof.
  intros Hd. unfold g_ascii_isdigit. rewrite byte_digit_char by done.
  apply andb_true_intro. split; apply Z.leb_le; lia.
Qed.

Lemma isspace_digit_char d : 0 <= d <= 9 → g_ascii_isspace (digit_char d) = false.
Proof.
  intros Hd. unfold g_ascii_isspace. rewrite byte_digit_char by done.
  repeat (apply orb_false_intro; [|apply Z.eqb_neq; lia]). apply Z.eqb_neq. lia.
Qed.

Lemma parse_digits_digit d rest acc :
  0 <= d <= 9 →
  parse_digits (String (digit_char d) rest) acc = parse_digits rest (acc * 10 + d).
Proof.
  intros Hd. simpl. rewrite isdigit_digit_char, byte_digit_char by done.
  f_equal. lia.
Qed.

(** The digit loop reads back what [utoa] wrote. *)
Lemma parse_digits_utoa fuel n :
  0 <= n < 10 ^ Z.of_nat fuel →
  ∃ P, ∀ acc rest,
    parse_digits (utoa fuel n +:+ rest) acc = parse_digits rest (acc * P + n).
Proof.
  revert n. induction fuel as [|fuel IH]; intros n Hn.
  - exists 1. intros acc rest. simpl. rewrite append_nil_l. f_equal.
    change (10 ^ Z.of_nat 0) with 1 in Hn. lia.
  - simpl utoa. destruct (Z.ltb_spec n 10) as [Hlt|Hge].
    + exists 10. intros acc rest. rewrite append_cons, append_nil_l.
      apply parse_digits_digit. lia.
    + destruct (IH (n / 10)) as [P HP].
      { rewrite Nat2Z.inj_succ, Z.pow_succ_r in Hn by lia.
        split; [apply Z.div_pos; lia|]. apply Z.div_lt_upper_bound; lia. }
      exists (P * 10). intros acc rest.
      rewrite append_assoc, append_cons, append_nil_l, HP.
      pose proof (Z.mod_pos_bound n 10).
      rewrite parse_digits_digit by lia.
      f_equal. pose proof (Z.div_mod n 10). lia.
Qed.

(** What [utoa] writes starts with a digit. *)
Lemma utoa_head fuel n :
  0 <= n → ∃ d r, 0 <= d <= 9 ∧ utoa (S fuel) n = String (digit_char d) r.
Proof.
  revert n. induction fuel as [|fuel IH]; intros n Hn.
  - simpl. destruct (Z.ltb_spec n 10).
    + exists n, "". split; [lia|done].
    + exists (n mod 10), "". split; [pose proof (Z.mod_pos_bound n 10); lia|done].
  - change (utoa (S (S fuel)) n)
      with (if n <? 10 then String (digit_char n) ""
            else utoa (S fuel) (n / 10) +:+ String (digit_char (n mod 10)) "").
    destruct (Z.ltb_spec n 10).
    + exists n, "". split; [lia|done].
    + destruct (IH (n / 10)) as (d & r & Hd & ->); [apply Z.div_pos; lia|].
      exists d, (r +:+ String (digit_char (n mod 10)) ""). by rewrite append_cons.
Qed.

Lemma parse_digits_utoa_all n :
  0 <= n < 10 ^ 20 → parse_digits (utoa 20 n) 0 = (n, "").
Proof.
  intros Hn. destruct (parse_digits_utoa 20 n) as [P HP]; [done|].
  specialize (HP 0 ""). rewrite append_nil_r in HP. rewrite HP.
  change (parse_digits "" (0 * P + n)) with (0 * P + n, ""). f_equal; lia.
Qed.

Lemma parse_long_long_utoa n :
  0 <= n < 10 ^ 20 →
  parse_long_long (utoa 20 n)
  = {| st_negative := false; st_magnitude := n; st_end := "" |}.
Proof.
  intros Hn. destruct (utoa_head 19 n) as (d & r & Hd & Hhead); [apply Hn|].
  pose proof (parse_digits_utoa_all n Hn) as HP.
  unfold parse_long_long. revert HP. rewrite Hhead. intros HP.
  change (skip_space (String (digit_char d) r))
    with (if g_ascii_isspace (digit_char d) then skip_space r
          else String (digit_char d) r).
  rewrite isspace_digit_char by done.
  assert (Ascii.eqb (digit_char d) "-" = false) as ->.
  { apply Ascii.eqb_neq. intros Heq. pose proof (byte_digit_char d Hd) as Hb.
    rewrite Heq in Hb. change (byte "-") with 45 in Hb. lia. }
  assert (Ascii.eqb (digit_char d) "+" = false) as ->.
  { apply Ascii.eqb_neq. intros Heq. pose proof (byte_digit_char d Hd) as Hb.
    rewrite Heq in Hb. change (byte "+") with 43 in Hb. lia. }
  rewrite HP. by rewrite bool_decide_eq_false_2.
Qed.

Lemma parse_long_long_negative n :
  0 < n < 10 ^ 20 →
  parse_long_long (String "-" (utoa 20 n))
  = {| st_negative := true; st_magnitude := n; st_end := "" |}.
Proof.
  intros [Hn0 Hn1]. destruct (utoa_head 19 n) as (d & r & Hd & Hhead); [lia|].
  pose proof (parse_digits_utoa_all n (conj (Z.lt_le_incl _ _ Hn0) Hn1)) as HP.
  unfold parse_long_long.
  change (skip_space (String "-" (utoa 20 n))) with (String "-" (utoa 20 n)).
  cbv beta iota zeta. change (Ascii.eqb "-" "-") with true. cbv beta iota.
  rewrite HP. rewrite Hhead. by rewrite bool_decide_eq_false_2.
Qed.

Lemma g_ascii_strtoull_printf_u n :
  0 <= n <= G_MAXUINT64 → g_ascii_strtoull (printf_u n) = (n, "", false).
Proof.
  unfold G_MAXUINT64. intros Hn. unfold g_ascii_strtoull, printf_u.
  rewrite parse_long_long_utoa by lia. simpl.
  destruct (Z.ltb_spec G_MAXUINT64 n) as [Hlt|]; [|done].
  unfold G_MAXUINT64 in Hlt. lia.
Qed.

Lemma g_ascii_strtoll_printf_d n :
  G_MININT64 <= n <= G_MAXINT64 → g_ascii_strtoll (printf_d n) = (n, "", false).
Proof.
  unfold G_MININT64, G_MAXINT64. intros Hn. unfold g_ascii_strtoll, printf_d.
  destruct (Z.ltb_spec n 0) as [Hneg|Hpos].
  - rewrite parse_long_long_negative by lia. simpl.
    destruct (Z.ltb_spec (2 ^ 63) (- n)) as [Hlt|]; [lia|].
    simpl. f_equal. f_equal. lia.
  - rewrite parse_long_long_utoa by lia. simpl.
    destruct (Z.ltb_spec G_MAXINT64 n) as [Hlt|]; [|done].
    unfold G_MAXINT64 in Hlt. lia.
Qed.

Lemma printf_u_not_empty n : 0 <= n → printf_u n ≠ "".
Proof.
  intros Hn. unfold printf_u.
  by destruct (utoa_head 19 n Hn) as (d & r & _ & ->).
Qed.

Lemma printf_d_not_empty n : printf_d n ≠ "".
Proof.
  unfold printf_d. destruct (n <? 0) eqn:Hneg; [done|].
  apply printf_u_not_empty. by apply Z.ltb_ge.
Qed.

Lemma g_key_file_parse_value_as_integer_printf_d n :
  G_MININT <= n <= G_MAXINT → g_key_file_parse_value_as_integer (printf_d n) = Ok n.
Proof.
  unfold G_MININT, G_MAXINT. intros Hn. unfold g_key_file_parse_value_as_integer, strtol.
  rewrite g_ascii_strtoll_printf_d by (unfold G_MININT64, G_MAXINT64; lia).
  rewrite bool_decide_eq_false_2 by apply printf_d_not_empty. simpl.
  destruct (Z.leb_spec G_MININT n) as [|Hlt]; [|unfold G_MININT in Hlt; lia].
  destruct (Z.leb_spec n G_MAXINT) as [|Hlt]; [done|unfold G_MAXINT in Hlt; lia].
Qed.

(** A byte is written with ["%u"] and read with [g_key_file_get_integer]. *)
Lemma g_key_file_parse_value_as_integer_printf_u n :
  0 <= n <= G_MAXINT → g_key_file_parse_value_as_integer (printf_u n) = Ok n.
Proof.
  intros Hn. rewrite <- (g_key_file_parse_value_as_integer_printf_d n).
  - unfold printf_d. by rewrite (proj2 (Z.ltb_ge n 0)) by lia.
  - unfold G_MININT. lia.
Qed.

End Decimal.

(** ** Strings written and read back *)

Section Escaping.

Lemma g_utf8_validate_ascii c r :
  0 < byte c < 128 → g_utf8_validate (String c r) = g_utf8_validate r.
Proof.
  intros Hc. cbn [g_utf8_validate]. cbv zeta.
  destruct (Z.eqb_spec (byte c) 0); [lia|].
  by destruct (Z.ltb_spec (byte c) 128); [|lia].
Qed.

Lemma continuation_byte_high c : continuation_byte c = true → (128 <=? byte c) = true.
Proof. destruct c as [[] [] [] [] [] [] [] []]; by vm_compute. Qed.

Lemma eqb_high_low c x : 128 <= byte c → byte x < 128 → Ascii.eqb c x = false.
Proof. intros Hc Hx. apply Ascii.eqb_neq. intros ->. lia. Qed.

(** A byte of a multi-byte sequence is written as it is. *)
Lemma parse_string_as_value_from_high es pls c r :
  128 <= byte c →
  parse_string_as_value_from list_separator es pls (String c r)
  = String c (parse_string_as_value_from list_separator es false r).
Proof.
  intros Hc. cbn [parse_string_as_value_from].
  rewrite !(eqb_high_low c) by (done || (vm_compute; congruence)).
  by rewrite andb_false_r.
Qed.

(** What an ASCII character is written as: one or two ASCII characters. *)
Lemma parse_string_as_value_from_ascii es pls c r :
  0 < byte c < 128 →
  ∃ pls', ∀ tail,
    g_utf8_validate
      (parse_string_as_value_from list_separator es pls (String c r) +:+ tail)
    = g_utf8_validate
        (parse_string_as_value_from list_separator es pls' r +:+ tail).
Proof.
  intros Hc. cbn [parse_string_as_value_from].
  assert (∀ x y X, 0 < byte x < 128 → 0 < byte y < 128 →
            g_utf8_validate (String x (String y X)) = g_utf8_validate X) as H2.
  { intros x y X Hx Hy. by rewrite !g_utf8_validate_ascii. }
  destruct (Ascii.eqb c " "); [destruct pls|].
  { exists true. intros tail. rewrite !append_cons, append_nil_l.
    by apply H2; vm_compute. }
  { exists false. intros tail. rewrite append_cons. by apply g_utf8_validate_ascii. }
  destruct (Ascii.eqb c "009"); [destruct pls|].
  { exists true. intros tail. rewrite !append_cons, append_nil_l.
    by apply H2; vm_compute. }
  { exists false. intros tail. rewrite append_cons. by apply g_utf8_validate_ascii. }
  destruct (Ascii.eqb c "010").
  { exists pls. intros tail. rewrite !append_cons, append_nil_l.
    by apply H2; vm_compute. }
  destruct (Ascii.eqb c "013").
  { exists pls. intros tail. rewrite !append_cons, append_nil_l.
    by apply H2; vm_compute. }
  destruct (Ascii.eqb c "\").
  { exists false. intros tail. rewrite !append_cons, append_nil_l.
    by apply H2; vm_compute. }
  destruct (es && Ascii.eqb c list_separator).
  { exists true. intros tail. rewrite !append_cons.
    by apply H2; vm_compute. }
  exists false. intros tail. rewrite append_cons. by apply g_utf8_validate_ascii.
Qed.

(** The checks of a multi-byte sequence, split and used as rewrites. *)
Ltac split_checks :=
  repeat match goal with
         | H : _ && _ = true |- _ => apply andb_prop in H as [? ?]
         end;
  repeat match goal with
         | H : continuation_byte ?x = true |- _ =>
             lazymatch goal with
             | _ : 128 <= byte x |- _ => fail
             | _ => pose proof (proj1 (Z.leb_le _ _) (continuation_byte_high x H))
             end
         end.

Ltac replay_checks :=
  cbn [g_utf8_validate]; cbv zeta;
  repeat match goal with
         | H : ?b = true |- context [?b] => rewrite H
         | H : ?b = false |- context [?b] => rewrite H
         end.

(** Escaping keeps a string in UTF-8, whatever valid text follows it. *)
Lemma g_utf8_validate_escaped es n :
  ∀ s pls tail,
    (String.length s <= n)%nat →
    g_utf8_validate s = true →
    g_utf8_validate tail = true →
    g_utf8_validate (parse_string_as_value_from list_separator es pls s +:+ tail)
    = true.
Proof.
  induction n as [|n IH]; intros s pls tail Hlen Hs Htail.
  { destruct s; [done|simpl in Hlen; lia]. }
  destruct s as [|c r]; [done|].
  cbn [g_utf8_validate] in Hs. cbv zeta in Hs.
  destruct (byte c =? 0) eqn:Hnz; [done|].
  destruct (byte c <? 128) eqn:Hascii.
  { destruct (parse_string_as_value_from_ascii es pls c r) as [pls' ->].
    - apply Z.eqb_neq in Hnz. apply Z.ltb_lt in Hascii. unfold byte in *. lia.
    - apply IH; [simpl in Hlen; lia|done..]. }
  assert (128 <= byte c) as Hhigh by (by apply Z.ltb_ge).
  rewrite parse_string_as_value_from_high by done.
  destruct (Z.land (byte c) 224 =? 192) eqn:H2.
  { destruct (Z.land (byte c) 30 =? 0) eqn:Hover; [done|].
    destruct r as [|c1 r1]; [done|]. split_checks.
    rewrite parse_string_as_value_from_high, !append_cons by done.
    replay_checks. apply IH; [simpl in Hlen; lia|done..]. }
  destruct (Z.land (byte c) 240 =? 224) eqn:H3.
  { destruct r as [|c1 [|c2 r2]]; [done..|]. split_checks.
    rewrite !parse_string_as_value_from_high, !append_cons by done.
    replay_checks. apply IH; [simpl in Hlen; lia|done..]. }
  destruct (Z.land (byte c) 248 =? 240) eqn:H4; [|done].
  destruct r as [|c1 [|c2 [|c3 r3]]]; [done..|]. split_checks.
  rewrite !parse_string_as_value_from_high, !append_cons by done.
  replay_checks. apply IH; [simpl in Hlen; lia|done..].
Qed.

Lemma g_utf8_validate_utoa fuel n tail :
  0 <= n → g_utf8_validate tail = true → g_utf8_validate (utoa fuel n +:+ tail) = true.
Proof.
  revert n tail. induction fuel as [|fuel IH]; intros n tail Hn Htail; [done|].
  assert (∀ d X, 0 <= d <= 9 →
            g_utf8_validate (String (digit_char d) X) = g_utf8_validate X) as Hdigit.
  { intros d X Hd. apply g_utf8_validate_ascii. rewrite byte_digit_char by done. lia. }
  simpl utoa. destruct (Z.ltb_spec n 10).
  - rewrite append_cons, append_nil_l, Hdigit by lia. done.
  - rewrite append_assoc, append_cons, append_nil_l.
    apply IH; [apply Z.div_pos; lia|].
    pose proof (Z.mod_pos_bound n 10). rewrite Hdigit by lia. done.
Qed.

(** Reading back one escaped string, followed by [tail].  [flag] is both
    [escape_separator] of the writer and [pieces] of the reader, as in
    [g_key_file_set_string] and [g_key_file_get_string] ([FALSE]) and in
    the list functions ([TRUE]). *)
Lemma parse_value_as_string_from_escaped flag :
  ∀ s pls tail whole cur found,
    parse_value_as_string_from list_separator flag
      (parse_string_as_value_from list_separator flag pls s +:+ tail) whole cur found
    = parse_value_as_string_from list_separator flag tail
        (whole +:+ s) (cur +:+ s) found.
Proof.
  induction s as [|c r IH]; intros pls tail whole cur found.
  { by rewrite append_nil_l, !append_nil_r. }
  cbn [parse_string_as_value_from].
  assert (whole +:+ String c r = string_snoc whole c +:+ r) as ->
    by (by rewrite string_snoc_append).
  assert (cur +:+ String c r = string_snoc cur c +:+ r) as ->
    by (by rewrite string_snoc_append).
  destruct (Ascii.eqb_spec c " ") as [->|Hsp].
  { destruct pls; rewrite ?append_cons, ?append_nil_l; cbn [parse_value_as_string_from];
      change (Ascii.eqb " " "\") with false; cbv beta iota;
      change (Ascii.eqb " " list_separator) with false;
      rewrite ?andb_false_r; apply IH. }
  destruct (Ascii.eqb_spec c "009") as [->|Htab].
  { destruct pls; rewrite ?append_cons, ?append_nil_l; cbn [parse_value_as_string_from];
      change (Ascii.eqb "009" "\") with false; cbv beta iota;
      change (Ascii.eqb "009" list_separator) with false;
      rewrite ?andb_false_r; apply IH. }
  destruct (Ascii.eqb_spec c "010") as [->|Hnl].
  { rewrite ?append_cons, ?append_nil_l. cbn [parse_value_as_string_from]. apply IH. }
  destruct (Ascii.eqb_spec c "013") as [->|Hcr].
  { rewrite ?append_cons, ?append_nil_l. cbn [parse_value_as_string_from]. apply IH. }
  destruct (Ascii.eqb_spec c "\") as [->|Hbs].
  { rewrite ?append_cons, ?append_nil_l. cbn [parse_value_as_string_from]. apply IH. }
  destruct (flag && Ascii.eqb c list_separator) eqn:Hsep.
  { apply andb_prop in Hsep as [-> Hsep]. apply Ascii.eqb_eq in Hsep as ->.
    rewrite !append_cons. cbn [parse_value_as_string_from]. apply IH. }
  rewrite append_cons. cbn [parse_value_as_string_from].
  rewrite (proj2 (Ascii.eqb_neq c "\")) by done. rewrite Hsep. apply IH.
Qed.

Lemma g_key_file_parse_value_as_string_escaped s :
  g_key_file_parse_value_as_string list_separator
    (g_key_file_parse_string_as_value list_separator s false) false
  = Ok (s, []).
Proof.
  unfold g_key_file_parse_value_as_string, g_key_file_parse_string_as_value.
  rewrite <- (append_nil_r (parse_string_as_value_from _ _ _ _)).
  by rewrite parse_value_as_string_from_escaped.
Qed.

Lemma parse_string_list_value l :
  ∀ whole found,
    ∃ w, parse_value_as_string_from list_separator true (string_list_value l)
           whole "" found
         = Ok (w, rev found ++ l).
Proof.
  induction l as [|s l IH]; intros whole found.
  - exists whole. simpl. by rewrite app_nil_r.
  - cbn [string_list_value]. unfold g_key_file_parse_string_as_value.
    rewrite parse_value_as_string_from_escaped. cbn [parse_value_as_string_from].
    change (Ascii.eqb list_separator "\") with false. cbv beta iota.
    change (true && Ascii.eqb list_separator list_separator) with true. cbv beta iota.
    destruct (IH (string_snoc (whole +:+ s) list_separator) (("" +:+ s) :: found))
      as [w ->].
    exists w. rewrite append_nil_l. simpl. by rewrite <- app_assoc.
Qed.

Lemma g_key_file_parse_value_as_string_list l :
  ∃ w, g_key_file_parse_value_as_string list_separator (string_list_value l) true
       = Ok (w, l).
Proof.
  unfold g_key_file_parse_value_as_string.
  destruct (parse_string_list_value l "" []) as [w ->]. by exists w.
Qed.

Lemma g_utf8_validate_string_list_value l :
  forallb g_utf8_validate l = true → g_utf8_validate (string_list_value l) = true.
Proof.
  induction l as [|s l IH]; [done|]. cbn [forallb string_list_value].
  intros [Hs Hl]%andb_prop. unfold g_key_file_parse_string_as_value.
  apply (g_utf8_validate_escaped true (String.length s)); [done..|].
  rewrite g_utf8_validate_ascii by (by vm_compute). by apply IH.
Qed.

Lemma g_utf8_validate_parse_string_as_value s es :
  g_utf8_validate s = true →
  g_utf8_validate (g_key_file_parse_string_as_value list_separator s es) = true.
Proof.
  intros Hs. unfold g_key_file_parse_string_as_value.
  rewrite <- (append_nil_r (parse_string_as_value_from _ _ _ _)).
  by apply (g_utf8_validate_escaped es (String.length s)).
Qed.

(** *** The key-file accessors *)

Lemma g_key_file_get_set_string kf group key s :
  g_utf8_validate s = true →
  g_key_file_get_string (g_key_file_set_string kf group key s) group key = Ok s.
Proof.
  intros Hs. unfold g_key_file_get_string, g_key_file_set_string,
    g_key_file_get_value, g_key_file_set_value.
  rewrite lookup_insert_eq. unfold Ok at 1. cbv beta iota.
  rewrite g_utf8_validate_parse_string_as_value by done.
  by rewrite g_key_file_parse_value_as_string_escaped.
Qed.

Lemma g_key_file_get_set_string_list kf group key l :
  forallb g_utf8_validate l = true →
  g_key_file_get_string_list (g_key_file_set_string_list kf group key l) group key
  = Ok l.
Proof.
  intros Hl. unfold g_key_file_get_string_list, g_key_file_set_string_list,
    g_key_file_get_value, g_key_file_set_value.
  rewrite lookup_insert_eq. unfold Ok at 1. cbv beta iota.
  rewrite g_utf8_validate_string_list_value by done.
  by destruct (g_key_file_parse_value_as_string_list l) as [w ->].
Qed.

End Escaping.

(** ** Escaping a value and decoding it (C2) *)

Section RoundTrip.

Lemma all_digits_app a b : all_digits a = true → all_digits b = true →
  all_digits (a +:+ b) = true.
Proof.
  intros Ha Hb. induction a as [|c a IH]; [done|]. rewrite append_cons.
  simpl in *. apply andb_prop in Ha as [-> Ha]. by apply IH.
Qed.

Lemma all_digits_utoa fuel n : 0 <= n → all_digits (utoa fuel n) = true.
Proof.
  revert n. induction fuel as [|fuel IH]; intros n Hn; [done|].
  simpl utoa. pose proof (Z.mod_pos_bound n 10). destruct (Z.ltb_spec n 10).
  - simpl. by rewrite isdigit_digit_char by lia.
  - apply all_digits_app; [apply IH, Z.div_pos; lia|].
    simpl. by rewrite isdigit_digit_char by lia.
Qed.

(** A string of digits is stored as it is. *)
Lemma parse_string_as_value_from_digits es pls s :
  all_digits s = true → parse_string_as_value_from list_separator es pls s = s.
Proof.
  revert pls. induction s as [|c r IH]; intros pls Hs; [done|].
  simpl in Hs. apply andb_prop in Hs as [Hc Hr].
  unfold g_ascii_isdigit in Hc. apply andb_prop in Hc as [Hlo Hhi].
  apply Z.leb_le in Hlo, Hhi.
  assert (∀ x, (byte x < 48 ∨ 57 < byte x) → Ascii.eqb c x = false) as Hne.
  { intros x Hx. apply Ascii.eqb_neq. intros ->. lia. }
  cbn [parse_string_as_value_from].
  rewrite !Hne by (vm_compute; intuition congruence).
  rewrite andb_false_r. by rewrite IH.
Qed.

Lemma g_key_file_parse_string_as_value_printf_u n es :
  0 <= n → g_key_file_parse_string_as_value list_separator (printf_u n) es = printf_u n.
Proof.
  intros Hn. apply parse_string_as_value_from_digits. by apply all_digits_utoa.
Qed.

Lemma g_key_file_parse_string_as_value_printf_d n es :
  g_key_file_parse_string_as_value list_separator (printf_d n) es = printf_d n.
Proof.
  unfold printf_d. destruct (Z.ltb_spec n 0).
  - unfold g_key_file_parse_string_as_value. cbn [parse_string_as_value_from].
    change (Ascii.eqb "-" " ") with false. change (Ascii.eqb "-" "009") with false.
    change (Ascii.eqb "-" "010") with false. change (Ascii.eqb "-" "013") with false.
    change (Ascii.eqb "-" "\") with false.
    change (Ascii.eqb "-" list_separator) with false.
    rewrite andb_false_r. cbv beta iota.
    rewrite parse_string_as_value_from_digits; [done|]. apply all_digits_utoa. lia.
  - by apply g_key_file_parse_string_as_value_printf_u.
Qed.

Lemma g_utf8_validate_printf_u n : 0 <= n → g_utf8_validate (printf_u n) = true.
Proof.
  intros Hn. unfold printf_u. rewrite <- (append_nil_r (utoa 20 n)).
  by apply g_utf8_validate_utoa.
Qed.

Lemma find_invalid_object_path l :
  forallb (λ s, g_utf8_validate s && g_variant_is_object_path s) l = true →
  List.find (λ s, negb (g_variant_is_object_path s)) l = None.
Proof.
  induction l as [|s l IH]; [done|]. simpl.
  intros [[_ ->]%andb_prop Hl]%andb_prop. by apply IH.
Qed.

Lemma forallb_object_paths_valid l :
  forallb (λ s, g_utf8_validate s && g_variant_is_object_path s) l = true →
  forallb g_utf8_validate l = true.
Proof.
  induction l as [|s l IH]; [done|]. simpl.
  intros [[-> _]%andb_prop Hl]%andb_prop. by apply IH.
Qed.

Lemma g_key_file_get_set_value kf group key value :
  g_key_file_get_value (g_key_file_set_value kf group key value) group key = inr value.
Proof.
  unfold g_key_file_get_value, g_key_file_set_value. by rewrite lookup_insert_eq.
Qed.

(** What is read from a key that was just written with [buf]. *)
Lemma g_key_file_get_integer_set kf name key n :
  G_MININT <= n <= G_MAXINT →
  g_key_file_get_integer (g_key_file_set_string kf name key (printf_d n)) name key
  = Ok n.
Proof.
  intros Hn. unfold g_key_file_get_integer, g_key_file_set_string.
  rewrite g_key_file_get_set_value. cbv beta iota.
  rewrite g_key_file_parse_string_as_value_printf_d.
  by apply g_key_file_parse_value_as_integer_printf_d.
Qed.

Lemma g_key_file_get_uint64_set kf name key n :
  0 <= n <= G_MAXUINT64 →
  g_key_file_get_uint64 (g_key_file_set_string kf name key (printf_u n)) name key
  = Ok n.
Proof.
  intros Hn. unfold g_key_file_get_uint64, g_key_file_set_string.
  rewrite g_key_file_get_set_value. cbv beta iota.
  rewrite g_key_file_parse_string_as_value_printf_u by lia.
  rewrite g_ascii_strtoull_printf_u by done.
  by rewrite bool_decide_eq_false_2 by (apply printf_u_not_empty; lia).
Qed.

Lemma g_key_file_get_int64_set kf name key n :
  G_MININT64 <= n <= G_MAXINT64 →
  g_key_file_get_int64 (g_key_file_set_string kf name key (printf_d n)) name key
  = Ok n.
Proof.
  intros Hn. unfold g_key_file_get_int64, g_key_file_set_string.
  rewrite g_key_file_get_set_value. cbv beta iota.
  rewrite g_key_file_parse_string_as_value_printf_d.
  rewrite g_ascii_strtoll_printf_d by done.
  by rewrite bool_decide_eq_false_2 by apply printf_d_not_empty.
Qed.

Lemma g_key_file_get_byte_set kf name key n :
  0 <= n <= 255 →
  g_key_file_get_integer (g_key_file_set_string kf name key (printf_u n)) name key
  = Ok n.
Proof.
  intros Hn. unfold g_key_file_get_integer, g_key_file_set_string.
  rewrite g_key_file_get_set_value. cbv beta iota.
  rewrite g_key_file_parse_string_as_value_printf_u by lia.
  apply g_key_file_parse_value_as_integer_printf_u. unfold G_MAXINT. lia.
Qed.

Lemma g_key_file_get_set_boolean kf name key b :
  g_key_file_get_boolean (g_key_file_set_boolean kf name key b) name key = Ok b.
Proof.
  unfold g_key_file_get_boolean, g_key_file_set_boolean.
  rewrite g_key_file_get_set_value. by destruct b.
Qed.

Ltac split_range H :=
  repeat match type of H with
         | _ && _ = true => let H' := fresh in apply andb_prop in H as [H H']
         end;
  repeat match goal with
         | H : (_ <=? _) = true |- _ => apply Z.leb_le in H
         | H : (_ <? _) = true |- _ => apply Z.ltb_lt in H
         end.

Ltac in_range :=
  unfold G_MININT, G_MAXINT, G_MININT64, G_MAXINT64, G_MAXUINT32, G_MAXUINT64 in *;
  lia.

(** Written under a key of a key file and read from that key at its
    type (the group and key names are names the key file accepts). *)
Lemma mcd_keyfile_get_set_variant keyfile name key v :
  schema_value v = true →
  mcd_keyfile_get_variant (mcd_keyfile_set_variant keyfile name key (Some v)).1
    name key (g_variant_get_type v) = Ok v.
Proof.
  intros Hv. destruct v; try done; simpl in Hv;
    cbn [mcd_keyfile_set_variant mcd_keyfile_get_variant g_variant_get_type fst].
  - by rewrite g_key_file_get_set_boolean.
  - split_range Hv. rewrite g_key_file_get_byte_set by lia.
    unfold Ok at 1. cbv beta iota.
    destruct (Z.ltb_spec n 0); [lia|]. by destruct (Z.ltb_spec 255 n); [lia|].
  - split_range Hv. by rewrite g_key_file_get_integer_set by in_range.
  - split_range Hv. rewrite g_key_file_get_uint64_set by in_range.
    unfold Ok at 1. cbv beta iota.
    by destruct (Z.ltb_spec G_MAXUINT32 n); [in_range|].
  - split_range Hv. by rewrite g_key_file_get_int64_set by in_range.
  - split_range Hv. by rewrite g_key_file_get_uint64_set by in_range.
  - by rewrite g_key_file_get_set_string.
  - apply andb_prop in Hv as [Hutf8 Hpath]. rewrite g_key_file_get_set_string by done.
    unfold Ok at 1. cbv beta iota.
    unfold tp_dbus_check_valid_object_path. by rewrite Hpath.
  - by rewrite g_key_file_get_set_string_list.
  - rewrite g_key_file_get_set_string_list by (by apply forallb_object_paths_valid).
    unfold Ok at 1. cbv beta iota. by rewrite find_invalid_object_path.
  - apply andb_prop in Hv as [Hv Hs2]. apply andb_prop in Hv as [Hv Hs1].
    split_range Hv.
    rewrite g_key_file_get_set_string_list.
    + unfold Ok at 1. cbv beta iota.
      rewrite g_ascii_strtoull_printf_u by in_range.
      simpl. by destruct (Z.ltb_spec G_MAXUINT32 u); [in_range|].
    + simpl. by rewrite g_utf8_validate_printf_u, Hs1, Hs2 by lia.
Qed.

(** C2: a value of a type the decoder has a case for (boolean, byte,
    32-bit and 64-bit signed and unsigned integer, string, object path,
    array of strings, array of object paths, the presence structure), in
    normal form, is escaped to a string, and that string decoded at the
    type of the value gives the value back: through
    [mcd_keyfile_escape_variant] and [mcd_keyfile_get_variant], and for a
    [GValue] through [mcd_keyfile_escape_value] and
    [mcd_keyfile_unescape_value]. *)
Theorem C2_escape_decode_round_trip (v : GVariant) :
  schema_value v = true →
  (∃ escaped,
      mcd_keyfile_escape_variant v = Some escaped
      ∧ mcd_keyfile_get_variant (g_key_file_set_value g_key_file_new "g" "k" escaped)
          "g" "k" (g_variant_get_type v) = Ok v)
  ∧ (let value := dbus_g_value_parse_g_variant v in
     mcd_keyfile_unescape_value (mcd_keyfile_escape_value value)
       (g_value_init (G_VALUE_TYPE value)) = (true, value, None)).
Proof.
  intros Hv.
  pose proof (mcd_keyfile_get_set_variant g_key_file_new "g" "k" v Hv) as Hgk.
  assert (∃ escaped,
            (mcd_keyfile_set_variant g_key_file_new "g" "k" (Some v)).1
            = g_key_file_set_value g_key_file_new "g" "k" escaped) as [escaped Hesc].
  { destruct v; try done; cbn [mcd_keyfile_set_variant fst]; by eexists. }
  assert (mcd_keyfile_escape_variant v = Some escaped) as Hescape.
  { unfold mcd_keyfile_escape_variant. rewrite Hesc.
    unfold g_key_file_get_value, g_key_file_set_value. by rewrite lookup_insert_eq. }
  split; [exists escaped; by rewrite <- Hesc|].
  intros value. unfold mcd_keyfile_escape_value.
  assert (dbus_g_value_build_g_variant value = v) as -> by (by destruct v).
  rewrite Hescape. unfold mcd_keyfile_unescape_value, mcd_keyfile_get_value.
  rewrite <- Hesc.
  assert (match G_VALUE_TYPE (g_value_init (G_VALUE_TYPE value)) with
          | G_TYPE_STRING =>
              mcd_keyfile_get_variant
                (mcd_keyfile_set_variant g_key_file_new "g" "k" (Some v)).1
                "g" "k" G_VARIANT_TYPE_STRING
          | _ => _
          end = Ok v) as ->; [|done].
  subst value. by destruct v.
Qed.

End RoundTrip.

(** ** The properties on concrete data *)

Section Instances.

Lemma C1_set_twice_changed_then_unchanged_witness :
  is_Some (lookup_account example_storage "acct")
  ∧ g_str_has_prefix "DisplayName" "param-" = false
  ∧ (let value := Some (dbus_g_value_parse_g_variant (GV_string "Frederick")) in
     let '(changed1, self1, _) :=
       mcd_storage_set_attribute example_storage "acct" "DisplayName" value in
     let '(changed2, self2, events2) :=
       mcd_storage_set_attribute self1 "acct" "DisplayName" value in
     changed1 = negb (mcd_nullable_variant_equal
                        (cached_attribute example_storage "acct" "DisplayName")
                        (dbus_g_value_build_g_variant <$> value))
     ∧ changed2 = false ∧ self2 = self1 ∧ events2 = []).
Proof.
  assert (is_Some (lookup_account example_storage "acct")) as Hsa
    by (vm_compute; eexists; reflexivity).
  split; [exact Hsa|]. split; [reflexivity|].
  exact (proj1 (C1_set_twice_changed_then_unchanged example_storage "acct"
                  "DisplayName"
                  (Some (dbus_g_value_parse_g_variant (GV_string "Frederick"))) Hsa)
           eq_refl).
Defined.

Lemma C2_escape_decode_round_trip_witness :
  schema_value (GV_strv ["a;b"; " c"]) = true
  ∧ mcd_keyfile_escape_variant (GV_strv ["a;b"; " c"]) = Some "a\;b;\sc;"
  ∧ ∃ escaped,
      mcd_keyfile_escape_variant (GV_strv ["a;b"; " c"]) = Some escaped
      ∧ mcd_keyfile_get_variant (g_key_file_set_value g_key_file_new "g" "k" escaped)
          "g" "k" G_VARIANT_TYPE_STRING_ARRAY = Ok (GV_strv ["a;b"; " c"]).
Proof.
  split; [reflexivity|]. split; [reflexivity|].
  exact (proj1 (C2_escape_decode_round_trip (GV_strv ["a;b"; " c"]) eq_refl)).
Defined.

Lemma C4_duplicate_name_refused_cache_untouched_witness :
  lookup_account example_storage "acct" = Some example_account
  ∧ mcd_storage_add_account_from_plugin example_key_name example_storage
      (plugin "other" 100) (Some "acct")
    = (example_storage,
       [G_CRITICAL "!g_hash_table_contains (self->accounts, account)"]).
Proof.
  split; [reflexivity|].
  apply (C4_duplicate_name_refused_cache_untouched example_key_name example_storage
           (plugin "other" 100) "acct" example_account).
  reflexivity.
Defined.

Lemma C6_create_account_first_able_plugin_witness :
  default_backend example_default
  ∧ let objects := [plugin "mid" 50; plugin "high" 100] in
    let stores := sort_and_cache_plugins example_default objects in
    let names := dom (accounts mcd_storage_init) in
    Permutation stores (example_default :: objects)
    ∧ Sorted by_descending_priority stores
    ∧ ∃ refused creator rest name error,
        stores = refused ++ creator :: rest
        ∧ Forall (λ p, (mcp_account_storage_create p names "gabble" "jabber" "fred").1
                       = None
                       ∧ mcp_account_storage_priority creator
                         <= mcp_account_storage_priority p) refused
        ∧ mcp_account_storage_create creator names "gabble" "jabber" "fred"
          = (Some name, error)
        ∧ (∀ p, In p (example_default :: objects) →
                mcp_account_storage_priority creator < mcp_account_storage_priority p →
                In p refused)
        ∧ (∀ p q, In p (example_default :: objects) →
                  In q (refused ++ [creator]) →
                  mcp_account_storage_priority q < mcp_account_storage_priority p →
                  appears_before p q (refused ++ [creator]))
        ∧ mcd_storage_create_account example_key_name mcd_storage_init stores None
            "gabble" "jabber" "fred"
          = (Some name, error,
             (mcd_storage_add_account_from_plugin example_key_name mcd_storage_init
                creator (Some name)).1,
             ((λ p, MCP_create (mcp_account_storage_name p) None) <$> refused)
               ++ MCP_create (mcp_account_storage_name creator) (Some name)
               :: (mcd_storage_add_account_from_plugin example_key_name
                     mcd_storage_init creator (Some name)).2).
Proof.
  assert (default_backend example_default) as Hdefault
    by (intros ? ? ? ?; eexists; reflexivity).
  split; [exact Hdefault|].
  assert ("gabble" ≠ "") as Hmanager by discriminate.
  assert ("jabber" ≠ "") as Hprotocol by discriminate.
  exact (C6_create_account_first_able_plugin example_key_name example_default
           [plugin "mid" 50; plugin "high" 100] mcd_storage_init
           "gabble" "jabber" "fred" Hdefault Hmanager Hprotocol).
Defined.

Lemma C8_parameter_tables_disjoint_witness :
  cache_disjoint
    (run example_key_name
       (run example_key_name mcd_storage_init
          (Op_add_account_from_plugin example_owner (Some "acct")))
       (Op_write_back (WB_set_value "acct" "param-port" (Some "5222"))))
  ∧ parameter_absent
      (mcd_storage_set_parameter example_storage "acct" "port" None).1.2 "acct" "port".
Proof.
  split.
  - apply (proj1 (C8_parameter_tables_disjoint example_key_name)).
    apply reachable_run, reachable_run, reachable_init.
  - apply (proj2 (C8_parameter_tables_disjoint example_key_name)
             example_storage "acct" "port" example_account eq_refl).
    by left.
Defined.

Lemma C9_identify_account_degrades_to_account_parameter_witness :
  identify_account [("server", GV_string "example.com"); ("account", GV_string "fred")]
    None (Err TP_ERROR_NOT_IMPLEMENTED "Not implemented")
  = Ok "fred".
Proof.
  apply (proj1 (proj2 (C9_identify_account_degrades_to_account_parameter
                         [("server", GV_string "example.com");
                          ("account", GV_string "fred")]))).
  left. reflexivity.
Defined.

Lemma C10_dup_accounts_only_accounts_with_attributes_witness :
  "fresh" ∉ mcd_storage_dup_accounts
              (mcd_storage_add_account_from_plugin example_key_name example_storage
                 example_owner (Some "fresh")).1.
Proof.
  pose proof (proj2 (proj2 (C10_dup_accounts_only_accounts_with_attributes
                              example_key_name example_storage))
                example_owner "fresh" "account"
                (dbus_g_value_parse_g_variant (GV_string "x")) eq_refl eq_refl) as H.
  cbv zeta in H.
  destruct (mcd_storage_set_parameter _ _ _ _) as [[changed written] events].
  exact (proj1 (proj2 H)).
Defined.

(** The plugins of priority 100 and 50 are asked before the default one,
    in that order, and their refusal is dropped. *)
Example create_account_asks_in_priority_order :
  mcd_storage_create_account example_key_name mcd_storage_init
    (sort_and_cache_plugins example_default [plugin "mid" 50; plugin "high" 100])
    None "gabble" "jabber" "fred"
  = (Some "gabble/jabber/fred0", None,
     store_account mcd_storage_init "gabble/jabber/fred0"
       (mcd_storage_account_new example_default),
     [ MCP_create "high" None; MCP_create "mid" None;
       MCP_create "default" (Some "gabble/jabber/fred0");
       MCP_get "default" "gabble/jabber/fred0" ]).
Proof. reflexivity. Qed.

Example escape_strings :
  mcd_keyfile_escape_variant (GV_string " a;b\ c") = Some "\sa;b\\ c"
  ∧ mcd_keyfile_escape_variant (GV_strv ["a;b"; ""; "c"]) = Some "a\;b;;c;"
  ∧ mcd_keyfile_escape_variant (GV_uss 2 "available" "at; work")
    = Some "2;available;at\;\swork;".
Proof. by vm_compute. Qed.

Example escape_numbers :
  mcd_keyfile_escape_variant (GV_int32 (-2147483648)) = Some "-2147483648"
  ∧ mcd_keyfile_escape_variant (GV_uint64 18446744073709551615)
    = Some "18446744073709551615"
  ∧ mcd_keyfile_escape_variant (GV_boolean true) = Some "true".
Proof. by vm_compute. Qed.

Example decode_out_of_range :
  is_ok (mcd_keyfile_get_variant (g_key_file_set_value g_key_file_new "g" "k" "4294967296")
           "g" "k" G_VARIANT_TYPE_UINT32) = false
  ∧ is_ok (mcd_keyfile_get_variant (g_key_file_set_value g_key_file_new "g" "k" "a;b;")
             "g" "k" G_VARIANT_TYPE_USS) = false.
Proof. by vm_compute. Qed.

(** An attribute write goes to the typed call; a plugin without it gets
    the untyped call after it. *)
Example set_attribute_dispatch_example :
  (mcd_storage_set_attribute example_storage "acct" "DisplayName"
     (Some (dbus_g_value_parse_g_variant (GV_string "Freddy")))).2
  = [MCP_set_attribute "owner" "acct" "DisplayName" (GV_string "Freddy") true]
  ∧ (mcd_storage_set_attribute
       (store_account mcd_storage_init "acct" (mcd_storage_account_new (plugin "old" 0)))
       "acct" "DisplayName"
       (Some (dbus_g_value_parse_g_variant (GV_string "Freddy")))).2
    = [ MCP_set_attribute "old" "acct" "DisplayName" (GV_string "Freddy") false;
        MCP_set "old" "acct" "DisplayName" "Freddy" true ].
Proof. by vm_compute. Qed.

End Instances.

(** * Further properties of the codec *)

Section Decoded.

Lemma parse_digits_nonneg s : ∀ acc, 0 <= acc → 0 <= (parse_digits s acc).1.
Proof.
  induction s as [|c r IH]; intros acc Hacc; simpl; [done|].
  destruct (g_ascii_isdigit c) eqn:Hc; [|done].
  apply IH. unfold g_ascii_isdigit in Hc. apply andb_prop in Hc as [Hc _]. lia.
Qed.

Lemma parse_long_long_nonneg s : 0 <= st_magnitude (parse_long_long s).
Proof.
  unfold parse_long_long.
  destruct (match skip_space s with
            | String c r =>
                if Ascii.eqb c "-" then (true, r)
                else if Ascii.eqb c "+" then (false, r) else (false, skip_space s)
            | "" => (false, skip_space s)
            end) as [negative s1].
  pose proof (parse_digits_nonneg s1 0) as Hd.
  destruct (parse_digits s1 0) as [v rest]. simpl in Hd.
  destruct (bool_decide (rest = s1)); simpl; lia.
Qed.

Lemma g_ascii_strtoull_range s : 0 <= (g_ascii_strtoull s).1.1 <= G_MAXUINT64.
Proof.
  unfold g_ascii_strtoull. pose proof (parse_long_long_nonneg s) as Hm.
  destruct (Z.ltb_spec G_MAXUINT64 (st_magnitude (parse_long_long s))).
  { simpl. unfold G_MAXUINT64. lia. }
  destruct (st_negative (parse_long_long s)); simpl; [|lia].
  pose proof (Z.mod_pos_bound (- st_magnitude (parse_long_long s)) (2 ^ 64)).
  unfold G_MAXUINT64. lia.
Qed.

Lemma g_ascii_strtoll_range s : G_MININT64 <= (g_ascii_strtoll s).1.1 <= G_MAXINT64.
Proof.
  unfold g_ascii_strtoll. pose proof (parse_long_long_nonneg s) as Hm.
  unfold G_MININT64, G_MAXINT64 in *.
  destruct (st_negative (parse_long_long s)); simpl.
  - destruct (Z.ltb_spec (2 ^ 63) (st_magnitude (parse_long_long s))); simpl; lia.
  - destruct (Z.ltb_spec (2 ^ 63 - 1) (st_magnitude (parse_long_long s))); simpl; lia.
Qed.

Lemma g_key_file_parse_value_as_integer_range value n :
  g_key_file_parse_value_as_integer value = Ok n → G_MININT <= n <= G_MAXINT.
Proof.
  unfold g_key_file_parse_value_as_integer.
  destruct (strtol value) as [[long_value eof_int] erange].
  destruct (_ || _); [done|].
  destruct (negb ((G_MININT <=? long_value) && (long_value <=? G_MAXINT)) || erange)
    eqn:Hrange; [done|].
  intros [= <-]. apply orb_false_elim in Hrange as [Hrange _].
  apply negb_false_iff, andb_prop in Hrange. lia.
Qed.

(** *** UTF-8 and concatenation *)

(** A valid text followed by any text is valid exactly when what
    follows is. *)
Lemma g_utf8_validate_app_l n :
  ∀ a b, (String.length a <= n)%nat → g_utf8_validate a = true →
         g_utf8_validate (a +:+ b) = g_utf8_validate b.
Proof.
  induction n as [|n IH]; intros a b Hlen Ha.
  { destruct a; [done|simpl in Hlen; lia]. }
  destruct a as [|c r]; [done|].
  rewrite append_cons.
  cbn [g_utf8_validate] in Ha |- *. cbv zeta in Ha |- *.
  destruct (byte c =? 0); [done|].
  destruct (byte c <? 128); [apply IH; [simpl in Hlen; lia|done]|].
  destruct (Z.land (byte c) 224 =? 192).
  { destruct (Z.land (byte c) 30 =? 0); [done|].
    destruct r as [|c1 r1]; [done|]. rewrite append_cons.
    apply andb_prop in Ha as [-> Ha]. apply IH; [simpl in Hlen; lia|done]. }
  destruct (Z.land (byte c) 240 =? 224).
  { destruct r as [|c1 [|c2 r2]]; [done..|]. rewrite !append_cons.
    apply andb_prop in Ha as [-> Ha]. apply IH; [simpl in Hlen; lia|done]. }
  destruct (Z.land (byte c) 248 =? 240); [|done].
  destruct r as [|c1 [|c2 [|c3 r3]]]; [done..|]. rewrite !append_cons.
  apply andb_prop in Ha as [-> Ha]. apply IH; [simpl in Hlen; lia|done].
Qed.

Lemma continuation_byte_low c : byte c < 128 → continuation_byte c = false.
Proof.
  intros Hc. destruct (continuation_byte c) eqn:H; [|done].
  apply continuation_byte_high, Z.leb_le in H. lia.
Qed.

(** A valid text is cut at an ASCII character into two valid texts. *)
Lemma g_utf8_validate_split n :
  ∀ a c r, (String.length a <= n)%nat → byte c < 128 →
           g_utf8_validate (a +:+ String c r) = true →
           g_utf8_validate a = true ∧ g_utf8_validate (String c r) = true.
Proof.
  induction n as [|n IH]; intros a c r Hlen Hc H.
  { destruct a; [by rewrite append_nil_l in H|simpl in Hlen; lia]. }
  destruct a as [|x a]; [by rewrite append_nil_l in H|].
  rewrite append_cons in H.
  cbn [g_utf8_validate] in H |- *. cbv zeta in H |- *.
  pose proof (continuation_byte_low c Hc) as Hnc.
  destruct (byte x =? 0); [done|].
  destruct (byte x <? 128); [apply IH; [simpl in Hlen; lia|done..]|].
  destruct (Z.land (byte x) 224 =? 192).
  { destruct (Z.land (byte x) 30 =? 0); [done|].
    destruct a as [|c1 r1].
    { rewrite append_nil_l in H. by rewrite Hnc in H. }
    rewrite append_cons in H. apply andb_prop in H as [-> H].
    apply IH; [simpl in Hlen; lia|done..]. }
  destruct (Z.land (byte x) 240 =? 224).
  { destruct a as [|c1 [|c2 r2]].
    - rewrite append_nil_l in H. destruct r; [done|]. by rewrite Hnc in H.
    - rewrite append_cons, append_nil_l in H. by rewrite Hnc, andb_false_r in H.
    - rewrite !append_cons in H. apply andb_prop in H as [-> H].
      apply IH; [simpl in Hlen; lia|done..]. }
  destruct (Z.land (byte x) 248 =? 240); [|done].
  destruct a as [|c1 [|c2 [|c3 r3]]].
  - rewrite append_nil_l in H. destruct r as [|? [|? ?]]; [done..|]. by rewrite Hnc in H.
  - rewrite append_cons, append_nil_l in H. destruct r; [done|].
    by rewrite Hnc, andb_false_r in H.
  - rewrite !append_cons, append_nil_l in H. by rewrite Hnc, andb_false_r in H.
  - rewrite !append_cons in H. apply andb_prop in H as [-> H].
    apply IH; [simpl in Hlen; lia|done..].
Qed.

End Decoded.
Section DecodedText.

(** Unescaping keeps UTF-8: the string and the pieces read from a valid
    text are valid.  [whole] and [cur] may end inside a multi-byte
    sequence that [p] completes. *)
Lemma parse_value_as_string_from_valid pieces n :
  ∀ p whole cur found w l,
    (String.length p <= n)%nat →
    g_utf8_validate (whole +:+ p) = true →
    g_utf8_validate (cur +:+ p) = true →
    forallb g_utf8_validate found = true →
    parse_value_as_string_from list_separator pieces p whole cur found = Ok (w, l) →
    g_utf8_validate w = true ∧ forallb g_utf8_validate l = true.
Proof.
  assert (∀ a c r, byte c < 128 → g_utf8_validate (a +:+ String c r) = true →
            g_utf8_validate a = true ∧ g_utf8_validate r = true) as Hcut.
  { intros a c r Hc H.
    apply (g_utf8_validate_split (String.length a)) in H as [Ha H]; [|done..].
    split; [done|]. cbn [g_utf8_validate] in H. cbv zeta in H.
    destruct (Z.eqb_spec (byte c) 0); [done|].
    by destruct (Z.ltb_spec (byte c) 128); [|lia]. }
  assert (∀ a d r, 0 < byte d < 128 → g_utf8_validate a = true →
            g_utf8_validate r = true →
            g_utf8_validate (string_snoc a d +:+ r) = true) as Hjoin.
  { intros a d r Hd Ha Hr. rewrite string_snoc_append.
    rewrite (g_utf8_validate_app_l (String.length a)) by done.
    by rewrite g_utf8_validate_ascii. }
  assert (∀ a d e r, 0 < byte d < 128 → byte e < 128 →
            g_utf8_validate (a +:+ String "\" (String e r)) = true →
            g_utf8_validate (string_snoc a d +:+ r) = true) as Hesc2.
  { intros a d e r Hd He H. apply Hcut in H as [Ha H]; [|by vm_compute].
    apply (Hcut "") in H as [_ H]; [|done]. by apply Hjoin. }
  induction n as [n IH] using lt_wf_ind.
  intros p whole cur found w l Hlen Hw Hcur Hfound H.
  destruct p as [|c r].
  { rewrite append_nil_r in Hw, Hcur. simpl in H. injection H as <- <-.
    split; [done|]. destruct pieces; [|done].
    rewrite forallb_forall. intros x Hx%in_rev.
    destruct (bool_decide (cur = "")); [|destruct Hx as [<-|Hx]; [done|]];
      by eapply forallb_forall in Hx. }
  cbn [parse_value_as_string_from] in H.
  destruct (Ascii.eqb_spec c "\") as [->|Hbs].
  { destruct r as [|e r']; [done|].
    assert (∀ d, 0 < byte d < 128 → byte e < 128 →
              parse_value_as_string_from list_separator pieces r'
                (string_snoc whole d) (string_snoc cur d) found = Ok (w, l) →
              g_utf8_validate w = true ∧ forallb g_utf8_validate l = true) as Hnext.
    { intros d Hd He Hgo. eapply (IH (String.length r')); [| | | |done|exact Hgo];
        [simpl in Hlen; lia|done|by eapply Hesc2..]. }
    destruct (escape_sequence e) as [d|] eqn:Hesc.
    { unfold escape_sequence in Hesc.
      repeat match type of Hesc with
             | (if Ascii.eqb e ?x then _ else _) = _ =>
                 destruct (Ascii.eqb_spec e x) as [->|?];
                 [injection Hesc as <-; eapply Hnext; [| |exact H]; by vm_compute|]
             end.
      done. }
    destruct (pieces && Ascii.eqb e list_separator) eqn:Hsep; [|done].
    apply andb_prop in Hsep as [_ ->%Ascii.eqb_eq].
    eapply Hnext; [| |exact H]; by vm_compute. }
  destruct (pieces && Ascii.eqb c list_separator) eqn:Hsep.
  { apply andb_prop in Hsep as [_ ->%Ascii.eqb_eq].
    apply Hcut in Hcur as [Hcur Hr]; [|by vm_compute].
    eapply (IH (String.length r)); [| | | | |exact H]; [simpl in Hlen; lia|done|..].
    - by rewrite string_snoc_append.
    - by rewrite append_nil_l.
    - simpl. by rewrite Hcur. }
  eapply (IH (String.length r)); [| | | |done|exact H];
    [simpl in Hlen; lia|done|by rewrite string_snoc_append..].
Qed.

Lemma g_key_file_get_string_valid kf group key s :
  g_key_file_get_string kf group key = Ok s → g_utf8_validate s = true.
Proof.
  unfold g_key_file_get_string.
  destruct (g_key_file_get_value kf group key) as [|value]; [done|].
  destruct (g_utf8_validate value) eqn:Hvalid; [|done]. cbn [negb].
  destruct (g_key_file_parse_value_as_string list_separator value false)
    as [|[string_value pieces]] eqn:Hparse; [done|].
  intros [= <-].
  by eapply (parse_value_as_string_from_valid false _ value "" "" []).
Qed.

Lemma g_key_file_get_string_list_valid kf group key l :
  g_key_file_get_string_list kf group key = Ok l → forallb g_utf8_validate l = true.
Proof.
  unfold g_key_file_get_string_list.
  destruct (g_key_file_get_value kf group key) as [|value]; [done|].
  destruct (g_utf8_validate value) eqn:Hvalid; [|done]. cbn [negb].
  destruct (g_key_file_parse_value_as_string list_separator value true)
    as [|[string_value pieces]] eqn:Hparse; [done|].
  intros [= <-].
  by eapply (parse_value_as_string_from_valid true _ value "" "" []).
Qed.

End DecodedText.

Section DecodedValues.

Lemma object_path_elements_valid s :
  ∀ after_slash, object_path_elements s after_slash = true → g_utf8_validate s = true.
Proof.
  induction s as [|c r IH]; intros after_slash H; [done|].
  cbn [object_path_elements] in H.
  destruct (Ascii.eqb_spec c "/") as [->|Hc].
  - apply andb_prop in H as [_ H]. rewrite g_utf8_validate_ascii by (by vm_compute).
    by eapply IH.
  - apply andb_prop in H as [Hchar H]. rewrite g_utf8_validate_ascii; [by eapply IH|].
    unfold object_path_char in Hchar. lia.
Qed.

Lemma g_variant_is_object_path_valid s :
  g_variant_is_object_path s = true → g_utf8_validate s = true.
Proof.
  destruct s as [|c r]; [done|]. cbn [g_variant_is_object_path].
  intros [->%Ascii.eqb_eq H]%andb_prop.
  rewrite g_utf8_validate_ascii by (by vm_compute).
  apply orb_prop in H as [->%bool_decide_eq_true|H]; [done|].
  by eapply object_path_elements_valid.
Qed.

Lemma mcd_keyfile_get_variant_valid keyfile group key type v :
  mcd_keyfile_get_variant keyfile group key type = Ok v →
  g_variant_get_type v = type ∧ g_variant_is_normal_form v = true.
Proof.
  destruct type; cbn [mcd_keyfile_get_variant]; try done.
  - destruct (g_key_file_get_boolean keyfile group key); [done|]. by intros [= <-].
  - destruct (g_key_file_get_integer keyfile group key) as [|v_int]; [done|].
    destruct ((v_int <? 0) || (255 <? v_int)) eqn:Hrange; [done|]. intros [= <-].
    split; [done|]. simpl. apply orb_false_elim in Hrange. lia.
  - destruct (g_key_file_get_integer keyfile group key) as [|v_int] eqn:Hget; [done|].
    intros [= <-]. split; [done|]. simpl. unfold g_key_file_get_integer in Hget.
    destruct (g_key_file_get_value keyfile group key); [done|].
    apply g_key_file_parse_value_as_integer_range in Hget. lia.
  - destruct (g_key_file_get_uint64 keyfile group key) as [|v_uint] eqn:Hget; [done|].
    destruct (Z.ltb_spec G_MAXUINT32 v_uint); [done|]. intros [= <-].
    split; [done|]. simpl. unfold g_key_file_get_uint64 in Hget.
    destruct (g_key_file_get_value keyfile group key) as [|s]; [done|].
    pose proof (g_ascii_strtoull_range s) as Hr.
    destruct (g_ascii_strtoull s) as [[u end_] erange].
    destruct (_ || _); [done|]. injection Hget as <-. simpl in Hr. lia.
  - destruct (g_key_file_get_int64 keyfile group key) as [|v_int] eqn:Hget; [done|].
    intros [= <-]. split; [done|]. simpl. unfold g_key_file_get_int64 in Hget.
    destruct (g_key_file_get_value keyfile group key) as [|s]; [done|].
    pose proof (g_ascii_strtoll_range s) as Hr.
    destruct (g_ascii_strtoll s) as [[u end_] erange].
    destruct (_ || _); [done|]. injection Hget as <-. simpl in Hr. lia.
  - destruct (g_key_file_get_uint64 keyfile group key) as [|v_uint] eqn:Hget; [done|].
    intros [= <-]. split; [done|]. simpl. unfold g_key_file_get_uint64 in Hget.
    destruct (g_key_file_get_value keyfile group key) as [|s]; [done|].
    pose proof (g_ascii_strtoull_range s) as Hr.
    destruct (g_ascii_strtoull s) as [[u end_] erange].
    destruct (_ || _); [done|]. injection Hget as <-. simpl in Hr. lia.
  - destruct (g_key_file_get_string keyfile group key) as [|s] eqn:Hget; [done|].
    intros [= <-]. split; [done|]. by eapply g_key_file_get_string_valid.
  - destruct (g_key_file_get_string keyfile group key) as [|s] eqn:Hget; [done|].
    unfold tp_dbus_check_valid_object_path.
    destruct (g_variant_is_object_path s) eqn:Hpath; [|done]. intros [= <-].
    split; [done|]. simpl. rewrite Hpath.
    by rewrite (g_key_file_get_string_valid _ _ _ _ Hget).
  - destruct (g_key_file_get_string_list keyfile group key) as [|l] eqn:Hget; [done|].
    intros [= <-]. split; [done|]. by eapply g_key_file_get_string_list_valid.
  - destruct (g_key_file_get_string_list keyfile group key) as [|l] eqn:Hget; [done|].
    destruct (find _ l) eqn:Hfind; [done|]. intros [= <-]. split; [done|].
    simpl. apply forallb_forall. intros s Hs.
    eapply find_none in Hfind; [|done]. apply negb_false_iff in Hfind.
    by rewrite Hfind, (g_variant_is_object_path_valid s Hfind).
  - destruct (g_key_file_get_string_list keyfile group key) as [|l] eqn:Hget; [done|].
    apply g_key_file_get_string_list_valid in Hget.
    destruct l as [|v0 [|v1 [|v2 [|]]]]; try done.
    pose proof (g_ascii_strtoull_range v0) as Hr.
    destruct (g_ascii_strtoull v0) as [[u endptr] errno].
    destruct (_ || _) eqn:Hcheck; [done|]. intros [= <-]. split; [done|].
    simpl in Hget, Hr |- *. apply orb_false_elim in Hcheck as [_ Hcheck].
    apply andb_prop in Hget as [_ [-> [-> _]%andb_prop]%andb_prop].
    rewrite !andb_true_r. lia.
Qed.

(** X1: whatever text the key file holds, a value that
    [mcd_keyfile_get_variant] returns is of the type that was asked for,
    and it is in normal form: a number is within the range of its type, a
    string is valid UTF-8, an object path is well-formed. *)
Theorem X1_decoded_variant_is_valid (keyfile : GKeyFile) (group key : string)
    (type : GVariantType) (v : GVariant) :
  mcd_keyfile_get_variant keyfile group key type = Ok v →
  g_variant_get_type v = type ∧ g_variant_is_normal_form v = true.
Proof. apply mcd_keyfile_get_variant_valid. Qed.

Lemma X1_decoded_variant_is_valid_witness :
  mcd_keyfile_get_variant (g_key_file_set_value g_key_file_new "g" "k" "0042")
    "g" "k" G_VARIANT_TYPE_BYTE = Ok (GV_byte 42)
  ∧ g_variant_get_type (GV_byte 42) = G_VARIANT_TYPE_BYTE
  ∧ g_variant_is_normal_form (GV_byte 42) = true.
Proof.
  assert (mcd_keyfile_get_variant (g_key_file_set_value g_key_file_new "g" "k" "0042")
            "g" "k" G_VARIANT_TYPE_BYTE = Ok (GV_byte 42)) as H by (by vm_compute).
  split; [exact H|]. exact (X1_decoded_variant_is_valid _ _ _ _ _ H).
Defined.

End DecodedValues.

Section Readers.

Lemma dbus_g_value_parse_g_variant_type v value :
  match G_VALUE_TYPE value with
  | G_TYPE_STRING => g_variant_get_type v = G_VARIANT_TYPE_STRING
  | G_TYPE_INT => g_variant_get_type v = G_VARIANT_TYPE_INT32
  | G_TYPE_INT64 => g_variant_get_type v = G_VARIANT_TYPE_INT64
  | G_TYPE_UINT => g_variant_get_type v = G_VARIANT_TYPE_UINT32
  | G_TYPE_UCHAR => g_variant_get_type v = G_VARIANT_TYPE_BYTE
  | G_TYPE_UINT64 => g_variant_get_type v = G_VARIANT_TYPE_UINT64
  | G_TYPE_BOOLEAN => g_variant_get_type v = G_VARIANT_TYPE_BOOLEAN
  | G_TYPE_STRV => g_variant_get_type v = G_VARIANT_TYPE_STRING_ARRAY
  | DBUS_TYPE_G_OBJECT_PATH => g_variant_get_type v = G_VARIANT_TYPE_OBJECT_PATH
  | TP_ARRAY_TYPE_OBJECT_PATH_LIST =>
      g_variant_get_type v = G_VARIANT_TYPE_OBJECT_PATH_ARRAY
  | TP_STRUCT_TYPE_SIMPLE_PRESENCE => g_variant_get_type v = G_VARIANT_TYPE_USS
  | _ => False
  end →
  G_VALUE_TYPE (dbus_g_value_parse_g_variant v) = G_VALUE_TYPE value.
Proof. destruct (G_VALUE_TYPE value), v; done. Qed.

Lemma mcd_keyfile_get_value_keeps_type keyfile group key value :
  reader_keeps_type value (mcd_keyfile_get_value keyfile group key value).
Proof.
  unfold mcd_keyfile_get_value.
  pose proof (dbus_g_value_parse_g_variant_type) as Htype. specialize (Htype) with (value := value).
  destruct (G_VALUE_TYPE value) eqn:Hty; try done;
    match goal with
    | |- context [mcd_keyfile_get_variant ?kf ?g ?k ?t] =>
        destruct (mcd_keyfile_get_variant kf g k t) as [e|v] eqn:Hget; [done|];
        apply mcd_keyfile_get_variant_valid in Hget as [Hget _];
        split; [rewrite Hty; by apply Htype|done]
    end.
Qed.

Lemma mcd_keyfile_unescape_value_keeps_type escaped value :
  reader_keeps_type value (mcd_keyfile_unescape_value escaped value).
Proof.
  destruct escaped as [escaped|]; [|done]. apply mcd_keyfile_get_value_keeps_type.
Qed.

Lemma mcd_storage_coerce_variant_to_value_keeps_type variant value :
  reader_keeps_type value (mcd_storage_coerce_variant_to_value variant value).
Proof.
  unfold mcd_storage_coerce_variant_to_value.
  destruct (bool_decide _) eqn:Hsame; [by apply bool_decide_eq_true in Hsame|].
  apply mcd_keyfile_unescape_value_keeps_type.
Qed.

(** X2: a reader that answers [TRUE] hands back a value of the [GType]
    the caller initialised its value to, with no error (the [g_assert] of
    [mcd_keyfile_get_value] holds); one that answers [FALSE] leaves the
    caller's value as it was.  This holds for [mcd_keyfile_get_value],
    [mcd_keyfile_unescape_value], [mcd_storage_get_attribute] and
    [mcd_storage_get_parameter], whatever the key file and the cache
    hold. *)
Theorem X2_readers_keep_the_type_of_the_value (keyfile : GKeyFile) (group key : string)
    (escaped : option string) (self : McdStorage) (account name : string)
    (value : GValue) :
  reader_keeps_type value (mcd_keyfile_get_value keyfile group key value)
  ∧ reader_keeps_type value (mcd_keyfile_unescape_value escaped value)
  ∧ reader_keeps_type value (mcd_storage_get_attribute self account name value)
  ∧ reader_keeps_type value (mcd_storage_get_parameter self account name value).
Proof.
  split; [apply mcd_keyfile_get_value_keeps_type|].
  split; [apply mcd_keyfile_unescape_value_keeps_type|].
  split.
  - unfold mcd_storage_get_attribute.
    destruct (g_str_has_prefix name "param-"); [done|].
    destruct (lookup_account self account) as [sa|]; [|done].
    destruct (attributes sa !! name); [|done].
    apply mcd_storage_coerce_variant_to_value_keeps_type.
  - unfold mcd_storage_get_parameter.
    destruct (lookup_account self account) as [sa|]; [|done].
    destruct (parameters sa !! name);
      [apply mcd_storage_coerce_variant_to_value_keeps_type|].
    destruct (escaped_parameters sa !! name); [|done].
    apply mcd_keyfile_unescape_value_keeps_type.
Qed.

End Readers.

Section SetVariant.

Lemma finish_updated (kf : GKeyFile) name key (raw : string) :
  (tp_strdiff (kf !! (name, key)) (g_key_file_set_value kf name key raw !! (name, key))
   = true
   ↔ g_key_file_set_value kf name key raw !! (name, key) ≠ kf !! (name, key))
  ∧ (∀ other, other ≠ (name, key) →
       g_key_file_set_value kf name key raw !! other = kf !! other)
  ∧ g_key_file_set_value (g_key_file_set_value kf name key raw) name key raw
    = g_key_file_set_value kf name key raw
  ∧ tp_strdiff (g_key_file_set_value kf name key raw !! (name, key))
      (g_key_file_set_value kf name key raw !! (name, key)) = false.
Proof.
  unfold g_key_file_set_value, tp_strdiff.
  split; [|split; [|split]].
  - rewrite negb_true_iff, bool_decide_eq_false. split; intros H Heq; by apply H.
  - intros other Hother. by rewrite lookup_insert_ne.
  - by rewrite insert_insert_eq.
  - by rewrite bool_decide_eq_true_2.
Qed.

(** X3: [mcd_keyfile_set_variant] answers [TRUE] exactly when the raw
    value stored under the key is not what it was, it touches no other
    key, and the same call made again answers [FALSE] and leaves the key
    file as it is.  (A value of a type that has no case is not stored: the
    key keeps the value it had.) *)
Theorem X3_set_variant_reports_change (keyfile : GKeyFile) (name key : string)
    (value : option GVariant) :
  let '(keyfile', updated) := mcd_keyfile_set_variant keyfile name key value in
  (updated = true ↔ keyfile' !! (name, key) ≠ keyfile !! (name, key))
  ∧ (∀ other, other ≠ (name, key) → keyfile' !! other = keyfile !! other)
  ∧ mcd_keyfile_set_variant keyfile' name key value = (keyfile', false).
Proof.
  destruct value as [v|].
  - destruct v; cbn [mcd_keyfile_set_variant];
      try (unfold g_key_file_set_string, g_key_file_set_boolean,
             g_key_file_set_string_list;
           match goal with
           | |- context [g_key_file_set_value keyfile name key ?raw] =>
               destruct (finish_updated keyfile name key raw) as (H1 & H2 & H3 & H4);
               split; [exact H1|split; [exact H2|]]; by rewrite H3, H4
           end).
    repeat split; try done.
  - cbn [mcd_keyfile_set_variant].
    unfold g_key_file_get_value, g_key_file_remove_key.
    rewrite lookup_delete_eq, delete_delete_eq. repeat split; try done.
    + destruct (keyfile !! (name, key)); done.
    + destruct (keyfile !! (name, key)); done.
    + intros other Hother. by rewrite lookup_delete_ne.
Qed.

End SetVariant.

Section EscapedForms.

(** The escaped form of a value the decoder has a case for, and what it
    decodes to. *)
Lemma mcd_keyfile_escape_variant_decodes v :
  schema_value v = true →
  ∃ escaped,
    mcd_keyfile_escape_variant v = Some escaped
    ∧ mcd_keyfile_get_variant (g_key_file_set_value g_key_file_new "g" "k" escaped)
        "g" "k" (g_variant_get_type v) = Ok v.
Proof.
  intros Hv.
  pose proof (mcd_keyfile_get_set_variant g_key_file_new "g" "k" v Hv) as Hgk.
  assert (∃ escaped,
            (mcd_keyfile_set_variant g_key_file_new "g" "k" (Some v)).1
            = g_key_file_set_value g_key_file_new "g" "k" escaped) as [escaped Hesc].
  { destruct v; try done; cbn [mcd_keyfile_set_variant fst]; by eexists. }
  exists escaped. split; [|by rewrite <- Hesc].
  unfold mcd_keyfile_escape_variant. rewrite Hesc.
  unfold g_key_file_get_value, g_key_file_set_value. by rewrite lookup_insert_eq.
Qed.

(** The escaped form of a [GValue], read at the [GType] of the value. *)
Lemma mcd_keyfile_unescape_escaped_value value out :
  g_value_holds value →
  schema_value (g_value_content value) = true →
  G_VALUE_TYPE out = G_VALUE_TYPE value →
  ∃ escaped,
    mcd_keyfile_escape_value value = Some escaped
    ∧ mcd_keyfile_unescape_value (Some escaped) out = (true, value, None).
Proof.
  intros Hholds Hv Hout.
  destruct (mcd_keyfile_escape_variant_decodes _ Hv) as (escaped & Hescaped & Hget).
  exists escaped. split; [done|].
  unfold mcd_keyfile_unescape_value, mcd_keyfile_get_value. rewrite Hout.
  assert (match G_VALUE_TYPE value with
          | G_TYPE_STRING =>
              mcd_keyfile_get_variant
                (g_key_file_set_value g_key_file_new "g" "k" escaped)
                "g" "k" G_VARIANT_TYPE_STRING
          | _ => _
          end = Ok (g_value_content value)) as ->.
  - unfold g_value_holds in Hholds. rewrite <- Hholds. rewrite <- Hholds in Hget at 1.
    revert Hget. by destruct (g_value_content value).
  - unfold Ok. cbv beta iota. by rewrite Hholds.
Qed.

(** X4: two values of one type that the decoder has a case for, both in
    normal form, have the same escaped form only when they are the same
    value: comparing escaped strings, as [mcd_storage_set_parameter] does
    for a parameter cached in escaped form, tells such values apart. *)
Theorem X4_escaped_form_is_injective (v1 v2 : GVariant) :
  schema_value v1 = true →
  schema_value v2 = true →
  g_variant_get_type v1 = g_variant_get_type v2 →
  mcd_keyfile_escape_variant v1 = mcd_keyfile_escape_variant v2 →
  v1 = v2.
Proof.
  intros H1 H2 Htype Hescaped.
  destruct (mcd_keyfile_escape_variant_decodes _ H1) as (e1 & He1 & Hget1).
  destruct (mcd_keyfile_escape_variant_decodes _ H2) as (e2 & He2 & Hget2).
  rewrite He1, He2 in Hescaped. injection Hescaped as ->.
  rewrite Htype, Hget2 in Hget1. by injection Hget1.
Qed.

Lemma X4_escaped_form_is_injective_witness :
  GV_strv ["a;b"; " c"] = GV_strv ["a;b"; " c"].
Proof.
  apply (X4_escaped_form_is_injective (GV_strv ["a;b"; " c"]) (GV_strv ["a;b"; " c"]));
    reflexivity.
Defined.

End EscapedForms.

(** * Further properties of the cache *)

Section WriteThenRead.

Variable key_name : AccountsKey → string.

Lemma mcd_nullable_variant_equal_eq a b :
  mcd_nullable_variant_equal a b = true → a = b.
Proof.
  destruct a, b; simpl; try done. unfold g_variant_equal.
  by intros ->%bool_decide_eq_true.
Qed.

Lemma set_attribute_cached self account attribute value :
  is_Some (lookup_account self account) →
  g_str_has_prefix attribute "param-" = false →
  cached_attribute (mcd_storage_set_attribute self account attribute value).1.2
    account attribute
  = dbus_g_value_build_g_variant <$> value.
Proof.
  intros [sa Hsa] Hprefix. unfold mcd_storage_set_attribute, cached_attribute.
  rewrite Hprefix, Hsa. cbv zeta.
  destruct (mcd_nullable_variant_equal _ _) eqn:Heq; cbn [negb fst snd].
  - apply mcd_nullable_variant_equal_eq in Heq. by rewrite Hsa.
  - unfold lookup_account, store_account. cbn [accounts].
    rewrite lookup_insert_eq. cbn [mbind option_bind attributes].
    destruct value; cbn [fmap option_fmap option_map];
      [apply lookup_insert_eq|apply lookup_delete_eq].
Qed.

Lemma set_attribute_keeps_account self account attribute value :
  is_Some (lookup_account self account) →
  is_Some (lookup_account (mcd_storage_set_attribute self account attribute value).1.2
             account).
Proof.
  intros [sa Hsa].
  destruct (set_attribute_owners_kept self account attribute value account sa Hsa)
    as (sa' & -> & _). by eexists.
Qed.

Lemma coerce_at_own_type value out :
  g_value_holds value →
  G_VALUE_TYPE out = G_VALUE_TYPE value →
  mcd_storage_coerce_variant_to_value (dbus_g_value_build_g_variant value) out
  = (true, value, None).
Proof.
  intros Hholds Hout. unfold mcd_storage_coerce_variant_to_value,
    dbus_g_value_build_g_variant.
  unfold g_value_holds in Hholds. rewrite Hholds.
  by rewrite bool_decide_eq_true_2.
Qed.

(** X5: after [mcd_storage_set_attribute] wrote a value, one that a
    [GVariant] can be made of (in normal form), into an account of the
    cache, [mcd_storage_get_attribute] asked for the [GType] of that value
    returns it, whether or not the write changed the cache; after the
    attribute was erased (no value), the reader fails with "not stored"
    and leaves the caller's value alone. *)
Theorem X5_attribute_written_then_read (self : McdStorage) (account attribute : string)
    (value out : GValue) :
  is_Some (lookup_account self account) →
  g_str_has_prefix attribute "param-" = false →
  g_value_holds value →
  g_variant_is_normal_form (g_value_content value) = true →
  G_VALUE_TYPE out = G_VALUE_TYPE value →
  mcd_storage_get_attribute
    (mcd_storage_set_attribute self account attribute (Some value)).1.2
    account attribute out
  = (true, value, None)
  ∧ mcd_storage_get_attribute
      (mcd_storage_set_attribute self account attribute None).1.2
      account attribute out
    = (false, out,
       Some (g_error_new TP_ERROR_NOT_AVAILABLE
               ("Setting '" +:+ attribute +:+ "' not stored by account " +:+ account))).
Proof.
  intros Hsa Hprefix Hholds _ Hout. split.
  - pose proof (set_attribute_cached self account attribute (Some value) Hsa Hprefix)
      as Hcached.
    unfold mcd_storage_get_attribute. rewrite Hprefix.
    unfold cached_attribute in Hcached. revert Hcached.
    destruct (lookup_account (mcd_storage_set_attribute _ _ _ _).1.2 account)
      as [sa'|]; [|done].
    cbn [mbind option_bind fmap option_fmap option_map]. intros ->.
    by apply coerce_at_own_type.
  - pose proof (set_attribute_cached self account attribute None Hsa Hprefix)
      as Hcached.
    pose proof (set_attribute_keeps_account self account attribute None Hsa) as Hkept.
    unfold mcd_storage_get_attribute. rewrite Hprefix.
    unfold cached_attribute in Hcached. revert Hcached Hkept.
    destruct (lookup_account (mcd_storage_set_attribute _ _ _ _).1.2 account)
      as [sa'|]; [|by intros _ []].
    cbn [mbind option_bind fmap option_fmap option_map]. by intros ->.
Qed.

Lemma X5_attribute_written_then_read_witness :
  mcd_storage_get_attribute
    (mcd_storage_set_attribute example_storage "acct" "Enabled"
       (Some (dbus_g_value_parse_g_variant (GV_boolean true)))).1.2
    "acct" "Enabled" (g_value_init G_TYPE_BOOLEAN)
  = (true, dbus_g_value_parse_g_variant (GV_boolean true), None).
Proof.
  apply (X5_attribute_written_then_read example_storage "acct" "Enabled"
           (dbus_g_value_parse_g_variant (GV_boolean true))
           (g_value_init G_TYPE_BOOLEAN)).
  - by eexists.
  - reflexivity.
  - reflexivity.
  - reflexivity.
  - reflexivity.
Defined.

Lemma get_parameter_not_stored self account parameter out :
  parameter_absent self account parameter →
  mcd_storage_get_parameter self account parameter out
  = (false, out,
     Some (g_error_new TP_ERROR_NOT_AVAILABLE
             ("Parameter '" +:+ parameter +:+ "' not stored by account " +:+ account))).
Proof.
  intros (sa & Hsa & Hv & He). unfold mcd_storage_get_parameter.
  by rewrite Hsa, Hv, He.
Qed.

Lemma set_parameter_then_get self account parameter value out sa :
  lookup_account self account = Some sa →
  g_value_holds value →
  schema_value (g_value_content value) = true →
  G_VALUE_TYPE out = G_VALUE_TYPE value →
  mcd_storage_get_parameter
    (mcd_storage_set_parameter self account parameter (Some value)).1.2
    account parameter out
  = (true, value, None).
Proof.
  intros Hsa Hholds Hschema Hout.
  rewrite (set_parameter_unfold _ _ _ _ _ Hsa).
  destruct (parameter_differs self account parameter (Some value)) eqn:Hdiffers;
    cbv zeta; cbn [fst snd].
  - unfold mcd_storage_get_parameter, lookup_account, store_account, parameter_written.
    cbn [accounts]. rewrite lookup_insert_eq. cbn [parameters fmap option_fmap option_map].
    rewrite lookup_insert_eq. by apply coerce_at_own_type.
  - unfold parameter_differs, cached_parameter, cached_escaped_parameter in Hdiffers.
    unfold mcd_storage_get_parameter. rewrite Hsa in Hdiffers |- *.
    cbn [mbind option_bind fmap option_fmap option_map] in Hdiffers.
    destruct (parameters sa !! parameter) as [old_v|].
    + apply negb_false_iff, mcd_nullable_variant_equal_eq in Hdiffers.
      injection Hdiffers as ->. by apply coerce_at_own_type.
    + destruct (escaped_parameters sa !! parameter) as [old_escaped|]; [|done].
      destruct (mcd_keyfile_unescape_escaped_value value out Hholds Hschema Hout)
        as (escaped & Hescaped & Hread).
      unfold tp_strdiff in Hdiffers. rewrite Hescaped in Hdiffers.
      apply negb_false_iff, bool_decide_eq_true in Hdiffers. by injection Hdiffers as ->.
Qed.

(** X6: after [mcd_storage_set_parameter] wrote a value (of a type the
    decoder has a case for, in normal form) into an account of the cache,
    [mcd_storage_get_parameter] asked for the [GType] of that value returns
    it, also when the write was dropped because the cache held the same
    escaped text; after the parameter was erased, the reader fails with
    "not stored" and leaves the caller's value alone. *)
Theorem X6_parameter_written_then_read (self : McdStorage) (account parameter : string)
    (value out : GValue) :
  is_Some (lookup_account self account) →
  g_value_holds value →
  schema_value (g_value_content value) = true →
  G_VALUE_TYPE out = G_VALUE_TYPE value →
  mcd_storage_get_parameter
    (mcd_storage_set_parameter self account parameter (Some value)).1.2
    account parameter out
  = (true, value, None)
  ∧ mcd_storage_get_parameter
      (mcd_storage_set_parameter self account parameter None).1.2
      account parameter out
    = (false, out,
       Some (g_error_new TP_ERROR_NOT_AVAILABLE
               ("Parameter '" +:+ parameter +:+ "' not stored by account "
                  +:+ account))).
Proof.
  intros [sa Hsa] Hholds Hschema Hout. split.
  - by eapply set_parameter_then_get.
  - apply get_parameter_not_stored. by eapply set_parameter_erases.
Qed.

Lemma X6_parameter_written_then_read_witness :
  mcd_storage_get_parameter
    (mcd_storage_set_parameter example_storage "acct" "port"
       (Some (dbus_g_value_parse_g_variant (GV_uint32 5222)))).1.2
    "acct" "port" (g_value_init G_TYPE_UINT)
  = (true, dbus_g_value_parse_g_variant (GV_uint32 5222), None).
Proof.
  apply (X6_parameter_written_then_read example_storage "acct" "port"
           (dbus_g_value_parse_g_variant (GV_uint32 5222))
           (g_value_init G_TYPE_UINT)).
  - by eexists.
  - reflexivity.
  - reflexivity.
  - reflexivity.
Defined.

Lemma get_value_cached self account key :
  get_value self account key
  = if g_str_has_prefix key "param-" then
      match cached_parameter self account (string_drop 6 key) with
      | Some variant => mcd_keyfile_escape_variant variant
      | None => cached_escaped_parameter self account (string_drop 6 key)
      end
    else cached_attribute self account key ≫= mcd_keyfile_escape_variant.
Proof.
  unfold get_value, cached_parameter, cached_escaped_parameter, cached_attribute.
  destruct (lookup_account self account) as [sa|]; cbn [mbind option_bind];
    [|by destruct (g_str_has_prefix key "param-")].
  destruct (g_str_has_prefix key "param-"); [done|].
  by destruct (attributes sa !! key).
Qed.

(** X7: after a write through [mcd_storage_set_attribute] or
    [mcd_storage_set_parameter] into an account of the cache, [get_value],
    the accessor plugins read the cache with, returns the escaped form of
    the value written (one that a [GVariant] can be made of), and nothing
    after an erasure; this is so whether or not the write changed the
    cache. *)
Theorem X7_get_value_after_write (self : McdStorage) (account name : string)
    (value : option GValue) :
  is_Some (lookup_account self account) →
  (∀ v, value = Some v → g_variant_is_normal_form (g_value_content v) = true) →
  (g_str_has_prefix name "param-" = false →
   get_value (mcd_storage_set_attribute self account name value).1.2 account name
   = value ≫= mcd_keyfile_escape_value)
  ∧ get_value (mcd_storage_set_parameter self account name value).1.2
      account ("param-" +:+ name)
    = value ≫= mcd_keyfile_escape_value.
Proof.
  intros Hsa _. split.
  - intros Hprefix. rewrite get_value_cached, Hprefix.
    rewrite set_attribute_cached by done. by destruct value.
  - destruct Hsa as [sa Hsa].
    rewrite get_value_cached, param_prefix, string_drop_param.
    rewrite (set_parameter_unfold _ _ _ _ _ Hsa).
    destruct (parameter_differs self account name value) eqn:Hdiffers;
      cbv zeta; cbn [fst snd].
    + unfold cached_parameter, cached_escaped_parameter, lookup_account,
        store_account, parameter_written.
      cbn [accounts]. rewrite lookup_insert_eq.
      cbn [mbind option_bind parameters escaped_parameters].
      destruct value as [value|]; cbn [fmap option_fmap option_map mbind option_bind].
      * by rewrite lookup_insert_eq.
      * by rewrite !lookup_delete_eq.
    + unfold parameter_differs in Hdiffers.
      destruct (cached_parameter self account name) as [old_v|].
      * apply negb_false_iff, mcd_nullable_variant_equal_eq in Hdiffers.
        destruct value as [value|]; [|done]. by injection Hdiffers as ->.
      * destruct (cached_escaped_parameter self account name) as [old_escaped|].
        -- unfold tp_strdiff in Hdiffers.
           by apply negb_false_iff, bool_decide_eq_true in Hdiffers.
        -- apply bool_decide_eq_false in Hdiffers. destruct value; [|done].
           destruct Hdiffers. by eexists.
Qed.

Lemma X7_get_value_after_write_witness :
  get_value
    (mcd_storage_set_parameter example_storage "acct" "port"
       (Some (dbus_g_value_parse_g_variant (GV_uint32 5223)))).1.2
    "acct" "param-port"
  = Some "5223".
Proof.
  refine (proj2 (X7_get_value_after_write example_storage "acct" "port"
                  (Some (dbus_g_value_parse_g_variant (GV_uint32 5223)))
                  (ex_intro _ example_account eq_refl) _)).
  intros v [= <-]. reflexivity.
Defined.

(** The [GType] [set_value] decodes an attribute at. *)
Lemma set_value_attribute_cached self account key escaped sa :
  lookup_account self account = Some sa →
  g_str_has_prefix key "param-" = false →
  cached_attribute (set_value key_name self account key (Some escaped)).1 account key
  = match mcd_keyfile_unescape_value (Some escaped)
            (default (g_value_init G_TYPE_STRING)
               (mcd_storage_init_value_for_attribute key_name key)) with
    | (true, tmp, _) => Some (dbus_g_value_build_g_variant tmp)
    | (false, _, _) => None
    end.
Proof.
  intros Hsa Hprefix. unfold set_value. rewrite Hsa, Hprefix.
  destruct (mcd_storage_init_value_for_attribute key_name key) as [tmp|];
    cbn [default from_option id]; cbv beta iota zeta;
    match goal with
    | |- context [mcd_keyfile_unescape_value ?e ?v] =>
        destruct (mcd_keyfile_unescape_value e v) as [[[] tmp'] err]
    end;
    unfold cached_attribute, lookup_account, store_account; cbn [fst accounts];
    rewrite lookup_insert_eq; cbn [mbind option_bind attributes].
  all: by rewrite ?lookup_insert_eq, ?lookup_delete_eq.
Qed.

(** X8: what a plugin pushes into the cache as escaped text comes back
    typed.  When the text is the escaped form of a value (of a type the
    decoder has a case for, in normal form), a parameter pushed with
    [set_value] is read by [mcd_storage_get_parameter] as that value, and
    an attribute pushed with [set_value] is read by
    [mcd_storage_get_attribute] as that value when the [GType] of the value
    is the one the attribute is decoded at (the one of the table of known
    attributes, a string for the others). *)
Theorem X8_pushed_text_is_read_typed (self : McdStorage) (account name escaped : string)
    (value out : GValue) :
  is_Some (lookup_account self account) →
  g_value_holds value →
  schema_value (g_value_content value) = true →
  mcd_keyfile_escape_value value = Some escaped →
  G_VALUE_TYPE out = G_VALUE_TYPE value →
  mcd_storage_get_parameter
    (set_value key_name self account ("param-" +:+ name) (Some escaped)).1
    account name out
  = (true, value, None)
  ∧ (g_str_has_prefix name "param-" = false →
     G_VALUE_TYPE (default (g_value_init G_TYPE_STRING)
                     (mcd_storage_init_value_for_attribute key_name name))
     = G_VALUE_TYPE value →
     mcd_storage_get_attribute
       (set_value key_name self account name (Some escaped)).1 account name out
     = (true, value, None)).
Proof.
  intros [sa Hsa] Hholds Hschema Hescaped Hout. split.
  - unfold set_value. rewrite Hsa, param_prefix, string_drop_param.
    unfold mcd_storage_get_parameter, lookup_account, store_account.
    cbn [fst accounts]. rewrite lookup_insert_eq.
    cbn [parameters escaped_parameters].
    rewrite lookup_delete_eq, lookup_insert_eq.
    destruct (mcd_keyfile_unescape_escaped_value value out Hholds Hschema Hout)
      as (escaped' & Hescaped' & Hread). congruence.
  - intros Hprefix Htype.
    pose proof (set_value_attribute_cached self account name escaped sa Hsa Hprefix)
      as Hcached.
    destruct (mcd_keyfile_unescape_escaped_value value _ Hholds Hschema Htype)
      as (escaped' & Hescaped' & Hread).
    assert (escaped' = escaped) as -> by congruence.
    rewrite Hread in Hcached.
    unfold mcd_storage_get_attribute. rewrite Hprefix.
    unfold cached_attribute in Hcached. revert Hcached.
    destruct (lookup_account (set_value _ _ _ _ _).1 account) as [sa'|]; [|done].
    cbn [mbind option_bind]. intros ->. by apply coerce_at_own_type.
Qed.

End WriteThenRead.

Lemma X8_pushed_text_is_read_typed_witness :
  mcd_storage_get_parameter
    (set_value example_key_name example_storage "acct" "param-port" (Some "007")).1
    "acct" "port" (g_value_init G_TYPE_UINT)
  = mcd_storage_get_parameter
      (set_value example_key_name example_storage "acct" "param-port" (Some "7")).1
      "acct" "port" (g_value_init G_TYPE_UINT)
  ∧ mcd_storage_get_parameter
      (set_value example_key_name example_storage "acct" "param-port" (Some "7")).1
      "acct" "port" (g_value_init G_TYPE_UINT)
    = (true, dbus_g_value_parse_g_variant (GV_uint32 7), None).
Proof.
  split; [reflexivity|].
  apply (proj1 (X8_pushed_text_is_read_typed example_key_name example_storage
                  "acct" "port" "7" (dbus_g_value_parse_g_variant (GV_uint32 7))
                  (g_value_init G_TYPE_UINT)
                  (ex_intro _ example_account eq_refl) eq_refl eq_refl eq_refl eq_refl)).
Defined.


Section Frame.

Variable key_name : AccountsKey → string.

(** The record of an account rewritten under one key. *)
Lemma frame_store self account parameter name sa sa' :
  lookup_account self account = Some sa →
  storage sa' = storage sa →
  (if parameter : bool
   then attributes sa' = attributes sa
        ∧ ∀ n, n ≠ name →
            parameters sa' !! n = parameters sa !! n
            ∧ escaped_parameters sa' !! n = escaped_parameters sa !! n
   else parameters sa' = parameters sa
        ∧ escaped_parameters sa' = escaped_parameters sa
        ∧ ∀ n, n ≠ name → attributes sa' !! n = attributes sa !! n) →
  let self' := store_account self account sa' in
  dom (accounts self') = dom (accounts self)
  ∧ (∀ a, storage <$> lookup_account self' a = storage <$> lookup_account self a)
  ∧ (∀ key, key ≠ (account, parameter, name) →
       cached_value self' key = cached_value self key).
Proof.
  intros Hsa Hstorage Htables self'. subst self'.
  unfold lookup_account, store_account in *. cbn [accounts].
  split; [|split].
  - apply set_eq. intros a. rewrite !elem_of_dom, lookup_insert.
    case_decide as Ha; [subst a; by rewrite Hsa|done].
  - intros a. rewrite lookup_insert. case_decide as Ha; [|done].
    subst a. rewrite Hsa. cbn. by rewrite Hstorage.
  - intros [[a p] n] Hkey.
    unfold cached_value, cached_parameter, cached_escaped_parameter, cached_attribute,
      lookup_account. cbn [accounts].
    rewrite lookup_insert. case_decide as Ha; [|done]. subst a. rewrite Hsa.
    cbn [mbind option_bind].
    destruct parameter, p.
    + destruct Htables as [_ Hn]. destruct (Hn n) as [-> ->]; [congruence|done].
    + destruct Htables as [-> _]. done.
    + destruct Htables as (-> & -> & _). done.
    + destruct Htables as (_ & _ & Hn). rewrite Hn; [done|congruence].
Qed.

Lemma frame_same self key :
  dom (accounts self) = dom (accounts self)
  ∧ (∀ a, storage <$> lookup_account self a = storage <$> lookup_account self a)
  ∧ (∀ key', key' ≠ key → cached_value self key' = cached_value self key').
Proof. done. Qed.

Ltac frame_tables :=
  cbn [attributes parameters escaped_parameters storage fmap option_fmap option_map];
  repeat split; try done; intros;
  rewrite ?lookup_insert_ne, ?lookup_delete_ne by done; done.

Lemma run_write_frame (self : McdStorage) (op : Operation)
    (key : string * bool * string) :
  written_key op = Some key →
  let self' := run key_name self op in
  dom (accounts self') = dom (accounts self)
  ∧ (∀ account,
       storage <$> lookup_account self' account = storage <$> lookup_account self account)
  ∧ (∀ other, other ≠ key → cached_value self' other = cached_value self other).
Proof.
  intros Hkey self'. subst self'.
  destruct op as [account attribute value|account parameter value|w| | | |]; try done.
  - injection Hkey as <-. cbn [run]. unfold mcd_storage_set_attribute.
    destruct (g_str_has_prefix attribute "param-"); [apply frame_same|].
    destruct (lookup_account self account) as [sa|] eqn:Hsa; [|apply frame_same].
    cbv zeta. destruct (negb _); cbn [fst snd]; [|apply frame_same].
    eapply frame_store; [done|done|].
    destruct value; frame_tables.
  - injection Hkey as <-. cbn [run]. unfold mcd_storage_set_parameter.
    destruct (lookup_account self account) as [sa|] eqn:Hsa; [|apply frame_same].
    cbv zeta.
    match goal with |- context [if ?b then _ else _] => destruct b end;
      cbn [fst snd]; [|apply frame_same].
    eapply frame_store; [done|done|].
    destruct value; frame_tables.
  - destruct w as [account k value|account attribute value|account parameter value];
      cbn [run write_back written_key] in *.
    + unfold set_value.
      destruct (lookup_account self account) as [sa|] eqn:Hsa; [|apply frame_same].
      destruct (g_str_has_prefix k "param-"); injection Hkey as <-.
      * eapply frame_store; [done|done|]. destruct value; frame_tables.
      * destruct value as [value|]; [|eapply frame_store; [done|done|]; frame_tables].
        destruct (mcd_storage_init_value_for_attribute key_name k) as [tmp|];
          cbv beta iota zeta;
          match goal with
          | |- context [mcd_keyfile_unescape_value ?e ?v] =>
              destruct (mcd_keyfile_unescape_value e v) as [[[] tmp'] err]
          end;
          (eapply frame_store; [done|done|]; frame_tables).
    + injection Hkey as <-. unfold mcpa_set_attribute.
      destruct (lookup_account self account) as [sa|] eqn:Hsa; [|apply frame_same].
      eapply frame_store; [done|done|]. destruct value; frame_tables.
    + injection Hkey as <-. unfold mcpa_set_parameter.
      destruct (lookup_account self account) as [sa|] eqn:Hsa; [|apply frame_same].
      eapply frame_store; [done|done|]. destruct value; frame_tables.
Qed.

(** X9: a write changes the cache under one key only.  Whatever
    [mcd_storage_set_attribute], [mcd_storage_set_parameter] or a
    write-back of a plugin ([set_value], [mcpa_set_attribute],
    [mcpa_set_parameter]) is handed, the accounts of the cache are the
    same after it, each with the plugin that owned it, and what the cache
    holds under every other key, of this account or of another, is what
    it held before. *)
Theorem X9_write_changes_one_key (self : McdStorage) (op : Operation)
    (key : string * bool * string) :
  written_key op = Some key →
  let self' := run key_name self op in
  dom (accounts self') = dom (accounts self)
  ∧ (∀ account,
       storage <$> lookup_account self' account = storage <$> lookup_account self account)
  ∧ (∀ other, other ≠ key → cached_value self' other = cached_value self other).
Proof. apply run_write_frame. Qed.

End Frame.

Lemma X9_write_changes_one_key_witness :
  cached_value
    (run example_key_name example_storage
       (Op_write_back (WB_set_value "acct" "param-account" None)))
    ("acct", true, "port")
  = (None, Some "5222").
Proof.
  refine (eq_trans
            (proj2 (proj2 (X9_write_changes_one_key example_key_name example_storage
                             (Op_write_back (WB_set_value "acct" "param-account" None))
                             ("acct", true, "account") eq_refl))
               ("acct", true, "port") _) _).
  - discriminate.
  - reflexivity.
Defined.

Section Loading.

Variable key_name : AccountsKey → string.

Lemma write_back_dom self w :
  dom (accounts (write_back key_name self w).1) = dom (accounts self).
Proof.
  assert (∃ key, written_key (Op_write_back w) = Some key) as [key Hkey].
  { destruct w as [account k value| |]; cbn [written_key]; try by eexists.
    destruct (g_str_has_prefix k "param-"); by eexists. }
  apply (run_write_frame key_name self (Op_write_back w) key Hkey).
Qed.

Lemma write_backs_dom ws self :
  dom (accounts (write_backs key_name self ws).1) = dom (accounts self).
Proof.
  revert self. induction ws as [|w ws IH]; intros self; simpl; [done|].
  pose proof (write_back_dom self w) as Hw.
  destruct (write_back key_name self w) as [self1 ev].
  specialize (IH self1).
  destruct (write_backs key_name self1 ws) as [self2 evs].
  simpl in *. congruence.
Qed.

(** An account added under a name the cache does not have. *)
Lemma add_account_from_plugin_new_name self plugin account :
  lookup_account self account = None →
  let self' :=
    (mcd_storage_add_account_from_plugin key_name self plugin (Some account)).1 in
  dom (accounts self') = {[account]} ∪ dom (accounts self)
  ∧ storage <$> lookup_account self' account = Some plugin.
Proof.
  intros Hnone. unfold mcd_storage_add_account_from_plugin.
  rewrite bool_decide_eq_false_2; [|by unfold lookup_account in Hnone; rewrite Hnone;
                                     intros []].
  pose proof (write_backs_dom (mcp_account_storage_get plugin account)
                (store_account self account (mcd_storage_account_new plugin))) as Hdom.
  pose proof (write_backs_owners_kept key_name (mcp_account_storage_get plugin account)
                (store_account self account (mcd_storage_account_new plugin))
                account (mcd_storage_account_new plugin)) as Hown.
  destruct (write_backs _ _ _) as [self1 evs]. cbn [fst] in *.
  split.
  - rewrite Hdom. unfold store_account. cbn [accounts]. by rewrite dom_insert_L.
  - destruct Hown as (sa' & -> & Hsa').
    + unfold lookup_account, store_account. cbn [accounts]. by rewrite lookup_insert_eq.
    + cbn. by rewrite Hsa'.
Qed.

Lemma add_account_from_plugin_dom self plugin account :
  dom (accounts (mcd_storage_add_account_from_plugin key_name self plugin
                   (Some account)).1)
  = {[account]} ∪ dom (accounts self).
Proof.
  destruct (lookup_account self account) as [sa|] eqn:Hsa.
  - rewrite (add_account_from_plugin_present key_name _ _ _ _ Hsa). cbn [fst].
    unfold lookup_account in Hsa. apply elem_of_dom_2 in Hsa. (set_unfold; intuition (subst; eauto)).
  - by apply add_account_from_plugin_new_name.
Qed.

Lemma owner_kept self self' account plugin :
  owners_kept self self' →
  storage <$> lookup_account self account = Some plugin →
  storage <$> lookup_account self' account = Some plugin.
Proof.
  intros Hkept Hown.
  destruct (lookup_account self account) as [sa|] eqn:Hsa; [|done].
  destruct (Hkept account sa Hsa) as (sa' & -> & Hsa'). cbn in *. congruence.
Qed.

Lemma add_accounts_from_plugin_dom stored self plugin :
  dom (accounts (add_accounts_from_plugin key_name self plugin stored).1)
  = list_to_set stored ∪ dom (accounts self).
Proof.
  revert self. induction stored as [|name stored IH]; intros self;
    cbn -[mcd_storage_add_account_from_plugin]; [(set_unfold; intuition (subst; eauto))|].
  pose proof (add_account_from_plugin_dom self plugin name) as Ha.
  destruct (mcd_storage_add_account_from_plugin _ _ _ _) as [self1 ev].
  specialize (IH self1).
  destruct (add_accounts_from_plugin key_name self1 plugin stored) as [self2 evs].
  cbn [fst] in *. rewrite IH, Ha. (set_unfold; intuition (subst; eauto)).
Qed.

Lemma add_accounts_from_plugin_owner stored self plugin name :
  name ∈ stored →
  lookup_account self name = None →
  storage <$> lookup_account (add_accounts_from_plugin key_name self plugin stored).1 name
  = Some plugin.
Proof.
  revert self. induction stored as [|first stored IH]; intros self Hin Hnone;
    cbn -[mcd_storage_add_account_from_plugin]; [by apply elem_of_nil in Hin|].
  destruct (decide (name = first)) as [->|Hne].
  - pose proof (add_account_from_plugin_new_name self plugin first Hnone) as [_ Hown].
    pose proof (add_accounts_from_plugin_owners_kept key_name stored
                  (mcd_storage_add_account_from_plugin key_name self plugin
                     (Some first)).1 plugin) as Hkept.
    destruct (mcd_storage_add_account_from_plugin _ _ _ _) as [self1 ev].
    cbn [fst] in *.
    destruct (add_accounts_from_plugin _ _ _ _) as [self2 evs].
    cbn [fst] in *. by eapply owner_kept.
  - apply elem_of_cons in Hin as [?|Hin]; [done|].
    pose proof (add_account_from_plugin_dom self plugin first) as Hdom.
    destruct (mcd_storage_add_account_from_plugin _ _ _ _) as [self1 ev].
    specialize (IH self1 Hin).
    destruct (add_accounts_from_plugin key_name self1 plugin stored) as [self2 evs].
    cbn [fst] in *. apply IH.
    unfold lookup_account in *.
    apply not_elem_of_dom. rewrite Hdom. apply not_elem_of_dom in Hnone. (set_unfold; intuition (subst; eauto)).
Qed.

Lemma load_from_dom visited self :
  dom (accounts (load_from key_name self visited).1)
  = ⋃ ((list_to_set ∘ mcp_account_storage_list) <$> visited) ∪ dom (accounts self).
Proof.
  revert self. induction visited as [|plugin visited IH]; intros self; simpl;
    [(set_unfold; intuition (subst; eauto))|].
  pose proof (add_accounts_from_plugin_dom (mcp_account_storage_list plugin) self plugin)
    as Ha.
  destruct (add_accounts_from_plugin _ _ _ _) as [self1 ev].
  specialize (IH self1).
  destruct (load_from key_name self1 visited) as [self2 evs].
  cbn [fst] in *. rewrite IH, Ha. (set_unfold; intuition (subst; eauto)).
Qed.

Lemma load_from_owner visited :
  ∀ self earlier plugin later name,
    visited = earlier ++ plugin :: later →
    name ∈ mcp_account_storage_list plugin →
    (∀ q, q ∈ earlier → name ∉ mcp_account_storage_list q) →
    lookup_account self name = None →
    storage <$> lookup_account (load_from key_name self visited).1 name = Some plugin.
Proof.
  induction visited as [|first visited IH];
    intros self earlier plugin later name Hsplit Hin Hearlier Hnone;
    [by destruct earlier|].
  simpl.
  destruct earlier as [|e earlier]; simplify_eq/=.
  - pose proof (add_accounts_from_plugin_owner _ self plugin name Hin Hnone) as Hown.
    pose proof (load_from_owners_kept key_name later
                  (add_accounts_from_plugin key_name self plugin
                     (mcp_account_storage_list plugin)).1) as Hkept.
    destruct (add_accounts_from_plugin _ _ _ _) as [self1 ev].
    cbn [fst] in *.
    destruct (load_from _ _ _) as [self2 evs].
    cbn [fst] in *. by eapply owner_kept.
  - pose proof (add_accounts_from_plugin_dom (mcp_account_storage_list e) self e) as Hdom.
    destruct (add_accounts_from_plugin _ _ _ _) as [self1 ev].
    specialize (IH self1 earlier plugin later name eq_refl Hin).
    destruct (load_from key_name self1 (earlier ++ plugin :: later)) as [self2 evs].
    cbn [fst] in *. apply IH.
    + intros q Hq. apply Hearlier. by right.
    + unfold lookup_account in *.
      apply not_elem_of_dom. rewrite Hdom. apply not_elem_of_dom in Hnone.
      assert (name ∉ mcp_account_storage_list e) by (apply Hearlier; by left).
      (set_unfold; intuition (subst; eauto)).
Qed.

(** X10: [mcd_storage_load] makes the accounts of the cache the ones it
    had and the ones some plugin lists.  An account listed by several
    plugins, and not in the cache before, is owned by the one of them that
    is last in the registry: the registry is walked from its tail, and
    the account is refused from every plugin visited after the first one
    that listed it. *)
Theorem X10_load_names_and_owners (self : McdStorage) (stores : list McpAccountStorage) :
  let self' := (mcd_storage_load key_name self stores).1 in
  (∀ name,
     is_Some (lookup_account self' name)
     ↔ is_Some (lookup_account self name)
       ∨ ∃ plugin, plugin ∈ stores ∧ name ∈ mcp_account_storage_list plugin)
  ∧ (∀ earlier plugin later name,
       stores = earlier ++ plugin :: later →
       name ∈ mcp_account_storage_list plugin →
       (∀ q, q ∈ later → name ∉ mcp_account_storage_list q) →
       lookup_account self name = None →
       storage <$> lookup_account self' name = Some plugin).
Proof.
  intros self'. subst self'. unfold mcd_storage_load. split.
  - intros name. unfold lookup_account. rewrite <- !elem_of_dom, load_from_dom.
    rewrite elem_of_union, elem_of_union_list. split.
    + intros [(X & HX & Hname)|Hname]; [right|by left].
      apply list_elem_of_fmap in HX as (plugin & -> & Hplugin).
      exists plugin. split.
      * by apply list_elem_of_In, in_rev, list_elem_of_In.
      * by apply elem_of_list_to_set in Hname.
    + intros [Hname|(plugin & Hplugin & Hname)]; [by right|left].
      exists (list_to_set (mcp_account_storage_list plugin)). split.
      * apply list_elem_of_fmap. exists plugin. split; [done|].
        by apply list_elem_of_In, in_rev; rewrite rev_involutive; apply list_elem_of_In.
      * by apply elem_of_list_to_set.
  - intros earlier plugin later name -> Hname Hlater Hnone.
    apply (load_from_owner _ self (rev later) plugin (rev earlier)); [|done| |done].
    + rewrite rev_app_distr. simpl. by rewrite <- app_assoc.
    + intros q Hq. apply Hlater. by apply list_elem_of_In, in_rev, list_elem_of_In.
Qed.

End Loading.

Lemma X10_load_names_and_owners_witness :
  storage
    <$> lookup_account
          (mcd_storage_load example_key_name mcd_storage_init
             [listing_plugin "high" 10 ["x"] (λ _, []);
              listing_plugin "low" 0 ["x"; "y"] (λ _, [])]).1 "x"
  = Some (listing_plugin "low" 0 ["x"; "y"] (λ _, [])).
Proof.
  apply (proj2 (X10_load_names_and_owners example_key_name mcd_storage_init
                  [listing_plugin "high" 10 ["x"] (λ _, []);
                   listing_plugin "low" 0 ["x"; "y"] (λ _, [])])
           [listing_plugin "high" 10 ["x"] (λ _, [])]
           (listing_plugin "low" 0 ["x"; "y"] (λ _, [])) [] "x" eq_refl).
  - by left.
  - intros q Hq. by apply elem_of_nil in Hq.
  - reflexivity.
Defined.

Section Lifecycle.

Variable key_name : AccountsKey → string.

(** A write-back leaves the records of the other accounts alone. *)
Lemma write_back_other self w other :
  other ≠ write_back_account w →
  lookup_account (write_back key_name self w).1 other = lookup_account self other.
Proof.
  intros Hother.
  assert (∀ sa', lookup_account (store_account self (write_back_account w) sa') other
                 = lookup_account self other) as Hstore.
  { intros sa'. unfold lookup_account, store_account. cbn [accounts].
    by rewrite lookup_insert_ne. }
  destruct w as [account k value|account attribute value|account parameter value];
    cbn [write_back write_back_account] in *.
  - unfold set_value.
    destruct (lookup_account self account) as [sa|]; [|done].
    destruct (g_str_has_prefix k "param-"); [apply Hstore|].
    destruct value as [value|]; [|apply Hstore].
    destruct (mcd_storage_init_value_for_attribute key_name k) as [tmp|];
      cbv beta iota zeta;
      match goal with
      | |- context [mcd_keyfile_unescape_value ?e ?v] =>
          destruct (mcd_keyfile_unescape_value e v) as [[[] tmp'] err]
      end; apply Hstore.
  - unfold mcpa_set_attribute.
    destruct (lookup_account self account) as [sa|]; [apply Hstore|done].
  - unfold mcpa_set_parameter.
    destruct (lookup_account self account) as [sa|]; [apply Hstore|done].
Qed.

Lemma write_backs_other ws self account other :
  Forall (λ w, write_back_account w = account) ws →
  other ≠ account →
  lookup_account (write_backs key_name self ws).1 other = lookup_account self other.
Proof.
  intros Hws Hother. revert self.
  induction Hws as [|w ws Hw Hws IH]; intros self; simpl; [done|].
  pose proof (write_back_other self w other) as Hstep.
  destruct (write_back key_name self w) as [self1 ev].
  specialize (IH self1).
  destruct (write_backs key_name self1 ws) as [self2 evs].
  cbn [fst] in *. rewrite IH. apply Hstep. congruence.
Qed.

(** X11: adding an account and deleting it leaves the cache as it was.
    When the name is not in the cache and the plugin, asked for the
    account, pushes data for that account only,
    [mcd_storage_add_account_from_plugin] followed by
    [mcd_storage_delete_account] gives back the cache it started from,
    and the plugin that was handed the account is the one asked to delete
    it, the whole of it. *)
Theorem X11_add_then_delete_account (self : McdStorage) (plugin : McpAccountStorage)
    (account : string) :
  lookup_account self account = None →
  Forall (λ w, write_back_account w = account) (mcp_account_storage_get plugin account) →
  mcd_storage_delete_account
    (mcd_storage_add_account_from_plugin key_name self plugin (Some account)).1 account
  = (self, [MCP_delete (mcp_account_storage_name plugin) account None]).
Proof.
  intros Hnone Hws.
  pose proof (add_account_from_plugin_new_name key_name self plugin account Hnone)
    as [_ Hown].
  assert (∀ other, other ≠ account →
            lookup_account
              (mcd_storage_add_account_from_plugin key_name self plugin
                 (Some account)).1 other
            = lookup_account self other) as Hother.
  { intros other Hne. unfold mcd_storage_add_account_from_plugin.
    rewrite bool_decide_eq_false_2;
      [|by unfold lookup_account in Hnone; rewrite Hnone; intros []].
    pose proof (write_backs_other (mcp_account_storage_get plugin account)
                  (store_account self account (mcd_storage_account_new plugin))
                  account other Hws Hne) as Hw.
    destruct (write_backs _ _ _) as [self1 evs]. cbn [fst] in *. rewrite Hw.
    unfold lookup_account, store_account. cbn [accounts].
    by rewrite lookup_insert_ne. }
  destruct (mcd_storage_add_account_from_plugin _ _ _ _) as [self1 evs].
  cbn [fst] in *. unfold mcd_storage_delete_account.
  destruct (lookup_account self1 account) as [sa|] eqn:Hsa; [|done].
  injection Hown as ->. f_equal.
  destruct self as [m], self1 as [m1]. unfold lookup_account in *. cbn [accounts] in *.
  f_equal. apply map_eq. intros other.
  destruct (decide (other = account)) as [->|Hne].
  - by rewrite lookup_delete_eq, Hnone.
  - rewrite lookup_delete_ne by done. by apply Hother.
Qed.

End Lifecycle.

Lemma X11_add_then_delete_account_witness :
  mcd_storage_delete_account
    (mcd_storage_add_account_from_plugin example_key_name example_storage
       (listing_plugin "p" 0 ["x"]
          (λ account, [WB_set_value account "DisplayName" (Some "Ann");
                       WB_set_value account "param-port" (Some "5222")]))
       (Some "x")).1 "x"
  = (example_storage, [MCP_delete "p" "x" None]).
Proof.
  apply (X11_add_then_delete_account example_key_name example_storage
           (listing_plugin "p" 0 ["x"]
              (λ account, [WB_set_value account "DisplayName" (Some "Ann");
                           WB_set_value account "param-port" (Some "5222")])) "x").
  - reflexivity.
  - repeat constructor.
Defined.

Section Creating.

Variable key_name : AccountsKey → string.

(** What [mcd_storage_add_account_from_plugin] is handed by
    [mcd_storage_create_account], and what is in the cache after. *)
Lemma add_created_account self plugin account :
  let self' :=
    (mcd_storage_add_account_from_plugin key_name self plugin (Some account)).1 in
  is_Some (lookup_account self' account)
  ∧ (lookup_account self account = None →
     storage <$> lookup_account self' account = Some plugin).
Proof.
  cbv zeta. split.
  - unfold lookup_account. rewrite <- elem_of_dom, add_account_from_plugin_dom.
    apply elem_of_union_l. by apply elem_of_singleton.
  - intros Hnone. by apply add_account_from_plugin_new_name.
Qed.

Lemma create_in_priority_order_result store :
  ∀ self manager protocol identification,
    let '(account, error, self', _) :=
      create_in_priority_order key_name self store manager protocol identification in
    match account with
    | Some account =>
        is_Some (lookup_account self' account)
        ∧ ∃ plugin,
            plugin ∈ store
            ∧ mcp_account_storage_create plugin (dom (accounts self))
                manager protocol identification = (Some account, error)
            ∧ (lookup_account self account = None →
               storage <$> lookup_account self' account = Some plugin)
    | None =>
        self' = self
        ∧ error
          = Some (g_error_new TP_ERROR_INVALID_ARGUMENT
                    "None of the storage provider are able to create the account")
        ∧ Forall (λ plugin,
                    (mcp_account_storage_create plugin (dom (accounts self))
                       manager protocol identification).1 = None) store
    end.
Proof.
  induction store as [|plugin store IH]; intros self manager protocol identification;
    cbn -[mcd_storage_add_account_from_plugin]; [done|].
  destruct (mcp_account_storage_create plugin _ _ _ _) as [[account|] e] eqn:Hcreate.
  - pose proof (add_created_account self plugin account) as [Hin Hown].
    destruct (mcd_storage_add_account_from_plugin _ _ _ _) as [self' evs].
    cbn [fst] in *. split; [done|].
    exists plugin. split; [by left|]. split; [done|by apply Hown].
  - specialize (IH self manager protocol identification).
    destruct (create_in_priority_order _ _ _ _ _ _) as [[[account error] self'] evs].
    destruct account as [account|].
    + destruct IH as (Hin & q & Hq & Hcreated & Hstorage). split; [done|].
      exists q. split; [by right|done].
    + destruct IH as (Hself & Herror & Hall). split; [done|]. split; [done|].
      constructor; [by rewrite Hcreate|done].
Qed.

(** X12: what [mcd_storage_create_account] leaves, with or without a
    provider, for a manager and a protocol that are not empty.  When it
    returns a name, a plugin of the registry returned that name from
    [create], the error is what that plugin left, and the name is an
    account of the cache, owned by that plugin if the name was not in the
    cache before.  When it returns no name, the cache is as it was;
    without a provider every plugin returned no name and the error says
    so; with a provider, either no plugin has it and the error says so,
    or the plugin that has it returned no name and the error is what it
    left, which is no error at all when it left none. *)
Theorem X12_create_account_result (self : McdStorage) (stores : list McpAccountStorage)
    (provider : option string) (manager protocol identification : string) :
  manager ≠ "" →
  protocol ≠ "" →
  let '(account, error, self', _) :=
    mcd_storage_create_account key_name self stores provider
      manager protocol identification in
  match account with
  | Some account =>
      is_Some (lookup_account self' account)
      ∧ ∃ plugin,
          plugin ∈ stores
          ∧ mcp_account_storage_create plugin (dom (accounts self))
              manager protocol identification = (Some account, error)
          ∧ (lookup_account self account = None →
             storage <$> lookup_account self' account = Some plugin)
  | None =>
      self' = self
      ∧ match provider with
        | None =>
            error
            = Some (g_error_new TP_ERROR_INVALID_ARGUMENT
                      "None of the storage provider are able to create the account")
            ∧ Forall (λ plugin,
                        (mcp_account_storage_create plugin (dom (accounts self))
                           manager protocol identification).1 = None) stores
        | Some provider =>
            (∃ plugin,
                plugin ∈ stores
                ∧ mcp_account_storage_provider plugin = provider
                ∧ mcp_account_storage_create plugin (dom (accounts self))
                    manager protocol identification = (None, error))
            ∨ (error
               = Some (g_error_new TP_ERROR_INVALID_ARGUMENT
                         ("Storage provider '" +:+ provider +:+ "' does not exist"))
               ∧ Forall (λ plugin, mcp_account_storage_provider plugin ≠ provider)
                   stores)
        end
  end.
Proof.
  intros Hmanager Hprotocol. unfold mcd_storage_create_account, tp_str_empty.
  rewrite !bool_decide_eq_false_2 by done.
  destruct provider as [provider|]; [|apply create_in_priority_order_result].
  destruct (find _ stores) as [plugin|] eqn:Hfind.
  - apply find_some in Hfind as [Hplugin Hprovider].
    apply list_elem_of_In in Hplugin.
    unfold tp_strdiff in Hprovider. rewrite negb_involutive in Hprovider.
    apply bool_decide_eq_true_1 in Hprovider. injection Hprovider as Hprovider.
    destruct (mcp_account_storage_create plugin _ _ _ _) as [[account|] e] eqn:Hcreate.
    + pose proof (add_created_account self plugin account) as [Hin Hown].
      destruct (mcd_storage_add_account_from_plugin _ _ _ _) as [self' evs].
      cbn [fst] in *. split; [done|].
      exists plugin. split; [done|]. split; [done|by apply Hown].
    + cbn -[mcd_storage_add_account_from_plugin]. split; [done|]. left.
      by exists plugin.
  - split; [done|]. right. split; [done|].
    rewrite Forall_forall. intros plugin Hplugin Heq.
    apply list_elem_of_In in Hplugin.
    apply (find_none _ _ Hfind) in Hplugin.
    unfold tp_strdiff in Hplugin. rewrite negb_involutive in Hplugin.
    apply bool_decide_eq_false_1 in Hplugin. by rewrite Heq in Hplugin.
Qed.

End Creating.

Lemma X12_create_account_result_witness :
  mcd_storage_create_account example_key_name example_storage
    [silent_plugin "silent" "org.example.Silent"; example_default]
    (Some "org.example.Silent") "gabble" "jabber" "fred"
  = (None, None, example_storage,
     [MCP_create "silent" None; G_CRITICAL "account != NULL"])
  ∧ let '(account, error, self', _) :=
      mcd_storage_create_account example_key_name example_storage
        [silent_plugin "silent" "org.example.Silent"; example_default]
        (Some "org.example.Silent") "gabble" "jabber" "fred" in
    match account with
    | Some account =>
        is_Some (lookup_account self' account)
        ∧ ∃ p, p ∈ [silent_plugin "silent" "org.example.Silent"; example_default]
               ∧ mcp_account_storage_create p (dom (accounts example_storage))
                   "gabble" "jabber" "fred" = (Some account, error)
               ∧ (lookup_account example_storage account = None →
                  storage <$> lookup_account self' account = Some p)
    | None =>
        self' = example_storage
        ∧ ((∃ p, p ∈ [silent_plugin "silent" "org.example.Silent"; example_default]
                 ∧ mcp_account_storage_provider p = "org.example.Silent"
                 ∧ mcp_account_storage_create p (dom (accounts example_storage))
                     "gabble" "jabber" "fred" = (None, error))
           ∨ (error
              = Some (g_error_new TP_ERROR_INVALID_ARGUMENT
                        ("Storage provider '" +:+ "org.example.Silent"
                           +:+ "' does not exist"))
              ∧ Forall (λ p, mcp_account_storage_provider p ≠ "org.example.Silent")
                  [silent_plugin "silent" "org.example.Silent"; example_default]))
    end.
Proof.
  split; [reflexivity|].
  apply (X12_create_account_result example_key_name example_storage
           [silent_plugin "silent" "org.example.Silent"; example_default]
           (Some "org.example.Silent") "gabble" "jabber" "fred");
    discriminate.
Defined.

Section UniqueName.

Variable key_name : AccountsKey → string.

(** [for_first] stops at the first counter of the range that is found,
    and gives up only when there is none. *)
Lemma for_first_spec found count :
  ∀ start,
    match for_first found count start with
    | Some i =>
        start <= i < start + Zpos count ∧ found i = true
        ∧ ∀ j, start <= j < i → found j = false
    | None => ∀ j, start <= j < start + Zpos count → found j = false
    end.
Proof.
  induction count as [half IH|half IH|]; intros start; cbn [for_first].
  - pose proof (IH start) as H1.
    destruct (for_first found half start) as [i|].
    { destruct H1 as (Hi & Hfound & Hbefore). repeat split; [lia..|done|done]. }
    pose proof (IH (start + Z.pos half)) as H2.
    destruct (for_first found half (start + Z.pos half)) as [i|].
    { destruct H2 as (Hi & Hfound & Hbefore). repeat split; [lia..|done|].
      intros j Hj. destruct (Z.lt_ge_cases j (start + Z.pos half));
        [apply H1|apply Hbefore]; lia. }
    destruct (found (start + Z.pos half~0)) eqn:Hlast.
    + repeat split; [lia..|done|].
      intros j Hj. destruct (Z.lt_ge_cases j (start + Z.pos half));
        [apply H1|apply H2]; lia.
    + intros j Hj. destruct (Z.lt_ge_cases j (start + Z.pos half)); [apply H1; lia|].
      destruct (Z.eq_dec j (start + Z.pos half~0)) as [->|]; [done|].
      apply H2. lia.
  - pose proof (IH start) as H1.
    destruct (for_first found half start) as [i|].
    { destruct H1 as (Hi & Hfound & Hbefore). repeat split; [lia..|done|done]. }
    pose proof (IH (start + Z.pos half)) as H2.
    destruct (for_first found half (start + Z.pos half)) as [i|].
    { destruct H2 as (Hi & Hfound & Hbefore). repeat split; [lia..|done|].
      intros j Hj. destruct (Z.lt_ge_cases j (start + Z.pos half));
        [apply H1|apply Hbefore]; lia. }
    intros j Hj. destruct (Z.lt_ge_cases j (start + Z.pos half));
      [apply H1|apply H2]; lia.
  - destruct (found start) eqn:Hstart.
    + repeat split; [lia..|done|]. intros j Hj. lia.
    + intros j Hj. by assert (j = start) as -> by lia.
Qed.

(** X13: the name [unique_name] returns is not an account of the cache
    and its object path is not registered on the bus; it carries the
    smallest counter for which that is so, every smaller one being taken;
    and [mcd_storage_add_account_from_plugin] accepts it: the account is
    added for the plugin that asked.  [unique_name] returns nothing only
    when every counter below [G_MAXUINT] is taken. *)
Theorem X13_unique_name_is_fresh (self : McdStorage) (registered : string → bool)
    (manager protocol identification : string) (plugin : McpAccountStorage) :
  let candidate := unique_name_candidate manager protocol identification in
  let taken i :=
    is_Some (lookup_account self (candidate i))
    ∨ registered (TP_ACCOUNT_OBJECT_PATH_BASE +:+ candidate i) = true in
  match unique_name self registered manager protocol identification with
  | Some name =>
      lookup_account self name = None
      ∧ registered (TP_ACCOUNT_OBJECT_PATH_BASE +:+ name) = false
      ∧ (∃ i, 0 <= i < Z.pos G_MAXUINT ∧ name = candidate i ∧ ∀ j, 0 <= j < i → taken j)
      ∧ storage
          <$> lookup_account
                (mcd_storage_add_account_from_plugin key_name self plugin (Some name)).1
                name
        = Some plugin
  | None => ∀ i, 0 <= i < Z.pos G_MAXUINT → taken i
  end.
Proof.
  intros candidate taken. unfold unique_name.
  match goal with
  | |- context [for_first ?f ?c ?s] =>
      pose proof (for_first_spec f c s) as Hspec; destruct (for_first f c s) as [i|]
  end; cbn [fmap option_fmap option_map].
  - destruct Hspec as (Hi & Hfound & Hbefore).
    apply andb_prop in Hfound as [Hcache Hbus].
    apply negb_true_iff, bool_decide_eq_false in Hcache.
    apply negb_true_iff in Hbus.
    assert (lookup_account self (candidate i) = None) as Hnone.
    { unfold lookup_account. destruct (accounts self !! candidate i) eqn:Hl; [|done].
      destruct Hcache. by eexists. }
    split; [done|]. split; [done|]. split.
    + exists i. split; [lia|]. split; [done|]. intros j Hj.
      specialize (Hbefore j Hj). apply andb_false_iff in Hbefore as [Hc|Hb].
      * left. by apply negb_false_iff, bool_decide_eq_true in Hc.
      * right. by apply negb_false_iff in Hb.
    + by apply add_account_from_plugin_new_name.
  - intros j Hj. specialize (Hspec j ltac:(lia)).
    apply andb_false_iff in Hspec as [Hc|Hb].
    + left. by apply negb_false_iff, bool_decide_eq_true in Hc.
    + right. by apply negb_false_iff in Hb.
Qed.

End UniqueName.

Section KnownAttributes.

Variable key_name : AccountsKey → string.

Lemma known_attributes_complete k :
  ∃ type, In (type, key_name k) (known_attributes key_name).
Proof. destruct k; eexists; unfold known_attributes; cbn [In]; tauto. Qed.

(** X14: [mcd_storage_init_value_for_attribute] initialises the value
    exactly for the names of the table of known attributes: every type
    string of the table has a case in its [switch].  No attribute is
    initialised as an unsigned integer: the attribute of type [u] is given
    the signed [G_TYPE_INT]. *)
Theorem X14_init_value_for_known_attributes (attribute : string) :
  (is_Some (mcd_storage_init_value_for_attribute key_name attribute)
   ↔ ∃ k, attribute = key_name k)
  ∧ (∀ value,
       mcd_storage_init_value_for_attribute key_name attribute = Some value →
       G_VALUE_TYPE value ≠ G_TYPE_UINT).
Proof.
  assert (∀ name,
            match mcd_storage_init_value_for_attribute key_name name with
            | Some value =>
                (∃ k, name = key_name k) ∧ G_VALUE_TYPE value ≠ G_TYPE_UINT
            | None => ∀ k, name ≠ key_name k
            end) as Hinit.
  { intros name.
    unfold mcd_storage_init_value_for_attribute, mcd_storage_get_attribute_type.
    destruct (find _ (known_attributes key_name)) as [[type name']|] eqn:Hfind;
      cbn [fmap option_fmap option_map fst].
    - apply find_some in Hfind as [Hin Hname]. cbn [snd] in Hname.
      apply negb_true_iff in Hname. unfold tp_strdiff in Hname.
      apply negb_false_iff, bool_decide_eq_true in Hname. injection Hname as ->.
      unfold known_attributes in Hin. cbn [In] in Hin.
      repeat (destruct Hin as [Heq|Hin];
              [injection Heq as <- <-; vm_compute; by split; [eexists|]|]).
      done.
    - intros k ->. destruct (known_attributes_complete k) as [type Hin].
      eapply find_none in Hfind; [|exact Hin]. cbn [snd] in Hfind.
      unfold tp_strdiff in Hfind. by rewrite bool_decide_eq_true_2 in Hfind. }
  split.
  - specialize (Hinit attribute).
    destruct (mcd_storage_init_value_for_attribute key_name attribute).
    + split; [by intros _; apply Hinit|by intros _; eexists].
    + split; [by intros []|]. intros [k Hk]. by destruct (Hinit k).
  - intros value Hvalue. specialize (Hinit attribute). rewrite Hvalue in Hinit.
    apply Hinit.
Qed.

End KnownAttributes.

Lemma X14_init_value_for_known_attributes_witness :
  G_VALUE_TYPE (g_value_init G_TYPE_INT) ≠ G_TYPE_UINT.
Proof.
  apply (proj2 (X14_init_value_for_known_attributes example_key_name
                  "AutomaticPresenceType") (g_value_init G_TYPE_INT)).
  reflexivity.
Defined.

Section TypedReaders.

Lemma g_key_file_parse_value_as_integer_above n :
  G_MAXINT < n <= G_MAXINT64 →
  g_key_file_parse_value_as_integer (printf_u n)
  = Err G_KEY_FILE_ERROR_INVALID_VALUE "Integer value out of range".
Proof.
  intros Hn. unfold g_key_file_parse_value_as_integer, strtol.
  assert (printf_u n = printf_d n) as Hd.
  { unfold printf_d, G_MAXINT in *. by rewrite (proj2 (Z.ltb_ge n 0)) by lia. }
  rewrite Hd at 1. rewrite g_ascii_strtoll_printf_d
    by (unfold G_MININT64, G_MAXINT, G_MAXINT64 in *; lia).
  rewrite bool_decide_eq_false_2
    by (apply printf_u_not_empty; unfold G_MAXINT in *; lia).
  cbn [string_head orb].
  by rewrite (proj2 (Z.leb_gt n G_MAXINT)), andb_false_r by lia.
Qed.

Lemma mcd_keyfile_escape_variant_uint32 n :
  0 <= n → mcd_keyfile_escape_variant (GV_uint32 n) = Some (printf_u n).
Proof.
  intros Hn. unfold mcd_keyfile_escape_variant. cbn [mcd_keyfile_set_variant fst].
  unfold g_key_file_set_string, g_key_file_get_value, g_key_file_set_value.
  rewrite lookup_insert_eq. unfold Ok.
  by rewrite g_key_file_parse_string_as_value_printf_u.
Qed.

(** X15: [mcd_storage_get_integer] reads an attribute the cache holds as
    an unsigned 32-bit integer through its decimal text, as a [gint]: it
    returns the number when it is at most [G_MAXINT], and 0, as for an
    attribute that is not set, when it is above.  An attribute held as a
    signed integer is returned as it is. *)
Theorem X15_get_integer_of_unsigned (self : McdStorage) (account attribute : string)
    (n : Z) :
  g_str_has_prefix attribute "param-" = false →
  0 <= n <= G_MAXUINT32 →
  (cached_attribute self account attribute = Some (GV_uint32 n) →
   mcd_storage_get_integer self account attribute = if n <=? G_MAXINT then n else 0)
  ∧ (cached_attribute self account attribute = Some (GV_int32 n) →
     mcd_storage_get_integer self account attribute = n)
  ∧ (cached_attribute self account attribute = None →
     mcd_storage_get_integer self account attribute = 0).
Proof.
  intros Hprefix Hn. unfold mcd_storage_get_integer, mcd_storage_get_attribute,
    cached_attribute.
  rewrite Hprefix.
  destruct (lookup_account self account) as [sa|]; cbn [mbind option_bind];
    [|by repeat split].
  split; [|split]; intros ->; [| done..].
  unfold mcd_storage_coerce_variant_to_value.
  rewrite bool_decide_eq_false_2 by done.
  rewrite mcd_keyfile_escape_variant_uint32 by lia.
  unfold mcd_keyfile_unescape_value, mcd_keyfile_get_value.
  cbn [G_VALUE_TYPE g_value_init mcd_keyfile_get_variant].
  unfold g_key_file_get_integer. rewrite g_key_file_get_set_value.
  unfold Ok at 1. cbv beta iota.
  destruct (Z.leb_spec n G_MAXINT).
  - by rewrite g_key_file_parse_value_as_integer_printf_u by lia.
  - rewrite g_key_file_parse_value_as_integer_above; [done|].
    unfold G_MAXUINT32, G_MAXINT64 in *. lia.
Qed.

Lemma X15_get_integer_of_unsigned_witness :
  mcd_storage_get_integer
    (store_account mcd_storage_init "acct"
       {| attributes := {["AutomaticPresenceType" := GV_uint32 4000000000]};
          parameters := ∅; escaped_parameters := ∅; storage := example_owner |})
    "acct" "AutomaticPresenceType"
  = 0.
Proof.
  apply (proj1 (X15_get_integer_of_unsigned
                  (store_account mcd_storage_init "acct"
                     {| attributes := {["AutomaticPresenceType" := GV_uint32 4000000000]};
                        parameters := ∅; escaped_parameters := ∅;
                        storage := example_owner |})
                  "acct" "AutomaticPresenceType" 4000000000 eq_refl
                  ltac:(unfold G_MAXUINT32; lia))).
  reflexivity.
Defined.

(** X16: [mcd_storage_dup_string] returns the string that
    [mcd_storage_set_string] stored in an account of the cache, any
    string in UTF-8, and nothing once [mcd_storage_set_string] was handed
    no string. *)
Theorem X16_set_string_then_dup_string (self : McdStorage) (account attribute : string)
    (val : option string) :
  is_Some (lookup_account self account) →
  g_str_has_prefix attribute "param-" = false →
  (∀ s, val = Some s → g_utf8_validate s = true) →
  mcd_storage_dup_string (mcd_storage_set_string self account attribute val).1.2
    account attribute
  = val.
Proof.
  intros Hsa Hprefix _. unfold mcd_storage_dup_string, mcd_storage_set_string.
  rewrite Hprefix.
  assert (∀ value : option GValue,
            match value with
            | None => mcd_storage_set_attribute self account attribute None
            | Some v => mcd_storage_set_attribute self account attribute (Some v)
            end = mcd_storage_set_attribute self account attribute value) as Hset
    by (by intros []).
  destruct val as [val|].
  - pose proof (set_attribute_cached self account attribute
                  (Some {| G_VALUE_TYPE := G_TYPE_STRING;
                           g_value_content := GV_string val |}) Hsa Hprefix) as Hcached.
    unfold mcd_storage_get_attribute. rewrite Hprefix.
    unfold cached_attribute in Hcached. revert Hcached.
    destruct (lookup_account (mcd_storage_set_attribute _ _ _ _).1.2 account)
      as [sa'|]; [|done].
    cbn [mbind option_bind fmap option_fmap option_map]. by intros ->.
  - pose proof (set_attribute_cached self account attribute None Hsa Hprefix)
      as Hcached.
    unfold mcd_storage_get_attribute. rewrite Hprefix.
    unfold cached_attribute in Hcached. revert Hcached.
    destruct (lookup_account (mcd_storage_set_attribute _ _ _ _).1.2 account)
      as [sa'|]; [|done].
    cbn [mbind option_bind fmap option_fmap option_map]. by intros ->.
Qed.

Lemma X16_set_string_then_dup_string_witness :
  mcd_storage_dup_string
    (mcd_storage_set_string example_storage "acct" "Nickname" (Some "Fred; ")).1.2
    "acct" "Nickname"
  = Some "Fred; ".
Proof.
  apply (X16_set_string_then_dup_string example_storage "acct" "Nickname"
           (Some "Fred; ")).
  - by eexists.
  - reflexivity.
  - intros s [= <-]. reflexivity.
Defined.

End TypedReaders.

(** ** Reading attributes and parameters (C3) *)

Section Reading.




End Reading.


Section ListKeys.

Variable key_name : AccountsKey → string.

Lemma list_keys_elem self account key :
  key ∈ list_keys self account
  ↔ is_Some (cached_attribute self account key)
    ∨ ∃ parameter,
        key = "param-" +:+ parameter
        ∧ is_Some (cached_parameter self account parameter).
Proof.
  unfold list_keys, cached_attribute, cached_parameter.
  destruct (lookup_account self account) as [sa|]; cbn [mbind option_bind].
  - rewrite elem_of_app, !list_elem_of_fmap. split.
    + intros [([k v] & -> & Hkv)|([k v] & -> & Hkv)];
        apply elem_of_map_to_list in Hkv; cbn [fst].
      * left. by eexists.
      * right. exists k. split; [done|by eexists].
    + intros [[v Hv]|(parameter & -> & [v Hv])].
      * left. exists (key, v). split; [done|by apply elem_of_map_to_list].
      * right. exists (parameter, v). split; [done|by apply elem_of_map_to_list].
  - split; [by intros ?%elem_of_nil|].
    intros [[]|(parameter & _ & [])]; done.
Qed.

(** X17: [list_keys] lists the attributes of the account and, with the
    prefix, the parameters the cache holds as typed values, and nothing
    else.  A parameter the cache holds only as escaped text, as one pushed
    by a plugin with [set_value] is, is not listed, although [get_value]
    returns its text. *)
Theorem X17_list_keys_omits_escaped_parameters (self : McdStorage)
    (account parameter escaped : string) :
  (∀ key,
     key ∈ list_keys self account
     ↔ is_Some (cached_attribute self account key)
       ∨ ∃ p, key = "param-" +:+ p ∧ is_Some (cached_parameter self account p))
  ∧ (is_Some (lookup_account self account) →
     cached_attribute self account ("param-" +:+ parameter) = None →
     let self' :=
       (set_value key_name self account ("param-" +:+ parameter) (Some escaped)).1 in
     get_value self' account ("param-" +:+ parameter) = Some escaped
     ∧ "param-" +:+ parameter ∉ list_keys self' account).
Proof.
  split; [intros key; apply list_keys_elem|].
  intros [sa Hsa] Hattribute self'.
  assert (cached_parameter self' account parameter = None
          ∧ cached_escaped_parameter self' account parameter = Some escaped
          ∧ cached_attribute self' account ("param-" +:+ parameter) = None)
    as (Hv & He & Ha).
  { subst self'. unfold set_value. rewrite Hsa, param_prefix, string_drop_param.
    unfold cached_attribute in Hattribute. rewrite Hsa in Hattribute.
    unfold cached_parameter, cached_escaped_parameter, cached_attribute,
      lookup_account, store_account.
    cbn [fst accounts]. rewrite lookup_insert_eq.
    cbn [mbind option_bind parameters escaped_parameters attributes].
    by rewrite lookup_delete_eq, lookup_insert_eq. }
  split.
  - by rewrite get_value_cached, param_prefix, string_drop_param, Hv.
  - rewrite list_keys_elem. intros [Hlisted|(p & Hp & Hlisted)].
    + rewrite Ha in Hlisted. by destruct Hlisted.
    + assert (p = parameter) as ->.
      { rewrite <- (string_drop_param p), <- Hp. apply string_drop_param. }
      rewrite Hv in Hlisted. by destruct Hlisted.
Qed.

End ListKeys.

Lemma X17_list_keys_omits_escaped_parameters_witness :
  get_value
    (set_value example_key_name example_storage "acct" "param-server"
       (Some "example.com")).1 "acct" "param-server"
  = Some "example.com"
  ∧ "param-" +:+ "server"
    ∉ list_keys
        (set_value example_key_name example_storage "acct" "param-server"
           (Some "example.com")).1 "acct".
Proof.
  apply (proj2 (X17_list_keys_omits_escaped_parameters example_key_name
                  example_storage "acct" "server" "example.com")).
  - by eexists.
  - reflexivity.
Defined.

Section AccountPaths.

Lemma path_chars_app a b : path_chars (a +:+ b) = path_chars a && path_chars b.
Proof.
  induction a as [|c a IH]; [done|].
  rewrite append_cons. cbn [path_chars]. by rewrite IH, andb_assoc.
Qed.

Lemma hex_digit_path_char d : 0 <= d < 16 → object_path_char (hex_digit d) = true.
Proof.
  intros Hd.
  assert (d = 0 ∨ d = 1 ∨ d = 2 ∨ d = 3 ∨ d = 4 ∨ d = 5 ∨ d = 6 ∨ d = 7 ∨ d = 8
          ∨ d = 9 ∨ d = 10 ∨ d = 11 ∨ d = 12 ∨ d = 13 ∨ d = 14 ∨ d = 15)
    as Hcases by lia.
  repeat (destruct Hcases as [->|Hcases]; [reflexivity|]). by subst.
Qed.

Lemma byte_range c : 0 <= byte c < 256.
Proof. destruct c as [[] [] [] [] [] [] [] []]; by vm_compute. Qed.

Lemma esc_ident_good c is_first :
  esc_ident_bad c is_first = false → object_path_char c = true.
Proof.
  unfold esc_ident_bad, object_path_char. cbv zeta. intros H.
  apply andb_false_iff in H as [H|H]; [apply andb_false_iff in H as [H|H]|];
    apply orb_false_elim in H as [H1 H2].
  - apply orb_true_intro. left. apply orb_true_intro. right. lia.
  - apply orb_true_intro. left. apply orb_true_intro. left.
    apply orb_true_intro. right. lia.
  - apply orb_false_elim in H1 as [H0 H1].
    apply orb_true_intro. left. apply orb_true_intro. left.
    apply orb_true_intro. left. lia.
Qed.

Lemma escape_as_identifier_from_path_chars name :
  ∀ is_first, path_chars (escape_as_identifier_from is_first name) = true.
Proof.
  induction name as [|c r IH]; intros is_first; [done|].
  cbn [escape_as_identifier_from]. rewrite path_chars_app, IH, andb_true_r.
  destruct (esc_ident_bad c is_first) eqn:Hbad.
  - pose proof (byte_range c) as Hc. unfold printf_02x. cbn [path_chars].
    rewrite !hex_digit_path_char; [done| |].
    + pose proof (Z.mod_pos_bound (byte c) 16). lia.
    + split; [apply Z.div_pos; lia|apply Z.div_lt_upper_bound; lia].
  - cbn [path_chars]. by rewrite (esc_ident_good _ _ Hbad).
Qed.

Lemma tp_escape_as_identifier_element name :
  path_chars (tp_escape_as_identifier name) = true ∧ tp_escape_as_identifier name ≠ "".
Proof.
  unfold tp_escape_as_identifier. case_bool_decide as Hname; [done|].
  split; [apply escape_as_identifier_from_path_chars|].
  destruct name as [|c r]; [done|]. cbn [escape_as_identifier_from].
  by destruct (esc_ident_bad c true).
Qed.

Lemma g_strdelimit_element protocol :
  protocol_chars protocol = true →
  path_chars (g_strdelimit protocol "-" "_") = true
  ∧ (protocol ≠ "" → g_strdelimit protocol "-" "_" ≠ "").
Proof.
  intros Hprotocol. split; [|by destruct protocol].
  induction protocol as [|c r IH]; [done|].
  cbn [protocol_chars] in Hprotocol. apply andb_prop in Hprotocol as [Hc Hr].
  cbn [g_strdelimit path_chars strchr]. rewrite IH, andb_true_r by done.
  rewrite orb_false_r. destruct (Ascii.eqb_spec "-" c) as [<-|Hne]; [done|].
  apply orb_prop in Hc as [Hc|Hc]; [done|].
  apply Ascii.eqb_eq in Hc. by subst.
Qed.

Lemma all_digits_path_chars s : all_digits s = true → path_chars s = true.
Proof.
  induction s as [|c r IH]; [done|]. cbn [all_digits path_chars].
  intros [Hc Hr]%andb_prop. rewrite IH, andb_true_r by done.
  unfold g_ascii_isdigit in Hc. unfold object_path_char. cbv zeta.
  by rewrite Hc.
Qed.

(** An element, then what follows it. *)
Lemma object_path_elements_app element rest after_slash :
  path_chars element = true →
  element ≠ "" →
  object_path_elements (element +:+ rest) after_slash = object_path_elements rest false.
Proof.
  revert after_slash. induction element as [|c r IH]; intros after_slash Hchars Hne;
    [done|].
  cbn [path_chars] in Hchars. apply andb_prop in Hchars as [Hc Hr].
  rewrite append_cons. cbn [object_path_elements].
  destruct (Ascii.eqb_spec c "/") as [->|_]; [done|]. rewrite Hc. cbn [andb].
  destruct r as [|c' r']; [by rewrite append_nil_l|]. by apply IH.
Qed.

Lemma account_object_path rest :
  g_variant_is_object_path (TP_ACCOUNT_OBJECT_PATH_BASE +:+ rest)
  = object_path_elements rest true.
Proof.
  unfold TP_ACCOUNT_OBJECT_PATH_BASE. rewrite !append_cons, append_nil_l.
  cbn [g_variant_is_object_path]. rewrite bool_decide_eq_false_2 by done.
  reflexivity.
Qed.

Lemma unique_name_candidate_path manager protocol identification i :
  protocol ≠ "" →
  protocol_chars protocol = true →
  0 <= i →
  g_variant_is_object_path
    (TP_ACCOUNT_OBJECT_PATH_BASE
       +:+ unique_name_candidate manager protocol identification i) = true.
Proof.
  intros Hne Hprotocol Hi. rewrite account_object_path. unfold unique_name_candidate.
  destruct (tp_escape_as_identifier_element manager) as [Hm1 Hm2].
  destruct (tp_escape_as_identifier_element identification) as [Hb1 Hb2].
  destruct (g_strdelimit_element protocol Hprotocol) as [Hp1 Hp2].
  rewrite object_path_elements_app by done.
  rewrite append_cons, append_nil_l. cbn [object_path_elements].
  change (Ascii.eqb "/" "/") with true. cbv iota. cbn [negb andb].
  rewrite object_path_elements_app by auto.
  rewrite append_cons, append_nil_l. cbn [object_path_elements].
  change (Ascii.eqb "/" "/") with true. cbv iota. cbn [negb andb].
  rewrite <- (append_nil_r (_ +:+ printf_u i)).
  rewrite object_path_elements_app; [done| |].
  - rewrite path_chars_app, Hb1. apply all_digits_path_chars.
    by apply all_digits_utoa.
  - by destruct (tp_escape_as_identifier identification).
Qed.

(** X18: the object path of an account named by [unique_name] is
    well-formed, whatever the manager name and the identification are,
    when the protocol name is not empty and is made of letters, digits,
    ['_'] and ['-']: the manager and the identification are escaped as
    identifiers and the ['-'] of the protocol are replaced. *)
Theorem X18_unique_name_object_path (self : McdStorage) (registered : string → bool)
    (manager protocol identification name : string) :
  protocol ≠ "" →
  protocol_chars protocol = true →
  unique_name self registered manager protocol identification = Some name →
  g_variant_is_object_path (TP_ACCOUNT_OBJECT_PATH_BASE +:+ name) = true.
Proof.
  intros Hne Hprotocol. unfold unique_name.
  match goal with
  | |- context [for_first ?f ?c ?s] =>
      pose proof (for_first_spec f c s) as Hspec; destruct (for_first f c s) as [i|]
  end; [|done].
  cbn [fmap option_fmap option_map]. intros [= <-].
  apply unique_name_candidate_path; [done..|]. lia.
Qed.

Lemma X18_unique_name_object_path_witness :
  unique_name example_storage (λ _, false) "gabble" "jabber-x" "fred@example.com"
  = Some "gabble/jabber_x/fred_40example_2ecom0"
  ∧ g_variant_is_object_path
      (TP_ACCOUNT_OBJECT_PATH_BASE +:+ "gabble/jabber_x/fred_40example_2ecom0") = true.
Proof.
  assert (unique_name example_storage (λ _, false) "gabble" "jabber-x"
            "fred@example.com"
          = Some "gabble/jabber_x/fred_40example_2ecom0") as H by (by vm_compute).
  split; [exact H|].
  apply (X18_unique_name_object_path example_storage (λ _, false) "gabble" "jabber-x"
           "fred@example.com" _ ltac:(discriminate) eq_refl H).
Defined.

End AccountPaths.

(** * Properties of the regression-test plugin *)

Section TestPluginFlags.

Import TestPlugin.

Lemma has_flag_creation flags : has_flag flags UNCOMMITTED_CREATION = false.
Proof. unfold has_flag, UNCOMMITTED_CREATION. by rewrite Z.land_0_r. Qed.

Lemma commit_one_never_creates self account_name :
  forallb (λ call, negb (is_CreateAccount call))
    (test_dbus_account_plugin_commit_one self account_name).2 = true.
Proof.
  unfold test_dbus_account_plugin_commit_one.
  destruct (lookup_account self account_name) as [account|]; [|done].
  destruct (negb (active self)); [done|]. cbv zeta.
  destruct (has_flag (flags account) UNCOMMITTED_DELETION); [done|].
  rewrite has_flag_creation. cbn [snd forallb is_CreateAccount negb andb app].
  by do 2 case_bool_decide.
Qed.

(** X19: the plugin never asks its service to create an account.
    [UNCOMMITTED_CREATION] is the enumerator 0, so the test
    [account->flags & UNCOMMITTED_CREATION] of
    [test_dbus_account_plugin_commit_one] is false whatever the flags of
    the account are: no [CreateAccount] call is among the calls of
    [commit_one] or of [commit], and the account that
    [test_dbus_account_plugin_create] has just made is committed with the
    signal alone. *)
Theorem X19_commit_never_calls_CreateAccount (self : TestDBusAccountPlugin)
    (account_name : string) :
  forallb (λ call, negb (is_CreateAccount call))
    (test_dbus_account_plugin_commit_one self account_name).2 = true
  ∧ forallb (λ call, negb (is_CreateAccount call))
      (test_dbus_account_plugin_commit self).2 = true
  ∧ (active self = true →
     lookup_account self account_name = None →
     test_dbus_account_plugin_commit_one
       (test_dbus_account_plugin_create self account_name).1.2 account_name
     = (true,
        [emit_signal "CommittingOne"
           (Some ("/org/freedesktop/Telepathy/Account/" +:+ account_name)) [] None])).
Proof.
  split; [apply commit_one_never_creates|]. split.
  - unfold test_dbus_account_plugin_commit.
    destruct (negb (active self)); [done|]. cbn [snd forallb is_CreateAccount negb andb].
    induction (map_to_list (accounts self)) as [|[k account] l IH]; [done|].
    cbn [fmap list_fmap concat]. rewrite forallb_app, IH, andb_true_r.
    pose proof (commit_one_never_creates self k) as Hone. cbn [fst].
    destruct (test_dbus_account_plugin_commit_one self k) as [[] calls];
      cbn [snd] in Hone; rewrite forallb_app, Hone; done.
  - intros Hactive Hnone. unfold test_dbus_account_plugin_create, ensure_account.
    rewrite Hactive, Hnone. cbn [negb fst snd].
    unfold test_dbus_account_plugin_commit_one, lookup_account, store_account.
    cbn [accounts active]. rewrite lookup_insert_eq, Hactive. cbn [negb].
    by vm_compute.
Qed.

Lemma X19_commit_never_calls_CreateAccount_witness :
  test_dbus_account_plugin_commit_one
    (test_dbus_account_plugin_create example_plugin "gabble/jabber/new0").1.2
    "gabble/jabber/new0"
  = (true,
     [emit_signal "CommittingOne"
        (Some "/org/freedesktop/Telepathy/Account/gabble/jabber/new0") [] None]).
Proof.
  apply (proj2 (proj2 (X19_commit_never_calls_CreateAccount example_plugin
                         "gabble/jabber/new0"))); reflexivity.
Defined.

End TestPluginFlags.

Section TestPluginAccounts.

Import TestPlugin.

Variable key_name : Storage.AccountsKey → string.
Variable mcp_account_manager_parameter_is_secret : string → string → bool.

Lemma owns_account self account_name :
  test_dbus_account_plugin_owns self account_name = true →
  ∃ account,
    lookup_account self account_name = Some account
    ∧ active self = true
    ∧ has_flag (flags account) UNCOMMITTED_DELETION = false.
Proof.
  unfold test_dbus_account_plugin_owns.
  destruct (lookup_account self account_name) as [account|]; [|done].
  intros H. exists account. split; [done|].
  apply negb_true_iff, orb_false_elim in H as [Hactive Hflag].
  by apply negb_false_iff in Hactive.
Qed.

(** X20: a parameter stored with [test_dbus_account_plugin_set] in an
    account the plugin owns is kept as untyped text, its typed value, if
    there was one, is dropped, and [test_dbus_account_plugin_get] of that
    parameter hands that text, as it is, to
    [mcp_account_manager_set_value]; the parameter is marked secret
    exactly when the account manager said it was. *)
Theorem X20_parameter_set_then_get (self : TestDBusAccountPlugin)
    (account_name parameter value : string) :
  test_dbus_account_plugin_owns self account_name = true →
  let key := "param-" +:+ parameter in
  let '(done, self', _) :=
    test_dbus_account_plugin_set key_name mcp_account_manager_parameter_is_secret
      self account_name key value in
  done = true
  ∧ (∃ account',
       lookup_account self' account_name = Some account'
       ∧ parameters account' !! parameter = None
       ∧ untyped_parameters account' !! parameter = Some value
       ∧ parameter ∈ uncommitted_parameters account')
  ∧ ∃ object_path,
      test_dbus_account_plugin_get self' account_name (Some key)
      = (true,
         emit_signal "GetParameter" object_path [parameter] None
           :: (if mcp_account_manager_parameter_is_secret account_name key
               then [mcp_account_manager_parameter_make_secret account_name key]
               else [])
           ++ [mcp_account_manager_set_value account_name key (Some value)]).
Proof.
  intros (account & Haccount & Hactive & Hflag)%owns_account key. subst key.
  unfold test_dbus_account_plugin_set.
  rewrite Haccount, Hactive, Hflag, param_prefix, string_drop_param.
  cbn [negb orb]. split; [done|]. split.
  - eexists. unfold lookup_account, store_account. cbn [accounts].
    rewrite lookup_insert_eq. split; [done|].
    cbn [parameters untyped_parameters uncommitted_parameters].
    rewrite lookup_delete_eq, lookup_insert_eq. repeat split.
    apply elem_of_union_l. by apply elem_of_singleton.
  - exists (Some (path account)).
    unfold test_dbus_account_plugin_get, lookup_account, store_account.
    cbn [accounts active]. rewrite lookup_insert_eq, Hactive. cbn [flags negb orb].
    rewrite Hflag, param_prefix, string_drop_param.
    cbn [parameters untyped_parameters path].
    rewrite lookup_delete_eq, lookup_insert_eq.
    unfold make_secret_if_flagged, lookup_flags. cbn [parameter_flags].
    rewrite lookup_insert_eq. cbn [default from_option id].
    by destruct (mcp_account_manager_parameter_is_secret account_name _).
Qed.

End TestPluginAccounts.

Section TestPluginAccountsWitness.

Import TestPlugin.

Lemma X20_parameter_set_then_get_witness :
  test_dbus_account_plugin_owns example_plugin "acct" = true
  ∧ (test_dbus_account_plugin_set example_key_name (λ _ _, true) example_plugin
       "acct" "param-port" "5224").1.1 = true
  ∧ test_dbus_account_plugin_get
      (test_dbus_account_plugin_set example_key_name (λ _ _, true) example_plugin
         "acct" "param-port" "5224").1.2 "acct" (Some "param-port")
    = (true,
       [emit_signal "GetParameter" (Some "/org/freedesktop/Telepathy/Account/acct")
          ["port"] None;
        mcp_account_manager_parameter_make_secret "acct" "param-port";
        mcp_account_manager_set_value "acct" "param-port" (Some "5224")]).
Proof.
  split; [reflexivity|]. split; [|reflexivity].
  pose proof (X20_parameter_set_then_get example_key_name (λ _ _, true) example_plugin
                "acct" "port" "5224" eq_refl) as H.
  cbv zeta in H.
  change ("param-" +:+ "port") with "param-port" in H.
  destruct (test_dbus_account_plugin_set _ _ _ _ _ _) as [[done self'] calls].
  destruct H as (Hdone & _ & _). exact Hdone.
Defined.

End TestPluginAccountsWitness.

Section TestPluginDeletion.

Import TestPlugin.

Variable key_name : Storage.AccountsKey → string.
Variable mcp_account_manager_parameter_is_secret : string → string → bool.

Lemma has_flag_set flags :
  has_flag (Z.land (Z.lor flags UNCOMMITTED_DELETION) (Z.lnot UNCOMMITTED_CREATION))
    UNCOMMITTED_DELETION = true.
Proof.
  unfold has_flag, UNCOMMITTED_DELETION, UNCOMMITTED_CREATION.
  change (Z.lnot 0) with (-1). rewrite Z.land_m1_r, Z.land_lor_distr_l.
  change (Z.land 1 1) with 1.
  apply negb_true_iff, Z.eqb_neq. intros [_ H]%Z.lor_eq_0_iff. done.
Qed.

Lemma has_flag_cleared flags :
  has_flag (Z.land flags (Z.lnot UNCOMMITTED_DELETION)) UNCOMMITTED_DELETION = false.
Proof.
  unfold has_flag, UNCOMMITTED_DELETION. rewrite <- Z.land_assoc.
  change (Z.land (Z.lnot 1) 1) with 0. by rewrite Z.land_0_r.
Qed.

(** X21: once [test_dbus_account_plugin_delete] was asked to delete the
    whole of an account the plugin owns, the plugin no longer owns it: it
    answers [FALSE] to [owns], to every [get] and to every [set], without
    a call and without a change, and [commit_one] asks the service to
    delete the account and nothing else.  [ensure_account], which [create]
    and [list] go through, makes it an account of the plugin again. *)
Theorem X21_deleted_account_is_hidden (self : TestDBusAccountPlugin)
    (account_name : string) :
  test_dbus_account_plugin_owns self account_name = true →
  let '(done, self', _) := test_dbus_account_plugin_delete self account_name None in
  done = true
  ∧ test_dbus_account_plugin_owns self' account_name = false
  ∧ (∀ key, test_dbus_account_plugin_get self' account_name key = (false, []))
  ∧ (∀ key value,
       test_dbus_account_plugin_set key_name mcp_account_manager_parameter_is_secret
         self' account_name key value
       = (false, self', []))
  ∧ (∃ object_path,
       test_dbus_account_plugin_commit_one self' account_name
       = (true, [emit_signal "CommittingOne" object_path [] None;
                 DeleteAccount account_name]))
  ∧ test_dbus_account_plugin_owns (ensure_account self' account_name).1 account_name
    = true.
Proof.
  intros (account & Haccount & Hactive & Hflag)%owns_account.
  unfold test_dbus_account_plugin_delete. rewrite Haccount, Hactive. cbn [negb].
  split; [done|].
  unfold test_dbus_account_plugin_owns, test_dbus_account_plugin_get,
    test_dbus_account_plugin_set, test_dbus_account_plugin_commit_one, ensure_account,
    lookup_account, store_account.
  cbn [accounts active fst]. rewrite !lookup_insert_eq, Hactive.
  cbn [flags negb orb set_flags accounts active path]. rewrite has_flag_set.
  repeat split; try done.
  - by eexists.
  - by rewrite has_flag_cleared.
Qed.

End TestPluginDeletion.

Section TestPluginDeletionWitness.

Import TestPlugin.

Lemma X21_deleted_account_is_hidden_witness :
  test_dbus_account_plugin_owns example_plugin "acct" = true
  ∧ test_dbus_account_plugin_owns
      (test_dbus_account_plugin_delete example_plugin "acct" None).1.2 "acct"
    = false.
Proof.
  split; [reflexivity|].
  pose proof (X21_deleted_account_is_hidden example_key_name (λ _ _, false)
                example_plugin "acct" eq_refl) as H.
  destruct (test_dbus_account_plugin_delete example_plugin "acct" None)
    as [[done self'] calls].
  exact (proj1 (proj2 H)).
Defined.

End TestPluginDeletionWitness.

Section PushedLists.

Variable key_name : AccountsKey → string.

Lemma write_backs_app self ws1 ws2 :
  (write_backs key_name self (ws1 ++ ws2)).1
  = (write_backs key_name (write_backs key_name self ws1).1 ws2).1.
Proof.
  revert self. induction ws1 as [|w ws1 IH]; intros self; [done|].
  cbn [app write_backs].
  destruct (write_back key_name self w) as [self1 ev]. specialize (IH self1).
  destruct (write_backs key_name self1 (ws1 ++ ws2)) as [self2 evs].
  destruct (write_backs key_name self1 ws1) as [self3 evs3]. cbn [fst] in *.
  by destruct (write_backs key_name self3 ws2).
Qed.

Lemma write_backs_untouched ws self key :
  Forall (λ w, written_key (Op_write_back w) ≠ Some key) ws →
  cached_value (write_backs key_name self ws).1 key = cached_value self key.
Proof.
  intros Hws. revert self. induction Hws as [|w ws Hw Hws IH]; intros self; [done|].
  cbn [write_backs].
  assert (cached_value (write_back key_name self w).1 key = cached_value self key)
    as Hstep.
  { destruct (written_key (Op_write_back w)) as [written|] eqn:Hwritten.
    - apply (run_write_frame key_name self (Op_write_back w) written Hwritten).
      congruence.
    - destruct w as [a k v| |]; cbn [written_key] in Hwritten; try done.
      by destruct (g_str_has_prefix k "param-"). }
  destruct (write_back key_name self w) as [self1 ev]. specialize (IH self1).
  destruct (write_backs key_name self1 ws) as [self2 evs]. cbn [fst] in *.
  by rewrite IH.
Qed.

Lemma set_value_parameter_cached self account parameter value :
  is_Some (lookup_account self account) →
  cached_value (set_value key_name self account ("param-" +:+ parameter) value).1
    (account, true, parameter)
  = (None, value).
Proof.
  intros [sa Hsa]. unfold set_value. rewrite Hsa, param_prefix, string_drop_param.
  unfold cached_value, cached_parameter, cached_escaped_parameter, lookup_account,
    store_account.
  cbn [fst accounts]. rewrite lookup_insert_eq.
  cbn [mbind option_bind parameters escaped_parameters]. rewrite lookup_delete_eq.
  destruct value; by rewrite ?lookup_insert_eq, ?lookup_delete_eq.
Qed.

Lemma written_key_parameter account parameter value :
  written_key (Op_write_back (WB_set_value account ("param-" +:+ parameter) value))
  = Some (account, true, parameter).
Proof. cbn [written_key]. by rewrite param_prefix, string_drop_param. Qed.

(** The parameters of a table pushed one by one with [set_value]. *)
Lemma write_backs_parameters {V} (value : string * V → option string)
    (l : list (string * V)) account :
  ∀ self k x,
    NoDup (fst <$> l) →
    (k, x) ∈ l →
    is_Some (lookup_account self account) →
    cached_value
      (write_backs key_name self
         ((λ kv, WB_set_value account ("param-" +:+ fst kv) (value kv)) <$> l)).1
      (account, true, k)
    = (None, value (k, x)).
Proof.
  induction l as [|[k' x'] l IH]; intros self k x Hnodup Hin Haccount;
    [by apply elem_of_nil in Hin|].
  cbn [fmap list_fmap fst] in Hnodup. apply NoDup_cons in Hnodup as [Hfresh Hnodup].
  cbn [fmap list_fmap write_backs write_back fst].
  pose proof (set_value_parameter_cached self account k' (value (k', x')) Haccount)
    as Hfirst.
  assert (is_Some (lookup_account
                     (set_value key_name self account ("param-" +:+ k')
                        (value (k', x'))).1 account)) as Haccount'.
  { pose proof (write_back_dom key_name self
                  (WB_set_value account ("param-" +:+ k') (value (k', x')))) as Hdom.
    cbn [write_back] in Hdom.
    unfold lookup_account in *. rewrite <- elem_of_dom in *. by rewrite Hdom. }
  destruct (set_value key_name self account ("param-" +:+ k') (value (k', x')))
    as [self1 ev]. cbn [fst] in *.
  apply elem_of_cons in Hin as [[= -> ->]|Hin].
  - match goal with
    | |- context [write_backs key_name self1 ?ws] =>
        pose proof (write_backs_untouched ws self1 (account, true, k')) as Hrest;
        destruct (write_backs key_name self1 ws) as [self2 evs]
    end.
    cbn [fst] in *. rewrite Hrest; [done|].
    apply Forall_fmap, Forall_forall. intros [k2 x2] Hin2.
    unfold compose. cbn beta. cbn [fst]. rewrite written_key_parameter. intros [= ->]. apply Hfresh.
    apply list_elem_of_fmap. by exists (k', x2).
  - specialize (IH self1 k x Hnodup Hin Haccount').
    by destruct (write_backs key_name self1 _) as [self2 evs].
Qed.

End PushedLists.

Section TestPluginLoad.

Import TestPlugin.

Variable key_name : Storage.AccountsKey → string.

Lemma pushes_app a b : pushes (a ++ b) = pushes a ++ pushes b.
Proof. apply omap_app. Qed.

Lemma pushes_parameters {V} account account_name (value : string * V → option string)
    (l : list (string * V)) :
  pushes
    (concat
       ((λ kv,
           mcp_account_manager_set_value account_name ("param-" +:+ fst kv) (value kv)
             :: make_secret_if_flagged account account_name (fst kv)
                  ("param-" +:+ fst kv))
          <$> l))
  = (λ kv, Storage.WB_set_value account_name ("param-" +:+ fst kv) (value kv)) <$> l.
Proof.
  induction l as [|kv l IH]; [done|].
  cbn [fmap list_fmap concat]. rewrite pushes_app, IH.
  unfold make_secret_if_flagged.
  by destruct (has_flag _ _).
Qed.

(** X22: an account of the plugin taken into the cache of the storage
    code.  When [mcd_storage_add_account_from_plugin] adds an account that
    the plugin owns, with the calls of [test_dbus_account_plugin_get] for
    the whole account as the data pushed, every parameter of the plugin
    ends in the cache as escaped text and none as a typed value: a typed
    parameter of the plugin as its escaped form, an untyped one as its
    text, and the typed one wins when the plugin has both. *)
Theorem X22_plugin_parameters_cached_escaped (self : TestDBusAccountPlugin)
    (cache : Storage.McdStorage) (plugin : Storage.McpAccountStorage)
    (account_name : string) (account : Account) :
  lookup_account self account_name = Some account →
  test_dbus_account_plugin_owns self account_name = true →
  Storage.lookup_account cache account_name = None →
  Storage.mcp_account_storage_get plugin account_name
  = pushes (test_dbus_account_plugin_get self account_name None).2 →
  let cache' :=
    (Storage.mcd_storage_add_account_from_plugin key_name cache plugin
       (Some account_name)).1 in
  ∀ parameter,
    (∀ v, parameters account !! parameter = Some v →
          cached_value cache' (account_name, true, parameter)
          = (None, mcd_keyfile_escape_variant v))
    ∧ (∀ s, parameters account !! parameter = None →
            untyped_parameters account !! parameter = Some s →
            cached_value cache' (account_name, true, parameter) = (None, Some s)).
Proof.
  intros Haccount (account' & Haccount' & Hactive & Hflag)%owns_account Hnone Hget.
  assert (account' = account) as -> by congruence.
  intros cache'. subst cache'. unfold Storage.mcd_storage_add_account_from_plugin.
  rewrite bool_decide_eq_false_2
    by (unfold Storage.lookup_account in Hnone; rewrite Hnone; by intros []).
  rewrite Hget. unfold test_dbus_account_plugin_get.
  rewrite Haccount, Hactive, Hflag. cbn [negb orb snd]. cbv zeta.
  change (pushes (emit_signal ?n ?p ?s ?v :: ?l)) with (pushes l).
  rewrite !pushes_app.
  rewrite (pushes_parameters account account_name (λ kv, Some (snd kv))).
  rewrite (pushes_parameters account account_name
             (λ kv, mcd_keyfile_escape_variant (snd kv))).
  set (cache0 := Storage.store_account cache account_name
                   (Storage.mcd_storage_account_new plugin)).
  assert (is_Some (Storage.lookup_account cache0 account_name)) as Hin.
  { unfold cache0, Storage.lookup_account, Storage.store_account.
    cbn [Storage.accounts]. rewrite lookup_insert_eq. by eexists. }
  match goal with
  | |- context [Storage.write_backs key_name cache0 (?a ++ ?u ++ ?t)] =>
      set (attribute_writes := a); set (untyped_writes := u); set (typed_writes := t)
  end.
  assert ((let '(self0, evs) :=
             Storage.write_backs key_name cache0
               (attribute_writes ++ untyped_writes ++ typed_writes) in
           (self0, Storage.MCP_get (Storage.mcp_account_storage_name plugin)
                     account_name :: evs)).1
          = (Storage.write_backs key_name
               (Storage.write_backs key_name
                  (Storage.write_backs key_name cache0 attribute_writes).1
                  untyped_writes).1 typed_writes).1) as ->.
  { rewrite <- !write_backs_app. by destruct (Storage.write_backs _ _ _). }
  set (cache1 := (Storage.write_backs key_name cache0 attribute_writes).1).
  assert (is_Some (Storage.lookup_account cache1 account_name)) as Hin1.
  { unfold Storage.lookup_account in *. rewrite <- elem_of_dom in *.
    unfold cache1. by rewrite write_backs_dom. }
  set (cache2 := (Storage.write_backs key_name cache1 untyped_writes).1).
  assert (is_Some (Storage.lookup_account cache2 account_name)) as Hin2.
  { unfold Storage.lookup_account in *. rewrite <- elem_of_dom in *.
    unfold cache2. by rewrite write_backs_dom. }
  intros parameter. split.
  - intros v Hv. unfold typed_writes.
    apply (write_backs_parameters key_name
             (λ kv : string * GVariant, mcd_keyfile_escape_variant (snd kv))
             (map_to_list (parameters account)) account_name cache2 parameter v);
      [apply NoDup_fst_map_to_list|by apply elem_of_map_to_list|done].
  - intros s Hv Hs. rewrite write_backs_untouched.
    + unfold cache2, untyped_writes.
      apply (write_backs_parameters key_name (λ kv : string * string, Some (snd kv))
               (map_to_list (untyped_parameters account)) account_name cache1
               parameter s);
        [apply NoDup_fst_map_to_list|by apply elem_of_map_to_list|done].
    + unfold typed_writes. apply Forall_fmap, Forall_forall. intros [k v] Hkv.
      unfold compose. cbn beta. cbn [fst]. rewrite written_key_parameter.
      intros [= ->]. apply elem_of_map_to_list in Hkv. congruence.
Qed.

End TestPluginLoad.

Section TestPluginLoadWitness.

Import TestPlugin.

Lemma X22_plugin_parameters_cached_escaped_witness :
  cached_value
    (Storage.mcd_storage_add_account_from_plugin example_key_name
       Storage.mcd_storage_init
       (listing_plugin "TestDBusAccount" 200 ["acct"]
          (λ account, pushes (test_dbus_account_plugin_get example_plugin account None).2))
       (Some "acct")).1
    ("acct", true, "port")
  = (None, Some "5222").
Proof.
  refine (proj1 (X22_plugin_parameters_cached_escaped example_key_name example_plugin
                   Storage.mcd_storage_init
                   (listing_plugin "TestDBusAccount" 200 ["acct"]
                      (λ account,
                         pushes (test_dbus_account_plugin_get example_plugin account
                                   None).2))
                   "acct" _ eq_refl eq_refl eq_refl eq_refl "port")
            (GV_uint32 5222) eq_refl).
Defined.

End TestPluginLoadWitness.

(** * Properties of the channel handlers *)

Section SharedStrings.

Import ChannelHandlers.

Lemma packer_app l1 l2 :
  ∀ heap table bn caps op,
    _mcd_channel_handler_packer heap table (l1 ++ l2) bn caps op
    = bind (_mcd_channel_handler_packer heap table l1 bn caps op)
        (λ '(heap, table), _mcd_channel_handler_packer heap table l2 bn caps op).
Proof.
  induction l1 as [|s l1 IH]; intros heap table bn caps op; [done|].
  cbn [app _mcd_channel_handler_packer new_handler].
  destruct (g_hash_table_insert _ _ _ _) as [[heap1 table1]| |]; [|done..].
  cbn [bind]. apply IH.
Qed.

(** A handler whose strings are allocated is replaced: its bus name, its
    object path and the handler are freed. *)
Lemma packer_replaces heap table a l bn op caps bn' op' caps' ha :
  table !! a = Some ha →
  handlers heap !! ha = Some {| bus_name := bn; obj_path := op; capabilities := caps |} →
  is_Some (strings heap !! bn) →
  is_Some (strings heap !! op) →
  bn ≠ op →
  strings heap !! ha = None →
  (ha < next_block heap)%N →
  _mcd_channel_handler_packer heap table (a :: l) bn' caps' op'
  = _mcd_channel_handler_packer
      {| next_block := N.succ (next_block heap);
         strings := delete op (delete bn (strings heap));
         handlers :=
           delete ha
             (<[next_block heap :=
                  {| bus_name := bn'; obj_path := op'; capabilities := caps' |}]>
                (handlers heap)) |}
      (<[a := next_block heap]> table) l bn' caps' op'.
Proof.
  intros Ha Hha Hbn Hop Hne Hsa Hlta.
  assert (bn ≠ ha) as Hbna by (intros ->; rewrite Hsa in Hbn; by destruct Hbn).
  assert (op ≠ ha) as Hopa by (intros ->; rewrite Hsa in Hop; by destruct Hop).
  cbn [_mcd_channel_handler_packer new_handler].
  unfold g_hash_table_insert at 1. rewrite Ha. cbn [bind].
  unfold _mcd_channel_handler_free at 1. cbn [handlers].
  rewrite lookup_insert_ne by lia. rewrite Hha. cbn [bus_name obj_path].
  unfold g_free at 1. cbn [strings]. rewrite bool_decide_eq_true_2 by done.
  cbn [bind]. unfold g_free at 1. cbn [strings].
  rewrite bool_decide_eq_true_2 by (by rewrite lookup_delete_ne).
  cbn [bind]. unfold g_free at 1. cbn [strings handlers next_block].
  rewrite bool_decide_eq_false_2
    by (rewrite !lookup_delete_ne, Hsa by done; by intros []).
  rewrite bool_decide_eq_true_2 by (rewrite lookup_insert_ne, Hha by lia; by eexists).
  reflexivity.
Qed.

(** A handler whose bus name was freed is replaced: the bus name is
    freed again. *)
Lemma packer_frees_again heap table b l bn op caps bn' op' caps' hb :
  table !! b = Some hb →
  handlers heap !! hb = Some {| bus_name := bn; obj_path := op; capabilities := caps |} →
  strings heap !! bn = None →
  handlers heap !! bn = None →
  (hb < next_block heap)%N →
  (bn < next_block heap)%N →
  _mcd_channel_handler_packer heap table (b :: l) bn' caps' op' = FreedTwice bn.
Proof.
  intros Hb Hhb Hbn Hhbn Hltb Hltbn.
  cbn [_mcd_channel_handler_packer new_handler].
  unfold g_hash_table_insert at 1. rewrite Hb. cbn [bind].
  unfold _mcd_channel_handler_free at 1. cbn [handlers].
  rewrite lookup_insert_ne, Hhb by lia.
  cbn [bus_name]. unfold g_free at 1. cbn [strings handlers].
  rewrite bool_decide_eq_false_2 by (rewrite Hbn; by intros []).
  rewrite bool_decide_eq_false_2; [done|].
  rewrite lookup_insert_ne, Hhbn by lia. by intros [].
Qed.

(** Channel types that are not in the table: every one of them gets a
    new handler, and all the handlers hold the blocks that were handed to
    the packer. *)
Lemma packer_fresh types :
  ∀ heap table bn caps op,
    NoDup types →
    (∀ t, t ∈ types → table !! t = None) →
    ∃ heap' table',
      _mcd_channel_handler_packer heap table types bn caps op = Done (heap', table')
      ∧ strings heap' = strings heap
      ∧ (next_block heap <= next_block heap')%N
      ∧ (∀ p, (p < next_block heap)%N → handlers heap' !! p = handlers heap !! p)
      ∧ (∀ t, t ∈ types →
           ∃ h, table' !! t = Some h
                ∧ (next_block heap <= h < next_block heap')%N
                ∧ handlers heap' !! h
                  = Some {| bus_name := bn; obj_path := op; capabilities := caps |})
      ∧ (∀ t, t ∉ types → table' !! t = table !! t)
      ∧ (∀ t1 t2, t1 ∈ types → t2 ∈ types → t1 ≠ t2 → table' !! t1 ≠ table' !! t2).
Proof.
  induction types as [|s types IH]; intros heap table bn caps op Hnodup Hfresh.
  { exists heap, table. repeat split; try done; try lia.
    - intros t Ht. by apply elem_of_nil in Ht.
    - intros t1 t2 Ht. by apply elem_of_nil in Ht. }
  apply NoDup_cons in Hnodup as [Hs Hnodup].
  cbn [_mcd_channel_handler_packer new_handler]. unfold g_hash_table_insert.
  rewrite (Hfresh s) by (by left). cbn [bind].
  match goal with
  | |- context [_mcd_channel_handler_packer ?heap1 ?table1 types bn caps op] =>
      destruct (IH heap1 table1 bn caps op Hnodup)
        as (heap' & table' & -> & Hstrings & Hnext & Hold & Hnew & Hother & Hinj)
  end.
  { intros t Ht. rewrite lookup_insert_ne by (by intros ->). apply Hfresh. by right. }
  cbn [strings next_block handlers] in *.
  assert (table' !! s = Some (next_block heap)) as Hhead
    by (by rewrite Hother, lookup_insert_eq).
  exists heap', table'. split; [done|]. split; [done|]. split; [lia|].
  split; [|split; [|split]].
  - intros p Hp. rewrite Hold by lia. by rewrite lookup_insert_ne by lia.
  - intros t [->|Ht]%elem_of_cons.
    + exists (next_block heap). rewrite Hother, lookup_insert_eq by done.
      split; [done|]. split; [lia|]. rewrite Hold by lia. by rewrite lookup_insert_eq.
    + destruct (Hnew t Ht) as (h & Hh & Hrange & Hhandler).
      exists h. split; [done|]. split; [lia|done].
  - intros t Ht. apply not_elem_of_cons in Ht as [Hne Ht].
    rewrite Hother by done. by rewrite lookup_insert_ne.
  - intros t1 t2 [->|Ht1]%elem_of_cons [->|Ht2]%elem_of_cons Hne; [done|..].
    + destruct (Hnew t2 Ht2) as (h & Hh & Hrange & _). rewrite Hhead, Hh.
      intros [= <-]. lia.
    + destruct (Hnew t1 Ht1) as (h & Hh & Hrange & _). rewrite Hhead, Hh.
      intros [= ->]. lia.
    + by apply Hinj.
Qed.

(** The handlers of two channel types hold the same bus name, and both
    types are registered again. *)
Lemma packer_shared heap table pre a mid b post bn op caps bn' op' caps' ha hb :
  table !! a = Some ha →
  table !! b = Some hb →
  ha ≠ hb →
  handlers heap !! ha = Some {| bus_name := bn; obj_path := op; capabilities := caps |} →
  handlers heap !! hb = Some {| bus_name := bn; obj_path := op; capabilities := caps |} →
  is_Some (strings heap !! bn) →
  is_Some (strings heap !! op) →
  bn ≠ op →
  strings heap !! ha = None →
  handlers heap !! bn = None →
  (ha < next_block heap)%N →
  (hb < next_block heap)%N →
  (bn < next_block heap)%N →
  (∀ t, t ∈ pre ++ mid → table !! t = None) →
  NoDup (pre ++ a :: mid ++ b :: post) →
  _mcd_channel_handler_packer heap table (pre ++ a :: mid ++ b :: post) bn' caps' op'
  = FreedTwice bn.
Proof.
  intros Ha Hb Hh Hha Hhb Hbn Hop Hne Hsa Hhbn Hlta Hltb Hltbn Hfresh Hnodup.
  apply NoDup_app in Hnodup as (Hpre & Hdisjoint & Hnodup).
  apply NoDup_cons in Hnodup as [Ha_mid Hnodup].
  apply NoDup_app in Hnodup as (Hmid & Hdisjoint_mid & Hnodup).
  apply NoDup_cons in Hnodup as [Hb_post _].
  assert (a ∉ pre) as Ha_pre by (intros Hin; apply (Hdisjoint a Hin); by left).
  assert (b ∉ pre) as Hb_pre.
  { intros Hin. apply (Hdisjoint b Hin). right. apply elem_of_app. right. by left. }
  assert (b ∉ mid) as Hb_mid by (intros Hin; apply (Hdisjoint_mid b Hin); by left).
  assert (a ≠ b) as Hab.
  { intros ->. apply Ha_mid, elem_of_app. right. by left. }
  rewrite packer_app.
  destruct (packer_fresh pre heap table bn' caps' op' Hpre)
    as (heap1 & table1 & -> & Hstrings1 & Hnext1 & Hold1 & _ & Hother1 & _).
  { intros t Ht. apply Hfresh, elem_of_app. by left. }
  cbn [bind].
  rewrite (packer_replaces heap1 table1 a _ bn op caps bn' op' caps' ha);
    [|by rewrite Hother1|by rewrite Hold1|by rewrite Hstrings1..|done
     |by rewrite Hstrings1|lia].
  rewrite packer_app.
  match goal with
  | |- context [_mcd_channel_handler_packer ?heap_a ?table_a mid bn' caps' op'] =>
      destruct (packer_fresh mid heap_a table_a bn' caps' op' Hmid)
        as (heap3 & table3 & -> & Hstrings3 & Hnext3 & Hold3 & _ & Hother3 & _)
  end.
  { intros t Ht. rewrite lookup_insert_ne.
    - rewrite Hother1; [apply Hfresh, elem_of_app; by right|].
      intros Hin. apply (Hdisjoint t Hin). right. apply elem_of_app. by left.
    - intros ->. apply Ha_mid, elem_of_app. by left. }
  cbn [bind next_block strings handlers] in *.
  apply (packer_frees_again heap3 table3 b post bn op caps bn' op' caps' hb).
  - rewrite Hother3, lookup_insert_ne, Hother1 by done. done.
  - rewrite Hold3 by lia.
    rewrite lookup_delete_ne, lookup_insert_ne, Hold1 by (lia || done). done.
  - rewrite Hstrings3, lookup_delete_ne by done. apply lookup_delete_eq.
  - rewrite Hold3 by lia.
    assert (bn ≠ ha) by (intros ->; rewrite Hsa in Hbn; by destruct Hbn).
    rewrite lookup_delete_ne, lookup_insert_ne, Hold1 by (lia || done). done.
  - lia.
  - lia.
Qed.

End SharedStrings.

Section ChannelHandlerFiles.

Import ChannelHandlers.

(** What the reader makes of one file, when the table has none of its
    channel types. *)
Lemma read_conf_file_fresh state filename file bus object types :
  g_str_has_suffix filename CH_FILE_SUFFIX = true →
  g_key_file_get_string file CH_FILE_CH_GROUP "BusName" = Ok bus →
  g_key_file_get_string file CH_FILE_CH_GROUP "ObjectPath" = Ok object →
  g_key_file_get_string_list_separated FILE_SEPARATOR file CH_FILE_CH_GROUP "ChannelType"
  = Ok types →
  NoDup types →
  (∀ t, t ∈ types → table state !! t = None) →
  ∃ state' caps,
    read_conf_file state filename (Some file) CH_FILE_SUFFIX CH_FILE_CH_GROUP
    = Done state'
    ∧ strings (heap state')
      = <[N.succ (next_block (heap state)) := object]>
          (<[next_block (heap state) := bus]> (strings (heap state)))
    ∧ (N.succ (N.succ (next_block (heap state))) <= next_block (heap state'))%N
    ∧ (∀ p, (p < N.succ (N.succ (next_block (heap state))))%N →
            handlers (heap state') !! p = handlers (heap state) !! p)
    ∧ (∀ t, t ∈ types →
         ∃ h, table state' !! t = Some h
              ∧ (N.succ (N.succ (next_block (heap state))) <= h
                 < next_block (heap state'))%N
              ∧ handlers (heap state') !! h
                = Some {| bus_name := next_block (heap state);
                          obj_path := N.succ (next_block (heap state));
                          capabilities := caps |})
    ∧ (∀ t, t ∉ types → table state' !! t = table state !! t)
    ∧ (∀ t1 t2, t1 ∈ types → t2 ∈ types → t1 ≠ t2 →
                table state' !! t1 ≠ table state' !! t2).
Proof.
  intros Hsuffix Hbus Hobject Htypes Hnodup Hfresh. unfold read_conf_file.
  rewrite Hsuffix, Hbus, Hobject, Htypes. cbn [negb]. unfold Ok.
  cbn [g_strdup].
  destruct (match g_key_file_get_integer file CH_FILE_CH_GROUP
                    "TypeSpecificCapabilities" with
            | inl e => _
            | inr capabilities => _
            end) as [caps warned].
  match goal with
  | |- context [_mcd_channel_handler_packer ?heap1 ?table1 types ?bn ?c ?op] =>
      destruct (packer_fresh types heap1 table1 bn c op Hnodup Hfresh)
        as (heap' & table' & -> & Hstrings & Hnext & Hold & Hnew & Hother & Hinj)
  end.
  cbn [bind next_block strings handlers] in *.
  eexists _, caps. split; [done|]. cbn [heap table].
  split; [done|]. split; [done|]. split; [done|]. done.
Qed.

(** X23: the handlers of one [.chandler] file share the blocks of its
    bus name and of its object path, and a second file with two of the
    same channel types makes the reader free the bus name of the first
    file twice.  Read alone, a file with a list of distinct channel types
    gives every one of them a handler, all with the same bus name block;
    read before a file that lists two of these types again,
    [mcd_get_channel_handlers] replaces the two handlers one after the
    other and ends in [g_free] of the bus name that the first replacement
    has freed. *)
Theorem X23_shared_channel_types_are_freed_twice (file1 file2 : GKeyFile)
    (name1 name2 bus1 object1 bus2 object2 : string) (types1 pre mid post : list string)
    (a b : string) :
  g_str_has_suffix name1 CH_FILE_SUFFIX = true →
  g_str_has_suffix name2 CH_FILE_SUFFIX = true →
  g_key_file_get_string file1 CH_FILE_CH_GROUP "BusName" = Ok bus1 →
  g_key_file_get_string file1 CH_FILE_CH_GROUP "ObjectPath" = Ok object1 →
  g_key_file_get_string_list_separated FILE_SEPARATOR file1 CH_FILE_CH_GROUP
    "ChannelType" = Ok types1 →
  g_key_file_get_string file2 CH_FILE_CH_GROUP "BusName" = Ok bus2 →
  g_key_file_get_string file2 CH_FILE_CH_GROUP "ObjectPath" = Ok object2 →
  g_key_file_get_string_list_separated FILE_SEPARATOR file2 CH_FILE_CH_GROUP
    "ChannelType" = Ok (pre ++ a :: mid ++ b :: post) →
  NoDup types1 →
  NoDup (pre ++ a :: mid ++ b :: post) →
  a ∈ types1 →
  b ∈ types1 →
  (∀ t, t ∈ pre ++ mid → t ∉ types1) →
  (∃ state,
     mcd_get_channel_handlers (Some [(name1, Some file1)]) = Done state
     ∧ strings (heap state) !! 0%N = Some bus1
     ∧ ∀ t, t ∈ types1 →
         ∃ h handler,
           table state !! t = Some h
           ∧ handlers (heap state) !! h = Some handler
           ∧ bus_name handler = 0%N)
  ∧ mcd_get_channel_handlers (Some [(name1, Some file1); (name2, Some file2)])
    = FreedTwice 0%N.
Proof.
  intros Hname1 Hname2 Hbus1 Hobject1 Htypes1 Hbus2 Hobject2 Htypes2 Hnodup1 Hnodup2
    Ha Hb Hfresh.
  unfold mcd_get_channel_handlers.
  destruct (read_conf_file_fresh {| heap := heap_init; table := ∅; warnings := [] |}
              name1 file1 bus1 object1 types1 Hname1 Hbus1 Hobject1 Htypes1 Hnodup1)
    as (state & caps & Hread & Hstrings & Hnext & Hold & Hnew & Hother & Hinj);
    [done|].
  cbn [heap table heap_init next_block strings handlers] in *.
  cbn [read_conf_files]. rewrite Hread. cbn [bind].
  split.
  { exists state. split; [done|]. split.
    - rewrite Hstrings. by rewrite lookup_insert_ne, lookup_insert_eq.
    - intros t Ht. destruct (Hnew t Ht) as (h & Hh & _ & Hhandler).
      by exists h, {| bus_name := 0; obj_path := N.succ 0; capabilities := caps |}. }
  destruct (Hnew a Ha) as (ha & Hta & Hrange_a & Hha).
  destruct (Hnew b Hb) as (hb & Htb & Hrange_b & Hhb).
  assert (a ≠ b) as Hab.
  { intros ->. apply NoDup_app in Hnodup2 as (_ & _ & Hnodup2).
    apply NoDup_cons in Hnodup2 as [Hmid _]. apply Hmid, elem_of_app. right. by left. }
  assert (ha ≠ hb) as Hh.
  { intros ->. apply (Hinj a b Ha Hb Hab). by rewrite Hta, Htb. }
  unfold read_conf_file. rewrite Hname2, Hbus2, Hobject2, Htypes2.
  cbn [negb]. unfold Ok. cbn [g_strdup].
  destruct (match g_key_file_get_integer file2 CH_FILE_CH_GROUP
                    "TypeSpecificCapabilities" with
            | inl e => _
            | inr capabilities => _
            end) as [caps2 warned2].
  rewrite (packer_shared _ _ pre a mid b post 0%N (N.succ 0) caps _ _ _ ha hb);
    cbn [next_block strings handlers]; try done; try lia.
  - rewrite !lookup_insert_ne, Hstrings by lia.
    rewrite lookup_insert_ne, lookup_insert_eq by done. by eexists.
  - rewrite !lookup_insert_ne, Hstrings by lia. rewrite lookup_insert_eq. by eexists.
  - rewrite !lookup_insert_ne, Hstrings by lia.
    by rewrite !lookup_insert_ne by lia.
  - by rewrite Hold by lia.
  - intros t Ht. by rewrite Hother by (by apply Hfresh).
Qed.

End ChannelHandlerFiles.

Section ChannelHandlerFilesWitness.

Import ChannelHandlers.

Lemma X23_shared_channel_types_are_freed_twice_witness :
  mcd_get_channel_handlers
    (Some [("text.chandler", Some example_text_handler);
           ("media.chandler", Some example_media_handler)])
  = FreedTwice 0%N.
Proof.
  refine (proj2 (X23_shared_channel_types_are_freed_twice example_text_handler
                   example_media_handler "text.chandler"
                   "media.chandler" "org.example.Text" "/org/example/Text"
                   "org.example.Media" "/org/example/Media" ["text"; "media"]
                   [] [] [] "text" "media"
                   eq_refl eq_refl eq_refl eq_refl eq_refl eq_refl eq_refl eq_refl
                   _ _ _ _ _)).
  - apply (bool_decide_unpack _). by vm_compute.
  - apply (bool_decide_unpack _). by vm_compute.
  - apply (bool_decide_unpack _). by vm_compute.
  - apply (bool_decide_unpack _). by vm_compute.
  - intros t Ht. by apply elem_of_nil in Ht.
Defined.

End ChannelHandlerFilesWitness.


(** * Properties of the account proxy *)

Section ParsedPaths.
Import McAccount.

Lemma match_literal_app literal input :
  match_literal literal (literal +:+ input) = Some input.
Proof.
  induction literal as [|c r IH]; [done|].
  rewrite append_cons. cbn [match_literal]. by rewrite Ascii.eqb_refl.
Qed.

Lemma string_drop_app prefix rest :
  string_drop (String.length prefix) (prefix +:+ rest) = rest.
Proof.
  induction prefix as [|c r IH]; [done|].
  rewrite append_cons. cbn [String.length string_drop]. exact IH.
Qed.

Lemma string_length_app a b :
  String.length (a +:+ b) = (String.length a + String.length b)%nat.
Proof.
  induction a as [|c r IH]; [done|].
  rewrite append_cons. cbn [String.length]. by rewrite IH.
Qed.

Lemma object_path_char_kept c :
  object_path_char c = true →
  negb (Ascii.eqb c "/") = true ∧ negb (isspace c) = true.
Proof.
  unfold object_path_char, isspace. cbv zeta.
  destruct (Ascii.eqb_spec c "/") as [->|_]; [done|].
  intros Hc. split; [done|]. apply negb_true_iff. lia.
Qed.

(** An element is scanned up to the character that ends it. *)
Lemma scan_while_element keep element rest :
  (∀ c, object_path_char c = true → keep c = true) →
  path_chars element = true →
  match rest with String c _ => keep c = false | "" => True end →
  scan_while keep (element +:+ rest) = (element, rest).
Proof.
  intros Hkeep Hchars Hrest. induction element as [|c r IH].
  - rewrite append_nil_l. destruct rest as [|c r]; [done|].
    cbn [scan_while]. by rewrite Hrest.
  - cbn [path_chars] in Hchars. apply andb_prop in Hchars as [Hc Hr].
    rewrite append_cons. cbn [scan_while]. by rewrite (Hkeep _ Hc), IH.
Qed.

(** No white space is skipped before an element. *)
Lemma scan_while_isspace_element element :
  path_chars element = true →
  (scan_while isspace element).2 = element.
Proof.
  destruct element as [|c r]; [done|]. cbn [path_chars scan_while].
  intros [Hc _]%andb_prop. apply object_path_char_kept in Hc as [_ Hc].
  apply negb_true_iff in Hc. by rewrite Hc.
Qed.

(** The object path made of a prefix and three elements. *)
Lemma parse_object_path_elements base manager protocol account :
  path_chars manager = true → manager ≠ "" →
  path_chars protocol = true → protocol ≠ "" →
  path_chars account = true → account ≠ "" →
  parse_object_path base (base +:+ manager +:+ "/" +:+ protocol +:+ "/" +:+ account)
  = if (64 <=? String.length manager)%nat then overflow "manager"
    else if (64 <=? String.length protocol)%nat then overflow "protocol"
    else if (256 <=? String.length account)%nat then overflow "name"
    else
      parsed
        {| manager_name := manager;
           protocol_name := protocol;
           name := manager +:+ "/" +:+ protocol +:+ "/" +:+ account |}.
Proof.
  intros Hm Hm' Hp Hp' Ha Ha'. unfold parse_object_path. cbv zeta.
  rewrite match_literal_app, string_drop_app.
  rewrite (scan_while_element _ manager);
    [|intros c Hc; by apply object_path_char_kept|done|done].
  rewrite bool_decide_eq_false_2 by done.
  destruct (64 <=? String.length manager)%nat; [done|].
  rewrite append_cons, append_nil_l.
  rewrite (scan_while_element _ protocol);
    [|intros c Hc; by apply object_path_char_kept|done|done].
  rewrite bool_decide_eq_false_2 by done.
  destruct (64 <=? String.length protocol)%nat; [done|].
  rewrite append_cons, append_nil_l.
  rewrite scan_while_isspace_element by done.
  rewrite <- (append_nil_r account) at 1.
  rewrite (scan_while_element _ account);
    [|intros c Hc; by apply object_path_char_kept|done|done].
  by rewrite bool_decide_eq_false_2 by done.
Qed.

(** X24: the proxy of the client library splits the object path of an
    account named by [unique_name] into the escaped manager name, the
    protocol name with its ['-'] replaced, and the unique name, when the
    protocol name is not empty and is made of letters, digits, ['_'] and
    ['-'] and each part fits its array; an escaped manager name or a
    protocol name of 64 characters or more, or a last element of 256 or
    more, is written past the end of its array. *)
Theorem X24_unique_name_is_parsed (base : string) (self : McdStorage)
    (registered : string → bool) (manager protocol identification unique : string) :
  protocol ≠ "" →
  protocol_chars protocol = true →
  unique_name self registered manager protocol identification = Some unique →
  parse_object_path base (base +:+ unique)
  = let escaped := tp_escape_as_identifier manager in
    let delimited := g_strdelimit protocol "-" "_" in
    if (64 <=? String.length escaped)%nat then overflow "manager"
    else if (64 <=? String.length delimited)%nat then overflow "protocol"
    else if (258 + String.length escaped + String.length delimited
             <=? String.length unique)%nat
    then overflow "name"
    else
      parsed {| manager_name := escaped; protocol_name := delimited; name := unique |}.
Proof.
  intros Hne Hprotocol. unfold unique_name.
  match goal with
  | |- context [for_first ?f ?c ?s] =>
      pose proof (for_first_spec f c s) as Hspec; destruct (for_first f c s) as [i|]
  end; [|done].
  cbn [fmap option_fmap option_map]. intros [= <-]. cbv zeta.
  destruct (tp_escape_as_identifier_element manager) as [Hm1 Hm2].
  destruct (tp_escape_as_identifier_element identification) as [Hb1 Hb2].
  destruct (g_strdelimit_element protocol Hprotocol) as [Hp1 Hp2].
  unfold unique_name_candidate.
  rewrite parse_object_path_elements; try done; try by apply Hp2.
  - rewrite !string_length_app. cbn [String.length].
    destruct (64 <=? String.length (tp_escape_as_identifier manager))%nat; [done|].
    destruct (64 <=? String.length (g_strdelimit protocol "-" "_"))%nat; [done|].
    match goal with
    | |- (if (?a <=? ?b)%nat then _ else _) = (if (?c <=? ?d)%nat then _ else _) =>
        replace (c <=? d)%nat with (a <=? b)%nat; [done|]
    end.
    apply eq_iff_eq_true. rewrite !Nat.leb_le. lia.
  - rewrite path_chars_app, Hb1. apply all_digits_path_chars.
    apply all_digits_utoa. lia.
  - by destruct (tp_escape_as_identifier identification).
Qed.

End ParsedPaths.

Lemma X24_unique_name_is_parsed_witness :
  McAccount.parse_object_path TP_ACCOUNT_OBJECT_PATH_BASE
    (TP_ACCOUNT_OBJECT_PATH_BASE +:+ "gabble/jabber_x/fred_40example_2ecom0")
  = McAccount.parsed
      {| McAccount.manager_name := "gabble";
         McAccount.protocol_name := "jabber_x";
         McAccount.name := "gabble/jabber_x/fred_40example_2ecom0" |}.
Proof.
  refine (X24_unique_name_is_parsed TP_ACCOUNT_OBJECT_PATH_BASE example_storage
            (λ _, false) "gabble" "jabber-x" "fred@example.com"
            "gabble/jabber_x/fred_40example_2ecom0" _ _ _).
  - done.
  - reflexivity.
  - by vm_compute.
Defined.


(** * Properties of the compatibility interface *)

Section CompatProperties.
Import AccountCompat.

(** X25: a [Profile] that is set to a string in UTF-8 which is not empty
    is read back as that string; one set to the empty string or to no
    string is read back as no string, the key being removed.  What is
    read for another property or another account is as before. *)
Theorem X25_profile_set_then_get (account : McdAccount) (name : string)
    (value : option string) :
  (∀ s, value = Some s → g_utf8_validate s = true) →
  let keyfile' := keyfile (set_profile account name value).1 in
  get_profile (set_profile account name value).1 name
  = match value with Some "" => None | _ => value end
  ∧ ∀ other name',
      (other, name') ≠ (unique_name account, name) →
      get_profile {| keyfile := keyfile'; unique_name := other |} name'
      = get_profile {| keyfile := keyfile account; unique_name := other |} name'.
Proof.
  intros Hvalid. cbv zeta. split.
  - unfold get_profile, set_profile. cbn [fst keyfile unique_name].
    destruct value as [[|c r]|].
    + unfold g_key_file_get_string, g_key_file_get_value, g_key_file_remove_key.
      by rewrite lookup_delete_eq.
    + by rewrite g_key_file_get_set_string by by apply Hvalid.
    + unfold g_key_file_get_string, g_key_file_get_value, g_key_file_remove_key.
      by rewrite lookup_delete_eq.
  - intros other name' Hne. unfold get_profile, set_profile.
    cbn [fst keyfile unique_name].
    unfold g_key_file_get_string, g_key_file_get_value, g_key_file_set_string,
      g_key_file_set_value, g_key_file_remove_key.
    destruct value as [[|c r]|];
      by rewrite ?lookup_delete_ne, ?lookup_insert_ne by done.
Qed.

Lemma X25_profile_set_then_get_witness :
  let account := {| keyfile := g_key_file_new; unique_name := "gabble/jabber/fred0" |} in
  get_profile (set_profile account "Profile" (Some "jabber; home")).1 "Profile"
  = Some "jabber; home".
Proof.
  refine (proj1 (X25_profile_set_then_get
                   {| keyfile := g_key_file_new; unique_name := "gabble/jabber/fred0" |}
                   "Profile" (Some "jabber; home") _)).
  intros s [= <-]. reflexivity.
Defined.

(** X26: the [SecondaryVCardFields] that are set to an array of strings
    in UTF-8 are read back as the same array, the empty array and the
    fields with a [';'] or a space included; set to no array, they are
    read back as no array.  What is read for another property or another
    account is as before. *)
Theorem X26_secondary_vcard_fields_set_then_get (account : McdAccount) (name : string)
    (value : option (list string)) :
  (∀ fields, value = Some fields → forallb g_utf8_validate fields = true) →
  let keyfile' := keyfile (set_secondary_vcard_fields account name value).1 in
  get_secondary_vcard_fields (set_secondary_vcard_fields account name value).1 name
  = value
  ∧ ∀ other name',
      (other, name') ≠ (unique_name account, name) →
      get_secondary_vcard_fields {| keyfile := keyfile'; unique_name := other |} name'
      = get_secondary_vcard_fields
          {| keyfile := keyfile account; unique_name := other |} name'.
Proof.
  intros Hvalid. cbv zeta. split.
  - unfold get_secondary_vcard_fields, set_secondary_vcard_fields.
    cbn [fst keyfile unique_name]. destruct value as [fields|].
    + by rewrite g_key_file_get_set_string_list by by apply Hvalid.
    + unfold g_key_file_get_string_list, g_key_file_get_value, g_key_file_remove_key.
      by rewrite lookup_delete_eq.
  - intros other name' Hne. unfold get_secondary_vcard_fields, set_secondary_vcard_fields.
    cbn [fst keyfile unique_name].
    unfold g_key_file_get_string_list, g_key_file_get_value,
      g_key_file_set_string_list, g_key_file_set_value, g_key_file_remove_key.
    destruct value as [fields|];
      by rewrite ?lookup_delete_ne, ?lookup_insert_ne by done.
Qed.

Lemma X26_secondary_vcard_fields_set_then_get_witness :
  let account := {| keyfile := g_key_file_new; unique_name := "gabble/jabber/fred0" |} in
  get_secondary_vcard_fields
    (set_secondary_vcard_fields account "SecondaryVCardFields"
       (Some ["X-JABBER"; "a;b"; ""])).1 "SecondaryVCardFields"
  = Some ["X-JABBER"; "a;b"; ""].
Proof.
  refine (proj1 (X26_secondary_vcard_fields_set_then_get
                   {| keyfile := g_key_file_new; unique_name := "gabble/jabber/fred0" |}
                   "SecondaryVCardFields" (Some ["X-JABBER"; "a;b"; ""]) _)).
  intros s [= <-]. reflexivity.
Defined.

End CompatProperties.

Section RequestSerials.
Import AccountCompat.
Variable mcd_account_request_channel_nmc4 : mcd_channel_request → option GError.

Lemma next_operation_id_range last : 0 <= next_operation_id last < 2 ^ 32.
Proof. unfold next_operation_id. apply Z.mod_pos_bound. lia. Qed.

Lemma call_counter last method :
  0 <= last < 2 ^ 32 →
  (call mcd_account_request_channel_nmc4 last method).1
  = (last + Z.of_nat (requests [method])) mod 2 ^ 32
  ∧ 0 <= (call mcd_account_request_channel_nmc4 last method).1 < 2 ^ 32.
Proof.
  intros Hlast. destruct method; cbn [call requests fst account_request_channel
    account_request_channel_with_string_handle account_cancel_channel_request];
    try (split; [reflexivity|apply next_operation_id_range]).
  rewrite Z.add_0_r, Z.mod_small by done. by split.
Qed.

Lemma requests_cons method methods :
  requests (method :: methods) = (requests [method] + requests methods)%nat.
Proof. by destruct method. Qed.

Lemma call_replies last method :
  (call mcd_account_request_channel_nmc4 last method).2
  = match request_of method last with
    | Some req =>
        match mcd_account_request_channel_nmc4 req with
        | Some error => [dbus_g_method_return_error error; return_from method last]
        | None => [return_from method last]
        end
    | None =>
        [dbus_g_method_return_error
           (g_error_new TP_ERROR_NOT_IMPLEMENTED
              "account_cancel_channel_request is currently just a stub")]
    end.
Proof.
  destruct method; cbn [call snd request_of return_from account_request_channel
    account_request_channel_with_string_handle account_cancel_channel_request
    requestor_serial]; [| |done];
    by destruct (mcd_account_request_channel_nmc4 _).
Qed.

(** The replies to the call at a position of a run. *)
Lemma calls_lookup methods :
  ∀ last k method,
    0 <= last < 2 ^ 32 →
    methods !! k = Some method →
    (calls mcd_account_request_channel_nmc4 last methods).2 !! k
    = Some (call mcd_account_request_channel_nmc4
              ((last + Z.of_nat (requests (take k methods))) mod 2 ^ 32) method).2.
Proof.
  induction methods as [|m methods IH]; intros last k method Hlast Hk; [done|].
  cbn [calls]. destruct (call_counter last m Hlast) as [Hcounter Hrange].
  destruct (call mcd_account_request_channel_nmc4 last m) as [last' replies] eqn:Hcall.
  cbn [fst] in Hcounter, Hrange.
  specialize (IH last').
  destruct (calls mcd_account_request_channel_nmc4 last' methods) as [last'' others].
  cbn [snd] in IH |- *. destruct k as [|k].
  - change ((m :: methods) !! 0%nat) with (Some m) in Hk.
    change ((replies :: others) !! 0%nat) with (Some replies).
    injection Hk as ->. cbn [take requests].
    rewrite Z.add_0_r, Z.mod_small by done. by rewrite Hcall.
  - change ((m :: methods) !! S k) with (methods !! k) in Hk.
    change ((replies :: others) !! S k) with (others !! k).
    change (take (S k) (m :: methods)) with (m :: take k methods).
    rewrite (IH k method Hrange Hk), requests_cons. do 3 f_equal.
    rewrite Hcounter, Zplus_mod_idemp_l. f_equal. lia.
Qed.

(** X27: every request for a channel, with either kind of handle and
    whether it fails or not, takes the next serial number: 1 for the
    first one of the process, one more (modulo 2^32) for each request
    before it, the calls to cancel a request not counted.  The caller of
    a request that fails is sent the error and then the serial number as
    well; the caller of [CancelChannelRequest] is always sent the error
    of a method that is not implemented. *)
Theorem X27_requests_take_serials (methods : list Method) (k : nat) (method : Method) :
  methods !! k = Some method →
  ∃ replies,
    (calls mcd_account_request_channel_nmc4 first_operation_id methods).2 !! k
    = Some replies
    ∧ let serial :=
        (first_operation_id + Z.of_nat (requests (take k methods))) mod 2 ^ 32 in
      match request_of method serial with
      | Some req =>
          replies
          = match mcd_account_request_channel_nmc4 req with
            | Some error => [dbus_g_method_return_error error; return_from method serial]
            | None => [return_from method serial]
            end
      | None =>
          ∃ error,
            replies = [dbus_g_method_return_error error]
            ∧ error_code error = TP_ERROR_NOT_IMPLEMENTED
      end.
Proof.
  intros Hk. eexists. split; [by apply calls_lookup|].
  cbv zeta. rewrite call_replies.
  destruct (request_of method _); [done|]. by eexists.
Qed.

End RequestSerials.

Lemma X27_requests_take_serials_witness :
  let nmc4 (req : AccountCompat.mcd_channel_request) :=
    match AccountCompat.channel_handle_string req with
    | Some _ => Some (g_error_new TP_ERROR_NOT_AVAILABLE "no connection")
    | None => None
    end in
  ∃ replies,
    (AccountCompat.calls nmc4 AccountCompat.first_operation_id
       [AccountCompat.request_channel "Text" 7 1 ":1.5";
        AccountCompat.cancel_channel_request 1;
        AccountCompat.request_channel_with_string_handle "Text" "fred" 1 ":1.5"]).2
      !! 2%nat = Some replies
    ∧ replies
      = [AccountCompat.dbus_g_method_return_error
           (g_error_new TP_ERROR_NOT_AVAILABLE "no connection");
         AccountCompat.return_from_request_channel_with_string_handle 2].
Proof.
  exact (X27_requests_take_serials
           (λ req,
              match AccountCompat.channel_handle_string req with
              | Some _ => Some (g_error_new TP_ERROR_NOT_AVAILABLE "no connection")
              | None => None
              end)
           [AccountCompat.request_channel "Text" 7 1 ":1.5";
            AccountCompat.cancel_channel_request 1;
            AccountCompat.request_channel_with_string_handle "Text" "fred" 1 ":1.5"]
           2%nat
           (AccountCompat.request_channel_with_string_handle "Text" "fred" 1 ":1.5")
           eq_refl).
Defined.
